(** * TaskFlow backend: audit trail, presence registry and conversation
      aggregator

    A shallow embedding of the parts of the backend that decide how a task
    update is turned into activity records, how socket connections are
    counted into online/offline presence, and how read receipts, reactions
    and unread counts are computed over the message collection; and of the
    board queries of the task service (reordering, calendar, statistics),
    the manager-only user update and the escaping of input.

    Conventions used throughout:
    - an [ObjectId] is modelled by its hexadecimal string ([toString()] is
      injective), so user, task and message identities are [string]s; a
      string of a request body that the code turns into an identity with
      [new Types.ObjectId] goes through a cast, which is a parameter of
      the functions concerned and may throw, whereas the identity of the
      session and the single identity by which a function looks a
      document up are carried in the form in which they are stored;
    - a JavaScript [Date] is modelled by its epoch milliseconds ([Z]);
      [new Date()] reads a clock value that is passed in explicitly as [now];
    - an optional field ([foo?: T]) is an [option T], [None] being
      [undefined] (the key is absent);
    - a MongoDB collection is the list of its documents; a query filter is a
      boolean predicate on a document and an update operator is a function
      on a document. *)

From Stdlib Require Import ZArith List Bool String Ascii Lia DecimalString.
From stdpp Require Import gmap strings list fin_maps.

Local Open Scope string_scope.
Local Open Scope list_scope.

(** ** Socket layer: presence registry ([socket/index.ts]) *)

Module Presence.

(** Where an emit goes: [io.emit] reaches every connected socket,
    [io.to(room).emit] the sockets of a room, [socket.to(room).emit] the
    sockets of a room except the emitting one. *)
Inductive Target : Type :=
| ToAll
| ToRoom (room : string)
| ToRoomExcept (room : string) (socketId : string).

(** The payloads of the events emitted by the socket handlers. *)
Inductive Payload : Type :=
| POnline (userId : string) (online : bool)
| PPresence (userId : string) (status : string)
| PTyping (userId : string) (typing : bool).

Record Emitted : Type := mkEmitted {
  target : Target;
  event : string;
  payload : Payload
}.

(** [io.emit('user:online', { userId, online })] *)
Definition emit_user_online (userId : string) (online : bool) : Emitted :=
  mkEmitted ToAll "user:online" (POnline userId online).

(** [const onlineUsers = new Map<string, Set<string>>()]: user id to the set
    of socket ids.  The registry starts empty. *)
Definition onlineUsers_init : gmap string (gset string) := ∅.

(** The body of [io.on('connection', ...)] up to the broadcast: the socket
    is registered under its user (the entry is created when missing, then
    the stored set is mutated in place), and [user:online] is emitted with
    [online: true].  The emit is not guarded by any test. Room joins are
    left out: no property below depends on room membership. *)
Definition on_connection (userId socketId : string)
    (onlineUsers : gmap string (gset string))
  : gmap string (gset string) * list Emitted :=
  let onlineUsers1 :=
    if bool_decide (is_Some (onlineUsers !! userId)) then onlineUsers
    else <[userId := ∅]> onlineUsers in
  let onlineUsers2 := alter (λ s, s ∪ {[socketId]}) userId onlineUsers1 in
  (onlineUsers2, [emit_user_online userId true]).

(** The body of [socket.on('disconnect', ...)]. *)
Definition on_disconnect (userId socketId : string)
    (onlineUsers : gmap string (gset string))
  : gmap string (gset string) * list Emitted :=
  match onlineUsers !! userId with
  | Some userSockets =>
      let userSockets' := userSockets ∖ {[socketId]} in
      if bool_decide (size userSockets' = 0)
      then (delete userId onlineUsers, [emit_user_online userId false])
      else (<[userId := userSockets']> onlineUsers, [])
  | None => (onlineUsers, [])
  end.

(** [io.isUserOnline]: [onlineUsers.has(userId) && onlineUsers.get(userId)!.size > 0] *)
Definition isUserOnline (onlineUsers : gmap string (gset string))
    (userId : string) : bool :=
  match onlineUsers !! userId with
  | Some s => bool_decide (0 < size s)
  | None => false
  end.

(** [io.getOnlineUsers]: [Array.from(onlineUsers.keys())], as a set. *)
Definition getOnlineUsers (onlineUsers : gmap string (gset string))
  : gset string := dom onlineUsers.

(** The two registry events a socket goes through. *)
Inductive SocketEvent : Type :=
| Connect (userId socketId : string)
| Disconnect (userId socketId : string).

Definition step (ev : SocketEvent) (onlineUsers : gmap string (gset string))
  : gmap string (gset string) * list Emitted :=
  match ev with
  | Connect u s => on_connection u s onlineUsers
  | Disconnect u s => on_disconnect u s onlineUsers
  end.

(** Handlers run one after the other (single-threaded event loop); the
    emitted events are collected in order. *)
Fixpoint run (evs : list SocketEvent) (onlineUsers : gmap string (gset string))
  : gmap string (gset string) * list Emitted :=
  match evs with
  | [] => (onlineUsers, [])
  | ev :: evs' =>
      let '(r1, out1) := step ev onlineUsers in
      let '(r2, out2) := run evs' r1 in
      (r2, out1 ++ out2)
  end.

(** Is [e] the [user:online] broadcast for [userId] with flag [online]? *)
Definition is_online_broadcast (userId : string) (online : bool) (e : Emitted)
  : bool :=
  match payload e with
  | POnline u b => bool_decide (u = userId) && Bool.eqb b online
  | _ => false
  end.

Definition count_online_broadcasts (userId : string) (online : bool)
    (out : list Emitted) : nat :=
  length (List.filter (is_online_broadcast userId online) out).

(** Number of steps of a run at which [userId] goes from the state [from]
    to the state [negb from] of [isUserOnline]. *)
Fixpoint count_edges (userId : string) (from : bool) (evs : list SocketEvent)
    (onlineUsers : gmap string (gset string)) : nat :=
  match evs with
  | [] => 0
  | ev :: evs' =>
      let r1 := fst (step ev onlineUsers) in
      (if Bool.eqb (isUserOnline onlineUsers userId) from
          && Bool.eqb (isUserOnline r1 userId) (negb from)
       then 1 else 0) + count_edges userId from evs' r1
  end.

(** Number of [Connect] events of [userId] in an event sequence. *)
Definition count_connects (userId : string) (evs : list SocketEvent) : nat :=
  length (List.filter
            (λ ev, match ev with
                   | Connect u _ => bool_decide (u = userId)
                   | Disconnect _ _ => false
                   end) evs).

(** Registry invariant: a stored socket set is never empty. *)
Definition no_empty_entry (onlineUsers : gmap string (gset string)) : Prop :=
  ∀ u s, onlineUsers !! u = Some s → s ≠ ∅.

(** The sockets of [userId] that an event sequence has connected and not
    disconnected since, counted independently of the registry. *)
Definition track_socket (userId : string) (open : gset string)
    (ev : SocketEvent) : gset string :=
  match ev with
  | Connect u s => if decide (u = userId) then open ∪ {[s]} else open
  | Disconnect u s => if decide (u = userId) then open ∖ {[s]} else open
  end.

Definition open_sockets (userId : string) (evs : list SocketEvent)
  : gset string :=
  fold_left (track_socket userId) evs ∅.

(** The registry entry that stands for a set of open sockets: no entry for
    the empty set. *)
Definition entry_of (open : gset string) : option (gset string) :=
  if decide (open = ∅) then None else Some open.

End Presence.

(** ** Shared JavaScript helpers *)

Module Js.

(** The double quote character, for template strings that contain it. *)
Definition dquote : string := String "034"%char EmptyString.

(** Truthiness of an optional string: [undefined] and the empty string are
    falsy. *)
Definition truthy (s : option string) : bool :=
  match s with
  | Some v => negb (String.eqb v "")
  | None => false
  end.

(** [Array.prototype.includes] on an array of strings. *)
Definition includes (l : list string) (x : string) : bool :=
  existsb (String.eqb x) l.

(** [Array.prototype.sort()] without a comparator, on strings: ascending
    code-unit order.  Insertion into a sorted list, then insertion sort. *)
Fixpoint sort_insert (x : string) (l : list string) : list string :=
  match l with
  | [] => [x]
  | y :: l' => if String.leb x y then x :: l else y :: sort_insert x l'
  end.

Fixpoint sort (l : list string) : list string :=
  match l with
  | [] => []
  | x :: l' => sort_insert x (sort l')
  end.

(** [String.prototype.padStart(width, '0')]. *)
Fixpoint zeros (n : nat) : string :=
  match n with
  | O => ""
  | S n' => "0" +:+ zeros n'
  end.

Definition pad_left (width : nat) (s : string) : string :=
  zeros (width - String.length s) +:+ s.

(** Decimal digits of a non-negative number, left-padded with zeros to
    [width]. *)
Definition decimal (width : nat) (n : Z) : string :=
  pad_left width (NilZero.string_of_uint (N.to_uint (Z.to_N n))).

(** Proleptic Gregorian date (year, month, day) of a day number counted
    from 1970-01-01 (days before the epoch are negative). *)
Definition civil_from_days (days : Z) : Z * Z * Z :=
  let z := (days + 719468)%Z in
  let era := (z / 146097)%Z in
  let doe := (z - era * 146097)%Z in
  let yoe := ((doe - doe / 1460 + doe / 36524 - doe / 146096) / 365)%Z in
  let doy := (doe - (365 * yoe + yoe / 4 - yoe / 100))%Z in
  let mp := ((5 * doy + 2) / 153)%Z in
  let d := (doy - (153 * mp + 2) / 5 + 1)%Z in
  let m := (if (mp <? 10)%Z then mp + 3 else mp - 9)%Z in
  let y := (yoe + era * 400 + (if (m <=? 2)%Z then 1 else 0))%Z in
  (y, m, d).

(** [date.toISOString().split('T')[0]]: the UTC calendar day
    [YYYY-MM-DD] of a date given by its epoch milliseconds (years outside
    0..9999 are printed with a sign and six digits). *)
Definition toISODay (ms : Z) : string :=
  let '(y, m, d) := civil_from_days (ms / 86400000)%Z in
  let year :=
    if ((0 <=? y) && (y <=? 9999))%Z then decimal 4 y
    else (if (y <? 0)%Z then "-" else "+") +:+ decimal 6 (Z.abs y) in
  year +:+ "-" +:+ decimal 2 m +:+ "-" +:+ decimal 2 d.


(** [String.prototype.toLowerCase] on the letters A to Z. *)
Definition lower_char (c : ascii) : ascii :=
  let n := nat_of_ascii c in
  if (65 <=? n)%nat && (n <=? 90)%nat then ascii_of_nat (n + 32) else c.

Fixpoint toLowerCase (s : string) : string :=
  match s with
  | EmptyString => EmptyString
  | String c s' => String (lower_char c) (toLowerCase s')
  end.

(** The outcome of a call: the value it returns, or [Throws] when an
    exception leaves it. *)
Inductive Outcome (A : Type) : Type :=
| Returns (a : A)
| Throws.

Arguments Returns {A} a.
Arguments Throws {A}.

(** *** Plain objects used as dictionaries

    An object created with [{}] holds its own properties and inherits
    those of [Object.prototype].  The values met here are numbers and,
    once [+] has been applied to something that is not a number,
    strings. *)
Inductive Value : Type :=
| VNum (n : nat)
| VStr (s : string).

#[global] Instance Value_eq_dec : EqDecision Value.
Proof. solve_decision. Defined.

(** The methods of [Object.prototype]. *)
Definition Object_prototype_methods : list string :=
  ["toString"; "toLocaleString"; "valueOf"; "hasOwnProperty";
   "isPrototypeOf"; "propertyIsEnumerable"; "__defineGetter__";
   "__defineSetter__"; "__lookupGetter__"; "__lookupSetter__"].

(** [String(Object.prototype[key])] for the keys that every plain object
    inherits, as Node prints them; [None] for any other key.  All of these
    values are truthy. *)
Definition Object_prototype (key : string) : option string :=
  if String.eqb key "__proto__" then Some "[object Object]"
  else if String.eqb key "constructor"
  then Some "function Object() { [native code] }"
  else if includes Object_prototype_methods key
  then Some ("function " +:+ key +:+ "() { [native code] }")
  else None.

(** [(obj[key] || 0) + count], for the own properties [obj] of an object
    created with [{}]. *)
Definition or_zero_plus (obj : gmap string Value) (key : string) (count : nat)
  : Value :=
  match obj !! key with
  | Some (VNum n) => VNum (n + count)
  | Some (VStr s) =>
      if String.eqb s "" then VNum count
      else VStr (s +:+ decimal 0 (Z.of_nat count))
  | None =>
      match Object_prototype key with
      | Some text => VStr (text +:+ decimal 0 (Z.of_nat count))
      | None => VNum count
      end
  end.

(** [obj[key] = v] for a number or a string [v]: an own property is
    written, except under [__proto__], whose setter ignores a value that
    is not an object. *)
Definition set_property (obj : gmap string Value) (key : string) (v : Value)
  : gmap string Value :=
  if String.eqb key "__proto__" then obj else <[key := v]> obj.

End Js.

(** ** MongoDB update primitives over a collection *)

Module Mongo.

(** [Model.updateMany(filter, update)]: every matching document is
    updated. *)
Definition updateMany {A : Type} (filter : A → bool) (update : A → A)
    (coll : list A) : list A :=
  map (λ d, if filter d then update d else d) coll.

(** Number of documents matched by a filter. *)
Definition countDocuments {A : Type} (filter : A → bool) (coll : list A) : nat :=
  length (List.filter filter coll).

(** [Model.updateOne(filter, update)]: the first matching document is
    updated; the second component is the number of documents updated
    (0 or 1). *)
Fixpoint updateOne {A : Type} (filter : A → bool) (update : A → A)
    (coll : list A) : list A * nat :=
  match coll with
  | [] => ([], 0)
  | d :: rest =>
      if filter d then (update d :: rest, 1)
      else let '(rest', n) := updateOne filter update rest in (d :: rest', n)
  end.

(** [result.modifiedCount] of an [updateOne]: 1 when a document matched
    and the update changed it, 0 otherwise. *)
Definition modifiedCount {A : Type} `{EqDecision A} (filter : A → bool)
    (update : A → A) (coll : list A) : nat :=
  match List.find filter coll with
  | Some d => if decide (update d = d) then 0 else 1
  | None => 0
  end.

(** A [$group] stage with [count: { $sum: 1 }]: one item per distinct key,
    with the number of documents that carry it. *)
Fixpoint group_inc {K : Type} `{EqDecision K} (key : K)
    (groups : list (K * nat)) : list (K * nat) :=
  match groups with
  | [] => [(key, 1)]
  | (k, n) :: rest =>
      if decide (k = key) then (k, S n) :: rest
      else (k, n) :: group_inc key rest
  end.

Definition group_counts {K : Type} `{EqDecision K} (keys : list K)
  : list (K * nat) :=
  fold_left (λ groups key, group_inc key groups) keys [].

(** The count stored for a key in the result of a [$group] stage. *)
Fixpoint count_of {K : Type} `{EqDecision K} (key : K)
    (groups : list (K * nat)) : option nat :=
  match groups with
  | [] => None
  | (k, n) :: rest => if decide (k = key) then Some n else count_of key rest
  end.

(** The number of occurrences of a key in a list of keys. *)
Definition occurrences {K : Type} `{EqDecision K} (key : K) (keys : list K)
  : nat :=
  length (List.filter (λ k, bool_decide (k = key)) keys).

(** [stats.reduce((sum, stat) => sum + stat.count, 0)] *)
Definition sum_of {K : Type} (groups : list (K * nat)) : nat :=
  fold_left (λ sum stat, sum + snd stat) groups 0.

End Mongo.

(** ** Task model and task service *)

Module Tasks.

Inductive TaskStatus : Type :=
| backlog | todo | in_progress | in_review | done | archived.

Inductive TaskPriority : Type :=
| low | medium | high | urgent.

Inductive ActivityType : Type :=
| created | updated | status_changed | assigned | unassigned
| priority_changed | due_date_changed | comment_added
| attachment_added | attachment_removed | tag_added | tag_removed.

#[global] Instance TaskStatus_eq_dec : EqDecision TaskStatus.
Proof. solve_decision. Defined.
#[global] Instance TaskPriority_eq_dec : EqDecision TaskPriority.
Proof. solve_decision. Defined.
#[global] Instance ActivityType_eq_dec : EqDecision ActivityType.
Proof. solve_decision. Defined.

(** The string values of the two enumerations. *)
Definition status_string (s : TaskStatus) : string :=
  match s with
  | backlog => "backlog" | todo => "todo" | in_progress => "in_progress"
  | in_review => "in_review" | done => "done" | archived => "archived"
  end.

Definition priority_string (p : TaskPriority) : string :=
  match p with
  | low => "low" | medium => "medium" | high => "high" | urgent => "urgent"
  end.

(** The [metadata] objects written by the task service. In
    [MDueDate from to], [from] is [undefined] or a day and [to] is [null] or
    a day. *)
Inductive Metadata : Type :=
| MStatus (from to : TaskStatus)
| MPriority (from to : TaskPriority)
| MDueDate (from to : option string)
| MAdded (added : list string)
| MRemoved (removed : list string)
| MFields (fields : list string).

#[global] Instance Metadata_eq_dec : EqDecision Metadata.
Proof. solve_decision. Defined.

(** [IActivity] *)
Record Activity : Type := mkActivity {
  act_type : ActivityType;
  act_actor : string;
  act_description : string;
  act_metadata : option Metadata;
  act_timestamp : Z
}.

(** [ITask], restricted to the fields the task service reads or writes.
    Hours and order are carried as integers: they are stored and never
    computed on. *)
Record Task : Type := mkTask {
  _id : string;
  title : string;
  description : option string;
  status : TaskStatus;
  priority : TaskPriority;
  assignees : list string;
  createdBy : string;
  dueDate : option Z;
  startDate : option Z;
  estimatedHours : option Z;
  actualHours : Z;
  tags : list string;
  activities : list Activity;
  parentTask : option string;
  subtasks : list string;
  completedAt : option Z;
  order : Z
}.


(** [UpdateTaskData]: [Partial<CreateTaskData>] plus [actualHours] and
    [order].  For the two dates, [None] is an absent key, [Some None] an
    explicit [null] and [Some (Some d)] a date.  [u_keys] lists the keys of
    the object in the order in which the caller's object holds them, which
    is the order of [Object.keys]. *)
Record UpdateTaskData : Type := mkUpdateTaskData {
  u_title : option string;
  u_description : option string;
  u_status : option TaskStatus;
  u_priority : option TaskPriority;
  u_assignees : option (list string);
  u_dueDate : option (option Z);
  u_startDate : option (option Z);
  u_estimatedHours : option Z;
  u_tags : option (list string);
  u_parentTask : option string;
  u_actualHours : option Z;
  u_order : option Z;
  u_keys : list string
}.

(** The empty proposal [{}]. *)
Definition no_updates : UpdateTaskData :=
  mkUpdateTaskData None None None None None None None None None None None None
    [].

(** A key of the proposal object, when its value is present. *)
Definition key_of {A : Type} (value : option A) (key : string) : list string :=
  match value with
  | Some _ => [key]
  | None => []
  end.

(** [Object.keys(updates)] *)
Definition Object_keys (updates : UpdateTaskData) : list string :=
  u_keys updates.

(** The keys of the interface whose value is present, in the order of the
    interface.  In an object that a request body was parsed into,
    [Object.keys] lists these keys, in some order. *)
Definition present_keys (updates : UpdateTaskData) : list string :=
  key_of (u_title updates) "title"
  ++ key_of (u_description updates) "description"
  ++ key_of (u_status updates) "status"
  ++ key_of (u_priority updates) "priority"
  ++ key_of (u_assignees updates) "assignees"
  ++ key_of (u_dueDate updates) "dueDate"
  ++ key_of (u_startDate updates) "startDate"
  ++ key_of (u_estimatedHours updates) "estimatedHours"
  ++ key_of (u_tags updates) "tags"
  ++ key_of (u_parentTask updates) "parentTask"
  ++ key_of (u_actualHours updates) "actualHours"
  ++ key_of (u_order updates) "order".

(** *** The [pre('save')] hook of the task schema *)


(** [Task.findById(taskId)] *)
Definition findById (taskId : string) (tasks : list Task) : option Task :=
  List.find (λ t, String.eqb (_id t) taskId) tasks.

(** *** [TaskService.createTask] *)


Section Cast.

(** [new Types.ObjectId(s)], as the string form of the identity it
    builds; [None] when it throws.  Stored identities are in that form.
    The identities that the routes take from the authenticated session
    ([createdById], [actorId], [userId]) and the single identity by which
    a function looks a task up ([taskId]) are carried in their stored
    form; the identities of a request body ([assignees], [parentTask],
    [taskIds], [orderedTaskIds]) are cast here as in the source. *)
Variable ObjectId : string → option string.




(** *** [TaskService.updateTask] *)

(** Status rule: [updates.status && updates.status !== task.status]. *)
Definition status_activity (task : Task) (updates : UpdateTaskData)
    (actorId : string) (now : Z) : list Activity :=
  match u_status updates with
  | Some s =>
      if bool_decide (s ≠ status task)
      then [mkActivity status_changed actorId
              ("Status changed from " +:+ Js.dquote +:+ status_string (status task)
               +:+ Js.dquote +:+ " to " +:+ Js.dquote +:+ status_string s
               +:+ Js.dquote)
              (Some (MStatus (status task) s)) now]
      else []
  | None => []
  end.

(** Priority rule: [updates.priority && updates.priority !== task.priority]. *)
Definition priority_activity (task : Task) (updates : UpdateTaskData)
    (actorId : string) (now : Z) : list Activity :=
  match u_priority updates with
  | Some p =>
      if bool_decide (p ≠ priority task)
      then [mkActivity priority_changed actorId
              ("Priority changed from " +:+ Js.dquote
               +:+ priority_string (priority task) +:+ Js.dquote +:+ " to "
               +:+ Js.dquote +:+ priority_string p +:+ Js.dquote)
              (Some (MPriority (priority task) p)) now]
      else []
  | None => []
  end.

(** [oldDate !== newDate], where [oldDate] is [undefined] or a day string
    and [newDate] is [null] or a day string: the two are equal only when
    both are the same string. *)
Definition day_differs (oldDate newDate : option string) : bool :=
  match oldDate, newDate with
  | Some a, Some b => negb (String.eqb a b)
  | _, _ => true
  end.

(** Due date rule: entered when [updates.dueDate !== undefined]. *)
Definition due_date_activity (task : Task) (updates : UpdateTaskData)
    (actorId : string) (now : Z) : list Activity :=
  match u_dueDate updates with
  | Some proposed =>
      let oldDate := Js.toISODay <$> dueDate task in
      let newDate := Js.toISODay <$> proposed in
      if day_differs oldDate newDate
      then [mkActivity due_date_changed actorId
              (match newDate with
               | Some day => "Due date changed to " +:+ day
               | None => "Due date removed"
               end)
              (Some (MDueDate oldDate newDate)) now]
      else []
  | None => []
  end.

(** Assignee rule: entered when [updates.assignees] is present (an array is
    always truthy).  [JSON.stringify] of two arrays of strings differ exactly
    when the arrays differ. *)
Definition assignee_activities (task : Task) (updates : UpdateTaskData)
    (actorId : string) (now : Z) : list Activity :=
  match u_assignees updates with
  | Some proposed =>
      let oldAssignees := Js.sort (assignees task) in
      let newAssignees := Js.sort proposed in
      if bool_decide (oldAssignees ≠ newAssignees) then
        let added :=
          List.filter (λ a, negb (Js.includes oldAssignees a)) newAssignees in
        let removed :=
          List.filter (λ a, negb (Js.includes newAssignees a)) oldAssignees in
        (if Nat.ltb 0 (length added)
         then [mkActivity assigned actorId "Assignees added"
                 (Some (MAdded added)) now]
         else [])
        ++ (if Nat.ltb 0 (length removed)
            then [mkActivity unassigned actorId "Assignees removed"
                    (Some (MRemoved removed)) now]
            else [])
      else []
  | None => []
  end.

(** The [activities] array built by [updateTask]: the four rules in order,
    then the general [updated] record when none of them fired and the
    proposal has at least one key. *)
Definition updateTask_activities (task : Task) (updates : UpdateTaskData)
    (actorId : string) (now : Z) : list Activity :=
  let activities :=
    status_activity task updates actorId now
    ++ priority_activity task updates actorId now
    ++ due_date_activity task updates actorId now
    ++ assignee_activities task updates actorId now in
  if Nat.eqb (length activities) 0 && Nat.ltb 0 (length (Object_keys updates))
  then activities
       ++ [mkActivity updated actorId "Task updated"
             (Some (MFields (Object_keys updates))) now]
  else activities.

(** [updates.assignees.map(id => new Types.ObjectId(id))], taken after
    [updates.assignees.sort()] has sorted the proposed array in place; the
    outer [None] is a throw. *)
Definition cast_assignees (updates : UpdateTaskData)
  : option (option (list string)) :=
  match u_assignees updates with
  | Some proposed => Some <$> mapM ObjectId (Js.sort proposed)
  | None => Some None
  end.

(** The cast of a proposed [parentTask] to the type of its path when the
    update is sent; the outer [None] is the [CastError]. *)
Definition cast_parentTask (updates : UpdateTaskData)
  : option (option string) :=
  match u_parentTask updates with
  | Some p => Some <$> ObjectId p
  | None => Some None
  end.

(** The effect of [findByIdAndUpdate(taskId, updateData)] on the matched
    document: every key of [updateData] is set and the new activities are
    pushed; [assignees'] and [parent'] are the cast identities.  No other
    field is written: in particular [completedAt] is not a key of
    [updateData], and a query update does not go through [save()]. *)
Definition apply_updateData (updates : UpdateTaskData)
    (assignees' : option (list string)) (parent' : option string)
    (new_activities : list Activity) (t : Task) : Task :=
  mkTask (_id t)
    (default (title t) (u_title updates))
    (match u_description updates with Some d => Some d | None => description t end)
    (default (status t) (u_status updates))
    (default (priority t) (u_priority updates))
    (default (assignees t) assignees')
    (createdBy t)
    (default (dueDate t) (u_dueDate updates))
    (default (startDate t) (u_startDate updates))
    (match u_estimatedHours updates with Some h => Some h | None => estimatedHours t end)
    (default (actualHours t) (u_actualHours updates))
    (default (tags t) (u_tags updates))
    (activities t ++ new_activities)
    (match parent' with Some p => Some p | None => parentTask t end)
    (subtasks t)
    (completedAt t)
    (default (order t) (u_order updates)).

(** [updateTask(taskId, updates, actorId)]: [Returns None] when the task
    does not exist, [Throws] when a proposed identity is no [ObjectId]
    (nothing is written then), otherwise the updated document; the second
    component is the collection afterwards.  The validators of the schema
    are taken to pass. *)
Definition updateTask (taskId : string) (updates : UpdateTaskData)
    (actorId : string) (now : Z) (tasks : list Task)
  : Js.Outcome (option Task) * list Task :=
  match findById taskId tasks with
  | None => (Js.Returns None, tasks)
  | Some task =>
      let new_activities := updateTask_activities task updates actorId now in
      match cast_assignees updates, cast_parentTask updates with
      | Some assignees', Some parent' =>
          let tasks' :=
            fst (Mongo.updateOne (λ t, String.eqb (_id t) taskId)
                   (apply_updateData updates assignees' parent' new_activities)
                   tasks) in
          (Js.Returns (findById taskId tasks'), tasks')
      | _, _ => (Js.Throws, tasks)
      end
  end.

(** *** [TaskService.bulkUpdateStatus] *)

(** [{ $set: { status }, $push: { activities: {...} } }] *)
Definition bulk_status_update (newStatus : TaskStatus) (actorId : string)
    (now : Z) (t : Task) : Task :=
  mkTask (_id t) (title t) (description t) newStatus (priority t)
    (assignees t) (createdBy t) (dueDate t) (startDate t)
    (estimatedHours t) (actualHours t) (tags t)
    (activities t
     ++ [mkActivity status_changed actorId
           ("Status changed to " +:+ Js.dquote +:+ status_string newStatus
            +:+ Js.dquote)
           None now])
    (parentTask t) (subtasks t) (completedAt t) (order t).

(** [bulkUpdateStatus(taskIds, status, actorId)]: the listed identities
    are cast, then an [updateMany] runs over the tasks whose [_id] is among
    them; returns [result.modifiedCount], the number of tasks matched,
    since the pushed activity changes each of them. *)
Definition bulkUpdateStatus (taskIds : list string) (newStatus : TaskStatus)
    (actorId : string) (now : Z) (tasks : list Task)
  : Js.Outcome nat * list Task :=
  match mapM ObjectId taskIds with
  | Some ids =>
      (Js.Returns (Mongo.countDocuments (λ t, Js.includes ids (_id t)) tasks),
       Mongo.updateMany (λ t, Js.includes ids (_id t))
         (bulk_status_update newStatus actorId now) tasks)
  | None => (Js.Throws, tasks)
  end.

(** The invariant of the data model: [completedAt] is set exactly when the
    status is [done]. *)
Definition completedAt_invariant (t : Task) : Prop :=
  is_Some (completedAt t) ↔ status t = done.

(** The activities of a given type in a list. *)
Definition activities_of_type (ty : ActivityType) (l : list Activity)
  : list Activity :=
  List.filter (λ a, bool_decide (act_type a = ty)) l.

(** The proposal [{ status: s }], with no other key. *)
Definition status_only (s : TaskStatus) : UpdateTaskData :=
  mkUpdateTaskData None None (Some s) None None None None None None None None
    None ["status"].

(** The proposal [{ assignees: ids }], with no other key. *)
Definition assignees_only (ids : list string) : UpdateTaskData :=
  mkUpdateTaskData None None None None (Some ids) None None None None None None
    None ["assignees"].




(** The proposal [{ dueDate: d }] ([d = None] for an explicit [null]). *)
Definition dueDate_only (d : option Z) : UpdateTaskData :=
  mkUpdateTaskData None None None None None (Some d) None None None None None
    None ["dueDate"].

(** *** [TaskService.reorderTasks] *)

(** [{ $set: { order: index } }] *)
Definition set_order (index : Z) (t : Task) : Task :=
  mkTask (_id t) (title t) (description t) (status t) (priority t)
    (assignees t) (createdBy t) (dueDate t) (startDate t)
    (estimatedHours t) (actualHours t) (tags t) (activities t)
    (parentTask t) (subtasks t) (completedAt t) index.

(** The [bulkWrite] of one [updateOne] per listed identity, in order;
    [ids] are the cast identities and [index] is the position of the first
    of them. *)
Fixpoint reorder_from (index : nat) (ids : list string) (tasks : list Task)
  : list Task :=
  match ids with
  | [] => tasks
  | id :: ids' =>
      reorder_from (S index) ids'
        (fst (Mongo.updateOne (λ t, String.eqb (_id t) id)
                (set_order (Z.of_nat index)) tasks))
  end.

(** [reorderTasks(orderedTaskIds)]: the operations are built with the
    cast of each listed identity, which throws before anything is
    written, and then run in order.  The route passes at least one
    identity. *)
Definition reorderTasks (orderedTaskIds : list string) (tasks : list Task)
  : Js.Outcome unit * list Task :=
  match mapM ObjectId orderedTaskIds with
  | Some ids => (Js.Returns tt, reorder_from 0 ids tasks)
  | None => (Js.Throws, tasks)
  end.

End Cast.

(** *** [TaskService.getCalendarTasks] *)

(** [{ $gte: startDate, $lte: endDate }] on an optional date: a missing
    date does not match. *)
Definition in_range (rangeStart rangeEnd : Z) (d : option Z) : bool :=
  match d with
  | Some x => (rangeStart <=? x)%Z && (x <=? rangeEnd)%Z
  | None => false
  end.

(** The restriction of non-managers to the tasks assigned to them:
    [!isManager && userId]. *)
Definition visible_to (userId : option string) (isManager : bool) (t : Task)
  : bool :=
  if negb isManager && Js.truthy userId
  then Js.includes (assignees t) (default "" userId)
  else true.

(** The query object of [getCalendarTasks]; [rangeStart] and [rangeEnd]
    are its arguments [startDate] and [endDate]. *)
Definition calendar_query (rangeStart rangeEnd : Z) (userId : option string)
    (isManager : bool) (t : Task) : bool :=
  negb (bool_decide (status t = archived))
  && (in_range rangeStart rangeEnd (dueDate t)
      || in_range rangeStart rangeEnd (startDate t)
      || (match startDate t, dueDate t with
          | Some s, Some d => (s <=? rangeStart)%Z && (rangeEnd <=? d)%Z
          | _, _ => false
          end))
  && visible_to userId isManager t.

(** [.sort({ dueDate: 1 })]: ascending, tasks without a due date first. *)
Definition dueDate_before (a b : option Z) : bool :=
  match a, b with
  | None, _ => true
  | Some _, None => false
  | Some x, Some y => (x <=? y)%Z
  end.

Fixpoint insert_by_dueDate (t : Task) (l : list Task) : list Task :=
  match l with
  | [] => [t]
  | t' :: l' =>
      if dueDate_before (dueDate t) (dueDate t') then t :: l
      else t' :: insert_by_dueDate t l'
  end.

Fixpoint sort_by_dueDate (l : list Task) : list Task :=
  match l with
  | [] => []
  | t :: l' => insert_by_dueDate t (sort_by_dueDate l')
  end.

Definition getCalendarTasks (rangeStart rangeEnd : Z) (userId : option string)
    (isManager : bool) (tasks : list Task) : list Task :=
  sort_by_dueDate
    (List.filter (calendar_query rangeStart rangeEnd userId isManager) tasks).

(** *** [TaskService.getTaskStats] *)

Record TaskStats : Type := mkTaskStats {
  stats_total : nat;
  byStatus : list (TaskStatus * nat);
  byPriority : list (TaskPriority * nat);
  overdue : nat;
  completedThisWeek : nat;
  completedThisMonth : nat
}.

(** [matchStage]: not archived, and assigned to the user for a
    non-manager. *)
Definition matchStage (userId : option string) (isManager : bool) (t : Task)
  : bool :=
  negb (bool_decide (status t = archived)) && visible_to userId isManager t.

(** [{ ...matchStage, dueDate: { $lt: now }, status: { $nin: ['done',
    'archived'] } }]: the [status] key of [matchStage] is replaced. *)
Definition overdue_query (userId : option string) (isManager : bool) (now : Z)
    (t : Task) : bool :=
  visible_to userId isManager t
  && match dueDate t with Some d => (d <? now)%Z | None => false end
  && negb (bool_decide (status t = done))
  && negb (bool_decide (status t = archived)).

(** [{ ...matchStage, status: 'done', completedAt: { $gte: since } }] *)
Definition completed_since_query (userId : option string) (isManager : bool)
    (since : Z) (t : Task) : bool :=
  visible_to userId isManager t
  && bool_decide (status t = done)
  && match completedAt t with Some c => (since <=? c)%Z | None => false end.

Definition getTaskStats (userId : option string) (isManager : bool) (now : Z)
    (tasks : list Task) : TaskStats :=
  let weekAgo := (now - 7 * 24 * 60 * 60 * 1000)%Z in
  let monthAgo := (now - 30 * 24 * 60 * 60 * 1000)%Z in
  let matched := List.filter (matchStage userId isManager) tasks in
  let statusStats := Mongo.group_counts (map status matched) in
  let priorityStats := Mongo.group_counts (map priority matched) in
  mkTaskStats
    (Mongo.sum_of statusStats)
    statusStats priorityStats
    (Mongo.countDocuments (overdue_query userId isManager now) tasks)
    (Mongo.countDocuments (completed_since_query userId isManager weekAgo) tasks)
    (Mongo.countDocuments (completed_since_query userId isManager monthAgo) tasks).

(** A list of tasks in the order of [.sort({ dueDate: 1 })]. *)
Fixpoint by_dueDate (l : list Task) : Prop :=
  match l with
  | [] => True
  | t :: l' =>
      List.Forall (λ t', dueDate_before (dueDate t) (dueDate t') = true) l'
      ∧ by_dueDate l'
  end.

End Tasks.

(** ** Message model and message service *)

Module Messages.

(** An entry of [readBy]. *)
Record ReadReceipt : Type := mkReadReceipt {
  user : string;
  readAt : Z
}.

(** An entry of [reactions]. *)
Record Reaction : Type := mkReaction {
  emoji : string;
  users : list string
}.

(** [IMessage] (attachments are never read or written by the service and
    are left out). *)
Record Message : Type := mkMessage {
  _id : string;
  content : string;
  sender : string;
  recipient : option string;
  channel : option string;
  taskRef : option string;
  mentions : list string;
  readBy : list ReadReceipt;
  isEdited : bool;
  editedAt : option Z;
  isDeleted : bool;
  deletedAt : option Z;
  replyTo : option string;
  reactions : list Reaction;
  createdAt : Z
}.

#[global] Instance ReadReceipt_eq_dec : EqDecision ReadReceipt.
Proof. solve_decision. Defined.
#[global] Instance Reaction_eq_dec : EqDecision Reaction.
Proof. solve_decision. Defined.
#[global] Instance Message_eq_dec : EqDecision Message.
Proof. solve_decision. Defined.

(** Field updates of a message document. *)
Definition with_readBy (r : list ReadReceipt) (m : Message) : Message :=
  mkMessage (_id m) (content m) (sender m) (recipient m) (channel m)
    (taskRef m) (mentions m) r (isEdited m) (editedAt m) (isDeleted m)
    (deletedAt m) (replyTo m) (reactions m) (createdAt m).

Definition with_reactions (r : list Reaction) (m : Message) : Message :=
  mkMessage (_id m) (content m) (sender m) (recipient m) (channel m)
    (taskRef m) (mentions m) (readBy m) (isEdited m) (editedAt m)
    (isDeleted m) (deletedAt m) (replyTo m) r (createdAt m).

Definition with_isDeleted (b : bool) (m : Message) : Message :=
  mkMessage (_id m) (content m) (sender m) (recipient m) (channel m)
    (taskRef m) (mentions m) (readBy m) (isEdited m) (editedAt m) b
    (deletedAt m) (replyTo m) (reactions m) (createdAt m).

(** [Message.findById(messageId)] *)
Definition findById (messageId : string) (coll : list Message)
  : option Message :=
  List.find (λ m, String.eqb (_id m) messageId) coll.

(** The filter ['readBy.user': userId]: some entry of [readBy] is by
    [userId]. (With [$ne] the filter is the negation: no entry is.) *)
Definition readBy_user (userId : string) (m : Message) : bool :=
  existsb (λ r, String.eqb (user r) userId) (readBy m).

(** [$push: { readBy: { user, readAt: new Date() } }] *)
Definition push_readBy (userId : string) (now : Z) (m : Message) : Message :=
  with_readBy (readBy m ++ [mkReadReceipt userId now]) m.

(** *** [MessageService.markAsRead] *)

Section Cast.

(** [new Types.ObjectId(s)], as the string form of the identity it
    builds; [None] when it throws.  Stored identities are in that form.
    The listed [messageIds] of a request body are cast here as in the
    source; [userId] is the identity of the session. *)
Variable ObjectId : string → option string.

(** [markAsRead(messageIds, userId)]: the listed identities are cast,
    which throws before anything is written, then an [updateMany] runs
    over the listed messages that have no receipt of the user.  The
    second component is the collection afterwards. *)
Definition markAsRead (messageIds : list string) (userId : string) (now : Z)
    (coll : list Message) : Js.Outcome unit * list Message :=
  match mapM ObjectId messageIds with
  | Some ids =>
      (Js.Returns tt,
       Mongo.updateMany
         (λ m, Js.includes ids (_id m) && negb (readBy_user userId m))
         (push_readBy userId now) coll)
  | None => (Js.Throws, coll)
  end.

End Cast.

(** *** [MessageService.markConversationAsRead] *)

Record ConversationOptions : Type := mkConversationOptions {
  opt_channel : option string;
  opt_recipientId : option string
}.

(** The query object: ['readBy.user': { $ne: user }], to which
    [channel] is added when [options.channel] is truthy and the one-branch
    [$or] when [options.recipientId] is truthy. *)
Definition conversation_query (userId : string) (options : ConversationOptions)
    (m : Message) : bool :=
  negb (readBy_user userId m)
  && (if Js.truthy (opt_channel options)
      then bool_decide (channel m = opt_channel options) else true)
  && (if Js.truthy (opt_recipientId options)
      then bool_decide (Some (sender m) = opt_recipientId options)
           && bool_decide (recipient m = Some userId)
      else true).

Definition markConversationAsRead (userId : string)
    (options : ConversationOptions) (now : Z) (coll : list Message)
  : list Message :=
  Mongo.updateMany (conversation_query userId options)
    (push_readBy userId now) coll.

(** *** [MessageService.deleteMessage] and [editMessage] *)

(** [{ $set: { isDeleted: true, deletedAt: new Date() } }] *)
Definition mark_deleted (now : Z) (m : Message) : Message :=
  mkMessage (_id m) (content m) (sender m) (recipient m) (channel m)
    (taskRef m) (mentions m) (readBy m) (isEdited m) (editedAt m)
    true (Some now) (replyTo m) (reactions m) (createdAt m).

(** Soft delete: only the sender's own message matches.  Returns
    [result.modifiedCount > 0], which is false also when the message
    matched but already carried this flag and this date (the document is
    taken without its [updatedAt] stamp). *)
Definition deleteMessage (messageId userId : string) (now : Z)
    (coll : list Message) : bool * list Message :=
  let own := λ m, String.eqb (_id m) messageId && String.eqb (sender m) userId in
  (Nat.ltb 0 (Mongo.modifiedCount own (mark_deleted now) coll),
   fst (Mongo.updateOne own (mark_deleted now) coll)).

(** Schema validation of [content] at [save()]: required, at most 5000
    characters. *)
Definition content_valid (c : string) : bool :=
  negb (String.eqb c "") && Nat.leb (String.length c) 5000.

(** [editMessage]: [None] stands for the thrown error (message not found,
    not the sender's, soft-deleted, or rejected by validation). *)
Definition editMessage (messageId newContent userId : string) (now : Z)
    (coll : list Message) : option Message * list Message :=
  let own := λ m, String.eqb (_id m) messageId && String.eqb (sender m) userId
                  && negb (isDeleted m) in
  match List.find own coll with
  | None => (None, coll)
  | Some _ =>
      if content_valid newContent then
        let coll' :=
          fst (Mongo.updateOne own
                 (λ m, mkMessage (_id m) newContent (sender m) (recipient m)
                         (channel m) (taskRef m) (mentions m) (readBy m) true
                         (Some now) (isDeleted m) (deletedAt m) (replyTo m)
                         (reactions m) (createdAt m))
                 coll) in
        (List.find (λ m, String.eqb (_id m) messageId) coll', coll')
      else (None, coll)
  end.

(** *** Reactions: [addReaction] and [removeReaction] *)

(** The filter ['reactions.emoji': emoji]: some entry is for [emoji]. *)
Definition reactions_emoji (e : string) (m : Message) : bool :=
  existsb (λ r, String.eqb (emoji r) e) (reactions m).

(** The filter ['reactions.users': userId]: the user occurs in the [users]
    array of some entry, whatever its emoji.  With [$ne] the filter is the
    negation: the user occurs in no entry of the message. *)
Definition reactions_users (userId : string) (m : Message) : bool :=
  existsb (λ r, Js.includes (users r) userId) (reactions m).

(** An update through the positional operator [reactions.$]: it applies
    to the first entry for [emoji]. *)
Fixpoint update_first_reaction (e : string) (f : Reaction → Reaction)
    (rs : list Reaction) : list Reaction :=
  match rs with
  | [] => []
  | r :: rs' =>
      if String.eqb (emoji r) e then f r :: rs'
      else r :: update_first_reaction e f rs'
  end.

(** [$push: { 'reactions.$.users': userId }] *)
Definition push_reaction_user (e userId : string) (m : Message) : Message :=
  with_reactions
    (update_first_reaction e
       (λ r, mkReaction (emoji r) (users r ++ [userId])) (reactions m)) m.

(** [$push: { reactions: { emoji, users: [userId] } }] *)
Definition push_reaction (e userId : string) (m : Message) : Message :=
  with_reactions (reactions m ++ [mkReaction e [userId]]) m.

(** [addReaction(messageId, emoji, userId)]: the first [updateOne] targets
    a message that has an entry for the emoji and in which the user occurs
    in no entry; when it updates nothing, the second targets a message
    with no entry for the emoji.  Returns the message as stored
    afterwards. *)
Definition addReaction (messageId e userId : string) (coll : list Message)
  : option Message * list Message :=
  let '(coll1, modifiedCount) :=
    Mongo.updateOne
      (λ m, String.eqb (_id m) messageId && reactions_emoji e m
            && negb (reactions_users userId m))
      (push_reaction_user e userId) coll in
  let coll2 :=
    if Nat.eqb modifiedCount 0
    then fst (Mongo.updateOne
                (λ m, String.eqb (_id m) messageId && negb (reactions_emoji e m))
                (push_reaction e userId) coll1)
    else coll1 in
  (findById messageId coll2, coll2).

(** [$pull: { 'reactions.$.users': userId }] *)
Definition pull_reaction_user (e userId : string) (m : Message) : Message :=
  with_reactions
    (update_first_reaction e
       (λ r, mkReaction (emoji r)
               (List.filter (λ u, negb (String.eqb u userId)) (users r)))
       (reactions m)) m.

(** [$pull: { reactions: { users: { $size: 0 } } }] *)
Definition pull_empty_reactions (m : Message) : Message :=
  with_reactions
    (List.filter (λ r, negb (Nat.eqb (length (users r)) 0)) (reactions m)) m.

Definition removeReaction (messageId e userId : string) (coll : list Message)
  : option Message * list Message :=
  let coll1 :=
    fst (Mongo.updateOne
           (λ m, String.eqb (_id m) messageId && reactions_emoji e m)
           (pull_reaction_user e userId) coll) in
  let coll2 :=
    fst (Mongo.updateOne (λ m, String.eqb (_id m) messageId)
           pull_empty_reactions coll1) in
  (findById messageId coll2, coll2).

(** Does the message carry an entry for [emoji] that lists [userId]? *)
Definition has_reacted (e userId : string) (m : Message) : bool :=
  existsb (λ r, String.eqb (emoji r) e && Js.includes (users r) userId)
    (reactions m).

(** *** [MessageService.getMessages] *)

Record MessageFilters : Type := mkMessageFilters {
  f_channel : option string;
  f_recipient : option string;
  f_sender : option string;
  f_taskRef : option string;
  f_since : option Z
}.

Record PaginationOptions : Type := mkPaginationOptions {
  o_limit : option nat;
  o_before : option Z
}.

(** The query object built by [getMessages].  It always carries
    [isDeleted: { $ne: true }].  In the two-party [$or], a missing
    [filters.sender] makes [new Types.ObjectId(undefined)] a fresh identity,
    which no stored message carries. *)
Definition getMessages_query (filters : MessageFilters) (before : option Z)
    (m : Message) : bool :=
  negb (isDeleted m)
  && (if Js.truthy (f_channel filters)
      then bool_decide (channel m = f_channel filters) else true)
  && (match f_recipient filters with
      | Some r =>
          if Js.truthy (Some r) then
            (bool_decide (Some (sender m) = f_sender filters)
             && bool_decide (recipient m = Some r))
            || (String.eqb (sender m) r
                && bool_decide (is_Some (f_sender filters))
                && bool_decide (recipient m = f_sender filters))
          else true
      | None => true
      end)
  && (if Js.truthy (f_taskRef filters)
      then bool_decide (taskRef m = f_taskRef filters) else true)
  && (match f_since filters with
      | Some since => (since <? createdAt m)%Z
      | None => true
      end)
  && (match before with
      | Some b => (createdAt m <? b)%Z
      | None => true
      end).

(** [.sort({ createdAt: -1 })]: newest first. *)
Fixpoint insert_by_createdAt (m : Message) (l : list Message) : list Message :=
  match l with
  | [] => [m]
  | m' :: l' =>
      if (createdAt m' <? createdAt m)%Z then m :: l
      else m' :: insert_by_createdAt m l'
  end.

Fixpoint sort_newest_first (l : list Message) : list Message :=
  match l with
  | [] => []
  | m :: l' => insert_by_createdAt m (sort_newest_first l')
  end.

(** [getMessages(filters, options)]: one more document than the limit is
    fetched to learn [hasMore]; the page is returned oldest first. *)
Definition getMessages (filters : MessageFilters) (options : PaginationOptions)
    (coll : list Message) : list Message * bool :=
  let limit := default 50 (o_limit options) in
  let messages :=
    firstn (limit + 1)
      (sort_newest_first
         (List.filter (getMessages_query filters (o_before options)) coll)) in
  let hasMore := Nat.ltb limit (length messages) in
  (rev (if hasMore then removelast messages else messages), hasMore).

(** *** [MessageService.getUnreadCount] *)

(** The [$match] stage. *)
Definition unread_match (userId : string) (m : Message) : bool :=
  negb (isDeleted m)
  && negb (String.eqb (sender m) userId)
  && (bool_decide (recipient m = Some userId)
      || bool_decide (is_Some (channel m)))
  && negb (readBy_user userId m).

(** The [$group] stage: one item per distinct [{ channel, sender }] with
    the number of documents of the group. *)
Fixpoint group_add (key : option string * string)
    (groups : list ((option string * string) * nat))
  : list ((option string * string) * nat) :=
  match groups with
  | [] => [(key, 1)]
  | (k, n) :: rest =>
      if bool_decide (k = key) then (k, S n) :: rest
      else (k, n) :: group_add key rest
  end.

Definition group_by_channel_sender (l : list Message)
  : list ((option string * string) * nat) :=
  fold_left (λ groups m, group_add (channel m, sender m) groups) l [].

(** The result of [getUnreadCount]; the two breakdowns are plain objects
    created with [{}], given by their own properties. *)
Record UnreadCount : Type := mkUnreadCount {
  total : nat;
  byChannel : gmap string Js.Value;
  byConversation : gmap string Js.Value
}.

(** The body of the [for] loop over the aggregation result.  A channel
    item writes [(byChannel[c] || 0) + count] under the channel; an item
    without a truthy channel assigns its count under the sender (a sender
    identity is always truthy). *)
Definition unread_item (acc : UnreadCount)
    (item : (option string * string) * nat) : UnreadCount :=
  let '((ch, from), count) := item in
  match ch with
  | Some c =>
      if Js.truthy (Some c)
      then mkUnreadCount (total acc + count)
             (Js.set_property (byChannel acc) c
                (Js.or_zero_plus (byChannel acc) c count))
             (byConversation acc)
      else mkUnreadCount (total acc + count) (byChannel acc)
             (Js.set_property (byConversation acc) from (Js.VNum count))
  | None =>
      mkUnreadCount (total acc + count) (byChannel acc)
        (Js.set_property (byConversation acc) from (Js.VNum count))
  end.

Definition getUnreadCount (userId : string) (coll : list Message)
  : UnreadCount :=
  fold_left unread_item
    (group_by_channel_sender (List.filter (unread_match userId) coll))
    (mkUnreadCount 0 ∅ ∅).

(** The number held by a value; a string holds none. *)
Definition count_of_value (v : Js.Value) : nat :=
  match v with
  | Js.VNum n => n
  | Js.VStr _ => 0
  end.

(** Sum of the counts stored in a breakdown object. *)
Definition sum_counts (m : gmap string Js.Value) : nat :=
  map_fold (λ _ v acc, count_of_value v + acc) 0 m.

(** *** [MessageService.sendMessage] and the [POST /api/messages] route *)

(** [SendMessageData], also the shape of the request body. *)
Record SendMessageData : Type := mkSendMessageData {
  d_content : string;
  d_recipient : option string;
  d_channel : option string;
  d_taskRef : option string;
  d_mentions : option (list string);
  d_replyTo : option string
}.

(** What the route answers: the HTTP status and, for a failure, the error
    text. *)
Record Response : Type := mkResponse {
  status_code : nat;
  error : option string
}.

(** An [io.to(room).emit(event, message)] of the route. *)
Record Emit : Type := mkEmit {
  emit_target : Presence.Target;
  emit_event : string;
  emit_message : Message
}.

(** [io.to(`user:${id}`)] and [io.to(`channel:${name}`)] *)
Definition user_room (id : string) : Presence.Target :=
  Presence.ToRoom ("user:" +:+ id).

Definition channel_room (name : string) : Presence.Target :=
  Presence.ToRoom ("channel:" +:+ name).

(** [x ? new Types.ObjectId(x) : undefined] *)
Definition optional_id (x : option string) : option string :=
  if Js.truthy x then x else None.

(** An [.optional()] validation chain: an absent field passes. *)
Definition optional_check (check : string → bool) (x : option string) : bool :=
  match x with
  | Some v => check v
  | None => true
  end.

Section SendMessage.

(** Two functions of the validation library used by the route and by the
    schema: whitespace trimming and the test for a 24-digit hexadecimal
    identity. *)
Variable trim : string → string.
Variable isMongoId : string → bool.

(** [new Message({...})]: the schema's [trim] setter applies to [channel];
    the defaults fill [readBy], [reactions] and the two flags; [createdAt]
    comes from [timestamps: true]. *)
Definition new_Message (data : SendMessageData) (senderId newId : string)
    (now : Z) : Message :=
  mkMessage newId (d_content data) senderId
    (optional_id (d_recipient data))
    (trim <$> d_channel data)
    (optional_id (d_taskRef data))
    (default [] (d_mentions data))
    [] false None false None
    (optional_id (d_replyTo data))
    [] now.

(** Schema validation at [save()]: [content] is required and at most 5000
    characters, [channel] at most 100. *)
Definition message_valid (m : Message) : bool :=
  content_valid (content m)
  && match channel m with
     | Some c => Nat.leb (String.length c) 100
     | None => true
     end.

(** [sendMessage(data, senderId)]: [None] stands for the error thrown by
    [save()] when validation fails, in which case nothing is stored. *)
Definition sendMessage (data : SendMessageData) (senderId newId : string)
    (now : Z) (coll : list Message) : option Message * list Message :=
  let message := new_Message data senderId newId now in
  if message_valid message then (Some message, coll ++ [message])
  else (None, coll).

(** The [validate([...])] middleware of the route: the sanitized body when
    every chain passes, [None] when the middleware answers 400. *)
Definition validate_send (body : SendMessageData) : option SendMessageData :=
  let content' := trim (d_content body) in
  if negb (String.eqb content' "")
     && Nat.leb (String.length content') 5000
     && optional_check isMongoId (d_recipient body)
     && optional_check isMongoId (d_taskRef body)
     && forallb isMongoId (default [] (d_mentions body))
     && optional_check isMongoId (d_replyTo body)
  then Some (mkSendMessageData content' (d_recipient body)
               (trim <$> d_channel body) (d_taskRef body) (d_mentions body)
               (d_replyTo body))
  else None.

(** The events emitted after a message is stored: to the channel room when
    [req.body.channel] is truthy, else to the two personal rooms when
    [req.body.recipient] is; then one [mention:new] per mentioned user. *)
Definition message_emits (body : SendMessageData) (userId : string)
    (message : Message) : list Emit :=
  (if Js.truthy (d_channel body)
   then [mkEmit (channel_room (default "" (d_channel body))) "message:new"
           message]
   else if Js.truthy (d_recipient body)
   then [mkEmit (user_room (default "" (d_recipient body))) "message:new"
           message;
         mkEmit (user_room userId) "message:new" message]
   else [])
  ++ map (λ mentioned, mkEmit (user_room mentioned) "mention:new" message)
       (default [] (d_mentions body)).

(** The [POST /api/messages] route: validation middleware, then the
    handler.  The only shape test of the handler is
    [!req.body.recipient && !req.body.channel]. *)
Definition post_message (body : SendMessageData) (userId newId : string)
    (now : Z) (coll : list Message) : Response * list Message * list Emit :=
  match validate_send body with
  | None => (mkResponse 400 (Some "Validation failed"), coll, [])
  | Some body' =>
      if negb (Js.truthy (d_recipient body')) && negb (Js.truthy (d_channel body'))
      then (mkResponse 400 (Some "Either recipient or channel is required"),
            coll, [])
      else
        match sendMessage body' userId newId now coll with
        | (Some message, coll') =>
            (mkResponse 201 None, coll', message_emits body' userId message)
        | (None, coll') =>
            (mkResponse 400 (Some "Failed to send message"), coll', [])
        end
  end.

End SendMessage.





Definition is_hex_digit (c : ascii) : bool :=
  let n := nat_of_ascii c in
  (Nat.leb 48 n && Nat.leb n 57) || (Nat.leb 65 n && Nat.leb n 70)
  || (Nat.leb 97 n && Nat.leb n 102).

Definition hex24 (s : string) : bool :=
  Nat.eqb (String.length s) 24 && forallb is_hex_digit (list_ascii_of_string s).

(** An instance of the cast of identities, on the strings that the routes
    accept with [isMongoId]: 24 hexadecimal digits, read without regard
    to the case of the letters.  Any other string is refused. *)
Definition hexObjectId (s : string) : option string :=
  if hex24 s then Some (Js.toLowerCase s) else None.

(** *** Reference predicates used to state properties *)

(** Setting the soft-delete flag of every message from a table of flags
    indexed by message identity. *)
Definition flag_deleted (flags : string → bool) (m : Message) : Message :=
  with_isDeleted (flags (_id m)) m.

(** The user has a read receipt on the message. *)
Definition already_read (userId : string) (m : Message) : Prop :=
  Exists (λ r, user r = userId) (readBy m).

#[global] Instance already_read_dec (userId : string) (m : Message) :
  Decision (already_read userId m).
Proof. unfold already_read. apply _. Defined.

(** Marking one message read for a user who has no receipt on it yet. *)
Definition mark_read (userId : string) (now : Z) (m : Message) : Message :=
  if decide (already_read userId m) then m
  else with_readBy (readBy m ++ [mkReadReceipt userId now]) m.

(** A message counted as unread for a user by [getUnreadCount]: not
    soft-deleted, sent by someone else, addressed to the user directly or
    posted in any channel, and without a read receipt of the user. *)
Definition counts_as_unread (userId : string) (m : Message) : Prop :=
  isDeleted m = false
  ∧ sender m ≠ userId
  ∧ (recipient m = Some userId ∨ channel m ≠ None)
  ∧ ¬ already_read userId m.

#[global] Instance counts_as_unread_dec (userId : string) (m : Message) :
  Decision (counts_as_unread userId m).
Proof. unfold counts_as_unread. apply _. Defined.

(** The same with channel messages restricted to the channels the user
    participates in, for a given participation table. *)
Definition unread_in_joined_channels (participates : string → string → bool)
    (userId : string) (m : Message) : Prop :=
  isDeleted m = false
  ∧ sender m ≠ userId
  ∧ (recipient m = Some userId
     ∨ ∃ c, channel m = Some c ∧ participates userId c = true)
  ∧ ¬ already_read userId m.

#[global] Instance unread_in_joined_channels_dec
    (participates : string → string → bool) (userId : string) (m : Message) :
  Decision (unread_in_joined_channels participates userId m).
Proof.
  unfold unread_in_joined_channels.
  assert (Decision (∃ c, channel m = Some c ∧ participates userId c = true)).
  { destruct (channel m) as [c|].
    - destruct (participates userId c) eqn:Hp.
      + left. eauto.
      + right. intros (c' & [= <-] & Hc). congruence.
    - right. intros (c' & Hc & _). discriminate. }
  apply _.
Defined.

(** The two classes of the breakdown: unread messages of one channel, and
    unread messages without a channel from one sender. *)
Definition unread_in_channel (userId c : string) (m : Message) : Prop :=
  counts_as_unread userId m ∧ channel m = Some c.

Definition unread_direct_from (userId from : string) (m : Message) : Prop :=
  counts_as_unread userId m ∧ channel m = None ∧ sender m = from.

#[global] Instance unread_in_channel_dec (userId c : string) (m : Message) :
  Decision (unread_in_channel userId c m).
Proof. unfold unread_in_channel. apply _. Defined.

#[global] Instance unread_direct_from_dec (userId from : string) (m : Message) :
  Decision (unread_direct_from userId from m).
Proof. unfold unread_direct_from. apply _. Defined.

(** A key of the aggregation result that the two breakdown objects handle
    like an entry of a dictionary: the channel name is not empty and is
    not the name of a property that every object inherits, and the sender
    of a message without a channel is not [__proto__]. *)
Definition plain_key (k : option string * string) : Prop :=
  fst k ≠ Some ""
  ∧ (∀ c, fst k = Some c → Js.Object_prototype c = None)
  ∧ (fst k = None → snd k ≠ "__proto__").

(** Every own property of the object holds a number. *)
Definition all_numbers (obj : gmap string Js.Value) : Prop :=
  map_Forall (λ _ v, ∃ n, v = Js.VNum n) obj.

(** The sum of the counts of the groups selected by a test on the key. *)
Definition selected_sum (p : option string * string → bool)
    (items : list ((option string * string) * nat)) : nat :=
  list_sum (map snd (List.filter (λ it, p (fst it)) items)).

(** The entry of a breakdown object for a class of [n] messages: no key
    when the class is empty. *)
Definition count_entry (n : nat) : option Js.Value :=
  match n with
  | O => None
  | S _ => Some (Js.VNum n)
  end.

(** *** Reference notions for the message collection *)

(** A collection never holds two documents with the same [_id]. *)
Definition unique_ids (coll : list Message) : Prop :=
  List.NoDup (map _id coll).

(** The data-model invariants of [reactions]: at most one entry per
    emoji, and no entry with an empty user list. *)
Definition one_entry_per_emoji (m : Message) : Prop :=
  List.NoDup (map emoji (reactions m)).

Definition no_empty_reaction (m : Message) : Prop :=
  List.Forall (λ r, users r ≠ []) (reactions m).

(** What [addReaction] does to the message it targets (see
    [addReaction_on_target] for the statement). *)
Definition add_reaction_doc (e userId : string) (m : Message) : Message :=
  if reactions_emoji e m
  then if reactions_users userId m then m else push_reaction_user e userId m
  else push_reaction e userId m.

(** What [removeReaction] does to the message it targets. *)
Definition remove_reaction_doc (e userId : string) (m : Message) : Message :=
  pull_empty_reactions
    (if reactions_emoji e m then pull_reaction_user e userId m else m).

(** Applying a document function to the document with a given [_id]. *)
Definition on_id (messageId : string) (f : Message → Message)
    (coll : list Message) : list Message :=
  map (λ m, if String.eqb (_id m) messageId then f m else m) coll.

(** Ascending [createdAt] along a list (oldest first). *)
Fixpoint chronological (l : list Message) : Prop :=
  match l with
  | [] => True
  | m :: l' => (∀ m', In m' l' → (createdAt m ≤ createdAt m')%Z) ∧ chronological l'
  end.

(** The update of [editMessage]. *)
Definition mark_edited (newContent : string) (now : Z) (m : Message) : Message :=
  mkMessage (_id m) newContent (sender m) (recipient m) (channel m)
    (taskRef m) (mentions m) (readBy m) true (Some now) (isDeleted m)
    (deletedAt m) (replyTo m) (reactions m) (createdAt m).

(** Descending [createdAt] along a list (newest first). *)
Fixpoint newest_first (l : list Message) : Prop :=
  match l with
  | [] => True
  | m :: l' => (∀ m', In m' l' → (createdAt m' ≤ createdAt m)%Z) ∧ newest_first l'
  end.

End Messages.

(** ** Input sanitizing ([validation.middleware.ts]) *)

(** * Users: [UserService.updateUser]

    Source: [src/backend/src/services/user.service.ts], class
    [UserService], and [src/backend/src/models/User.ts]. *)

Module Users.

(** [UserRole] *)
Inductive UserRole : Type := manager | user.

#[global] Instance UserRole_eq_dec : EqDecision UserRole.
Proof. solve_decision. Defined.

(** The fields of [IUser] that [updateUser] reads or writes, with the
    [email] that identifies the account. *)
Record User : Type := mkUser {
  _id : string;
  email : string;
  role : UserRole;
  department : option string;
  position : option string;
  isActive : bool
}.

(** [Partial<Pick<IUser, 'role' | 'department' | 'position' | 'isActive'>>]:
    [None] is an absent key. *)
Record UserUpdates : Type := mkUserUpdates {
  u_role : option UserRole;
  u_department : option string;
  u_position : option string;
  u_isActive : option bool
}.

Section Cast.

(** The string form of the [ObjectId] a string is cast to. Stored
    identities are in that form ([user._id.toString()]); a query by
    identity casts its argument, whereas [===] compares the strings as
    they were given. *)
Variable ObjectId : string → string.

(** [User.findById(id)] *)
Definition findById (id : string) (users : list User) : option User :=
  List.find (λ u, String.eqb (_id u) (ObjectId id)) users.

(** The update document built from [allowedUpdates]: each key present in
    [updates] is set. *)
Definition apply_updateData (updates : UserUpdates) (u : User) : User :=
  mkUser (_id u) (email u)
    (default (role u) (u_role updates))
    (match u_department updates with Some d => Some d | None => department u end)
    (match u_position updates with Some p => Some p | None => position u end)
    (default (isActive u) (u_isActive updates)).

(** [updateUser(userId, updates, actorId)]: [inl] is the message of the
    error thrown, [inr] the document returned by [findByIdAndUpdate] with
    [{ new: true }] and the collection afterwards.  The schema validators
    run by [runValidators] (the length limits of [department] and
    [position]) are taken to pass. *)
Definition updateUser (userId : string) (updates : UserUpdates)
    (actorId : string) (users : list User)
  : string + (option User * list User) :=
  match findById actorId users with
  | None => inl "Unauthorized: Only managers can update users"
  | Some actor =>
      if negb (bool_decide (role actor = manager))
      then inl "Unauthorized: Only managers can update users"
      else if String.eqb userId actorId
              && match u_role updates with
                 | Some r => negb (bool_decide (r = manager))
                 | None => false
                 end
      then inl "Cannot demote yourself"
      else
        let users' :=
          fst (Mongo.updateOne (λ u, String.eqb (_id u) (ObjectId userId))
                 (apply_updateData updates) users) in
        inr (findById userId users', users')
  end.

End Cast.

End Users.

Module Sanitize.

(** [s.replace(/c/g, by)]: every occurrence of the character [c] is
    replaced by the string [by]. *)
Fixpoint replace_char (c : ascii) (by_ : string) (s : string) : string :=
  match s with
  | EmptyString => EmptyString
  | String x s' =>
      if Ascii.eqb x c then by_ +:+ replace_char c by_ s'
      else String x (replace_char c by_ s')
  end.

(** [sanitizeInput] on a string: the five replacements, in the order of
    the source. *)
Definition sanitizeInput (input : string) : string :=
  replace_char "/" "&#x2F;"
    (replace_char "'" "&#x27;"
       (replace_char "034" "&quot;"
          (replace_char ">" "&gt;"
             (replace_char "<" "&lt;" input)))).

(** Does the character occur in the string? *)
Fixpoint has_char (c : ascii) (s : string) : bool :=
  match s with
  | EmptyString => false
  | String x s' => Ascii.eqb x c || has_char c s'
  end.

(** The five characters that [sanitizeInput] escapes. *)
Definition escaped_chars : list ascii :=
  ["<"; ">"; "034"; "'"; "/"]%char.

End Sanitize.

(** ** Sample identities *)

(** Identities as the routes accept them and as the store prints them: 24
    hexadecimal digits in lower case. *)
Module Sample.

Definition u1 : string := "65f0c0ffee65f0c0ffee0a01".
Definition u2 : string := "65f0c0ffee65f0c0ffee0a02".
Definition u3 : string := "65f0c0ffee65f0c0ffee0a03".

Definition t1 : string := "65f0c0ffee65f0c0ffee0001".
Definition t2 : string := "65f0c0ffee65f0c0ffee0002".

Definition m1 : string := "65f0c0ffee65f0c0ffee0b01".
Definition m2 : string := "65f0c0ffee65f0c0ffee0b02".

End Sample.

(** * Properties *)

Set Warnings "-clear-no-such-hyp".

(** Side conditions on concrete data. *)
Ltac sample :=
  repeat first
    [ done | discriminate | constructor
    | progress (cbn; intuition (try discriminate)) ].

(** ** Collections *)

Module MongoFacts.
Import Mongo.

(** [updateOne] rewrites the first match, which is then what a lookup with
    the same filter finds, provided the update keeps the document inside
    the filter. *)
Lemma updateOne_find {A : Type} (filter : A → bool) (update : A → A)
    (coll : list A) (d : A) :
  List.find filter coll = Some d →
  filter (update d) = true →
  List.find filter (fst (updateOne filter update coll)) = Some (update d)
  ∧ snd (updateOne filter update coll) = 1.
Proof.
  induction coll as [|x coll IH]; simpl; [done|].
  destruct (filter x) eqn:Hx.
  - intros [= ->] Hkeep. simpl. by rewrite Hkeep.
  - intros Hfind Hkeep. destruct (IH Hfind Hkeep) as [IH1 IH2].
    destruct (updateOne filter update coll) as [rest n]. simpl in *.
    by rewrite Hx.
Qed.


(** An update that commutes with a document transformation [g] to which
    the filter is blind commutes with [map g]. *)
Lemma updateOne_map {A : Type} (g : A → A) (filter : A → bool)
    (update : A → A) (coll : list A) :
  (∀ d, filter (g d) = filter d) →
  (∀ d, update (g d) = g (update d)) →
  updateOne filter update (map g coll)
  = (map g (fst (updateOne filter update coll)),
     snd (updateOne filter update coll)).
Proof.
  intros Hfilter Hupdate. induction coll as [|x coll IH]; simpl; [done|].
  rewrite Hfilter. destruct (filter x); simpl.
  - by rewrite Hupdate.
  - rewrite IH. by destruct (updateOne filter update coll).
Qed.

Lemma updateMany_map {A : Type} (g : A → A) (filter : A → bool)
    (update : A → A) (coll : list A) :
  (∀ d, filter (g d) = filter d) →
  (∀ d, update (g d) = g (update d)) →
  updateMany filter update (map g coll) = map g (updateMany filter update coll).
Proof.
  intros Hfilter Hupdate. unfold updateMany. rewrite !map_map.
  apply map_ext. intros d. rewrite Hfilter. destruct (filter d); by rewrite ?Hupdate.
Qed.
End MongoFacts.

(** ** JavaScript helpers *)

Module JsFacts.
Import Js.

Lemma includes_In (l : list string) (x : string) :
  includes l x = true ↔ In x l.
Proof.
  unfold includes. rewrite existsb_exists. split.
  - intros (y & Hy & Heq). apply String.eqb_eq in Heq. by subst.
  - intros Hin. exists x. split; [done | apply String.eqb_refl].
Qed.




End JsFacts.

(** ** Presence registry *)

Module PresenceFacts.
Import Presence.

(** The registry after a connection: the socket is added to the user's
    set, which is created when missing. *)
Lemma on_connection_registry (u s : string) (reg : gmap string (gset string)) :
  fst (on_connection u s reg) = <[u := default ∅ (reg !! u) ∪ {[s]}]> reg.
Proof.
  unfold on_connection; cbn [fst].
  apply map_eq; intros k. rewrite lookup_alter.
  case_bool_decide as Hu.
  - destruct Hu as [S HS]. rewrite HS; simpl. rewrite lookup_insert.
    repeat case_decide; subst; try congruence; by rewrite ?HS.
  - rewrite !lookup_insert.
    assert (reg !! u = None) as HN by (destruct (reg !! u); [exfalso; eauto | done]).
    rewrite HN; simpl.
    repeat case_decide; subst; try congruence; done.
Qed.

(** [isUserOnline] in terms of the stored set. *)
Lemma isUserOnline_true (reg : gmap string (gset string)) (u : string) :
  isUserOnline reg u = true ↔ ∃ S, reg !! u = Some S ∧ S ≠ ∅.
Proof.
  unfold isUserOnline. destruct (reg !! u) as [S|].
  - rewrite bool_decide_eq_true. split.
    + intros Hpos. exists S. split; [done|]. intros ->. rewrite size_empty in Hpos. lia.
    + intros (S' & [= <-] & Hne).
      assert (size S ≠ 0); [|lia]. by rewrite size_non_empty_iff, leibniz_equiv_iff.
  - split; [done|]. intros (S & ? & _); congruence.
Qed.

Lemma isUserOnline_false (reg : gmap string (gset string)) (u : string) :
  isUserOnline reg u = false ↔ reg !! u = None ∨ reg !! u = Some ∅.
Proof.
  rewrite <- not_true_iff_false, isUserOnline_true. split.
  - intros Hno. destruct (reg !! u) as [S|]; [|by left].
    right. f_equal. destruct (decide (S = ∅)); [done|]. exfalso; eauto.
  - intros [HN|HE] (S & HS & Hne); congruence.
Qed.

Lemma on_connection_online (u s : string) (reg : gmap string (gset string)) :
  isUserOnline (fst (on_connection u s reg)) u = true.
Proof.
  rewrite isUserOnline_true, on_connection_registry.
  eexists. rewrite lookup_insert_eq. split; [done|]. set_solver.
Qed.

Lemma on_connection_other (u s v : string) (reg : gmap string (gset string)) :
  u ≠ v → fst (on_connection u s reg) !! v = reg !! v.
Proof. intros. rewrite on_connection_registry. by rewrite lookup_insert_ne. Qed.

Lemma on_disconnect_other (u s v : string) (reg : gmap string (gset string)) :
  u ≠ v → fst (on_disconnect u s reg) !! v = reg !! v.
Proof.
  intros. unfold on_disconnect. destruct (reg !! u); [|done].
  case_bool_decide; simpl; by rewrite ?lookup_delete_ne, ?lookup_insert_ne.
Qed.

Lemma isUserOnline_ext (r1 r2 : gmap string (gset string)) (u : string) :
  r1 !! u = r2 !! u → isUserOnline r1 u = isUserOnline r2 u.
Proof. unfold isUserOnline. by intros ->. Qed.

(** The invariant holds initially and is kept by both handlers. *)
Lemma no_empty_entry_init : no_empty_entry onlineUsers_init.
Proof. intros u s. unfold onlineUsers_init. by rewrite lookup_empty. Qed.

Lemma no_empty_entry_step (ev : SocketEvent) (reg : gmap string (gset string)) :
  no_empty_entry reg → no_empty_entry (fst (step ev reg)).
Proof.
  intros Hinv v S. destruct ev as [u s|u s]; cbn [step].
  - rewrite on_connection_registry, lookup_insert.
    case_decide; [intros [= <-]; set_solver | apply Hinv].
  - unfold on_disconnect. destruct (reg !! u) as [Su|] eqn:Hu; [|apply Hinv].
    case_bool_decide as Hsz; simpl.
    + rewrite lookup_delete. case_decide; [done | apply Hinv].
    + rewrite lookup_insert. case_decide; [|apply Hinv].
      intros [= <-] Hempty. apply Hsz. rewrite Hempty. apply size_empty.
Qed.

Lemma count_online_broadcasts_app (u : string) (b : bool) (l1 l2 : list Emitted) :
  count_online_broadcasts u b (l1 ++ l2)
  = count_online_broadcasts u b l1 + count_online_broadcasts u b l2.
Proof. unfold count_online_broadcasts. by rewrite List.filter_app, length_app. Qed.

Lemma run_cons (ev : SocketEvent) (evs : list SocketEvent)
    (reg : gmap string (gset string)) :
  run (ev :: evs) reg
  = (fst (run evs (fst (step ev reg))),
     snd (step ev reg) ++ snd (run evs (fst (step ev reg)))).
Proof.
  cbn [run]. destruct (step ev reg) as [r1 out1].
  cbn [fst snd]. by destruct (run evs r1).
Qed.

Lemma run_app (evs1 evs2 : list SocketEvent) (reg : gmap string (gset string)) :
  run (evs1 ++ evs2) reg
  = (fst (run evs2 (fst (run evs1 reg))),
     snd (run evs1 reg) ++ snd (run evs2 (fst (run evs1 reg)))).
Proof.
  revert reg. induction evs1 as [|ev evs1 IH]; intros reg.
  - simpl. by destruct (run evs2 reg).
  - rewrite <- app_comm_cons, !run_cons, IH. cbn [fst snd]. by rewrite app_assoc.
Qed.

(** One handler emits the offline broadcast of a user exactly when that
    user goes from online to offline in it. *)
Lemma step_offline_broadcast (U : string) (ev : SocketEvent)
    (reg : gmap string (gset string)) :
  no_empty_entry reg →
  count_online_broadcasts U false (snd (step ev reg))
  = if Bool.eqb (isUserOnline reg U) true
       && Bool.eqb (isUserOnline (fst (step ev reg)) U) (negb true)
    then 1 else 0.
Proof.
  intros Hinv. destruct ev as [u s|u s]; cbn [step].
  - replace (count_online_broadcasts U false (snd (on_connection u s reg))) with 0
      by (unfold count_online_broadcasts, is_online_broadcast; simpl;
          by rewrite andb_false_r).
    destruct (decide (u = U)) as [->|Hne].
    + by rewrite on_connection_online, andb_false_r.
    + rewrite (isUserOnline_ext (fst (on_connection u s reg)) reg U)
        by (by apply on_connection_other).
      by destruct (isUserOnline reg U).
  - unfold on_disconnect. destruct (reg !! u) as [Su|] eqn:Hu.
    2:{ simpl. by destruct (isUserOnline reg U). }
    case_bool_decide as Hsz; cbn [fst snd].
    + unfold count_online_broadcasts, is_online_broadcast; simpl.
      rewrite andb_true_r. destruct (decide (u = U)) as [->|Hne].
      * rewrite bool_decide_eq_true_2 by done.
        assert (isUserOnline reg U = true) as ->
          by (apply isUserOnline_true; eauto).
        assert (isUserOnline (delete U reg) U = false) as ->
          by (apply isUserOnline_false; left; apply lookup_delete_eq).
        done.
      * rewrite bool_decide_eq_false_2 by done.
        rewrite (isUserOnline_ext (delete u reg) reg U)
          by (by apply lookup_delete_ne).
        by destruct (isUserOnline reg U).
    + replace (count_online_broadcasts U false []) with 0 by done.
      destruct (decide (u = U)) as [->|Hne].
      * assert (isUserOnline (<[U:=Su ∖ {[s]}]> reg) U = true) as ->.
        { apply isUserOnline_true. eexists. rewrite lookup_insert_eq.
          split; [done|]. intros Hempty. apply Hsz. rewrite Hempty. apply size_empty. }
        by rewrite andb_false_r.
      * rewrite (isUserOnline_ext (<[u:=Su ∖ {[s]}]> reg) reg U)
          by (by apply lookup_insert_ne).
        by destruct (isUserOnline reg U).
Qed.

(** One handler emits the online broadcast of a user exactly when it is a
    connection of that user. *)
Lemma step_online_broadcast (U : string) (ev : SocketEvent)
    (reg : gmap string (gset string)) :
  count_online_broadcasts U true (snd (step ev reg)) = count_connects U [ev].
Proof.
  destruct ev as [u s|u s]; cbn [step].
  - unfold count_online_broadcasts, count_connects, is_online_broadcast; simpl.
    rewrite andb_true_r. by case_bool_decide.
  - unfold on_disconnect, count_connects. destruct (reg !! u); [|done].
    case_bool_decide; [|done].
    unfold count_online_broadcasts, is_online_broadcast; simpl.
    by rewrite andb_false_r.
Qed.

(** A user comes online only in one of their own connection handlers. *)
Lemma step_online_edge (U : string) (ev : SocketEvent)
    (reg : gmap string (gset string)) :
  ((if Bool.eqb (isUserOnline reg U) false
       && Bool.eqb (isUserOnline (fst (step ev reg)) U) (negb false)
    then 1 else 0) ≤ count_connects U [ev])%nat.
Proof.
  destruct (isUserOnline reg U) eqn:Hbefore; [simpl; lia|].
  destruct (isUserOnline (fst (step ev reg)) U) eqn:Hafter; [|simpl; lia].
  destruct ev as [u s|u s]; cbn [step] in Hafter.
  - unfold count_connects; simpl. case_bool_decide as Hu; [simpl; lia|].
    rewrite (isUserOnline_ext (fst (on_connection u s reg)) reg U) in Hafter
      by (by apply on_connection_other).
    congruence.
  - exfalso. apply isUserOnline_true in Hafter as (S & HS & Hne).
    apply isUserOnline_false in Hbefore.
    unfold on_disconnect in HS. destruct (reg !! u) as [Su|] eqn:Hu.
    2:{ simpl in HS. destruct Hbefore; congruence. }
    case_bool_decide as Hsz; cbn [fst] in HS.
    + rewrite lookup_delete in HS. case_decide; [done|].
      destruct Hbefore; congruence.
    + rewrite lookup_insert in HS. case_decide as Heq.
      * subst u. injection HS as <-.
        destruct Hbefore as [?|Hempty]; [congruence|].
        rewrite Hu in Hempty. simplify_eq.
        apply Hne, subseteq_empty_difference_L, empty_subseteq.
      * destruct Hbefore; congruence.
Qed.

Lemma count_connects_cons (U : string) (ev : SocketEvent) (evs : list SocketEvent) :
  count_connects U (ev :: evs) = count_connects U [ev] + count_connects U evs.
Proof.
  unfold count_connects. simpl.
  destruct ev as [u s|u s]; [case_bool_decide|]; done.
Qed.

Lemma step_targets (ev : SocketEvent) (reg : gmap string (gset string)) :
  Forall (λ e, target e = ToAll) (snd (step ev reg)).
Proof.
  destruct ev as [u s|u s]; cbn [step].
  - repeat constructor.
  - unfold on_disconnect. destruct (reg !! u); [|constructor].
    case_bool_decide; repeat constructor.
Qed.

(** The three counts over a whole run, from any registry without empty
    entries. *)
Lemma run_broadcasts (U : string) (evs : list SocketEvent)
    (reg : gmap string (gset string)) :
  no_empty_entry reg →
  count_online_broadcasts U false (snd (run evs reg)) = count_edges U true evs reg
  ∧ count_online_broadcasts U true (snd (run evs reg)) = count_connects U evs
  ∧ (count_edges U false evs reg ≤ count_connects U evs)%nat
  ∧ Forall (λ e, target e = ToAll) (snd (run evs reg)).
Proof.
  revert reg. induction evs as [|ev evs IH]; intros reg Hinv.
  - repeat split; done.
  - destruct (IH (fst (step ev reg)) (no_empty_entry_step ev reg Hinv))
      as (IHoff & IHon & IHedge & IHall).
    rewrite run_cons. cbn [snd count_edges].
    rewrite !count_online_broadcasts_app, count_connects_cons.
    rewrite step_offline_broadcast, step_online_broadcast by done.
    pose proof (step_online_edge U ev reg).
    repeat split; try lia.
    apply Forall_app; split; [apply step_targets | done].
Qed.

Lemma on_disconnect_last (u s : string) (reg : gmap string (gset string))
    (S : gset string) :
  reg !! u = Some S → S ∖ {[s]} = ∅ →
  on_disconnect u s reg = (delete u reg, [emit_user_online u false]).
Proof.
  intros Hu Hempty. unfold on_disconnect. rewrite Hu, Hempty.
  by rewrite bool_decide_eq_true_2 by apply size_empty.
Qed.

Lemma on_disconnect_more (u s : string) (reg : gmap string (gset string))
    (S : gset string) :
  reg !! u = Some S → S ∖ {[s]} ≠ ∅ →
  on_disconnect u s reg = (<[u := S ∖ {[s]}]> reg, []).
Proof.
  intros Hu Hne. unfold on_disconnect. rewrite Hu.
  rewrite bool_decide_eq_false_2; [done|].
  intros Hsz. apply Hne. by apply leibniz_equiv, size_empty_iff.
Qed.

(** C4: a user connected from two sockets stays online, with no offline
    broadcast, when one of the two disconnects (either one); when the other
    disconnects too the user is offline and exactly one offline broadcast
    has been emitted over the four events. *)
Theorem two_connections_offline_once (U s1 s2 : string) (swap : bool)
    (reg : gmap string (gset string)) :
  isUserOnline reg U = false → s1 ≠ s2 →
  let first := if swap then s2 else s1 in
  let second := if swap then s1 else s2 in
  let after_one := run [Connect U s1; Connect U s2; Disconnect U first] reg in
  let after_both := run [Disconnect U second] (fst after_one) in
  isUserOnline (fst after_one) U = true
  ∧ count_online_broadcasts U false (snd after_one) = 0
  ∧ isUserOnline (fst after_both) U = false
  ∧ count_online_broadcasts U false (snd after_one ++ snd after_both) = 1.
Proof.
  intros Hoff Hne first second.
  assert (default ∅ (reg !! U) = ∅) as Hnone
    by (apply isUserOnline_false in Hoff as [-> | ->]; done).
  set (reg2 := fst (on_connection U s2 (fst (on_connection U s1 reg)))).
  assert (reg2 !! U = Some {[s1; s2]}) as Hreg2.
  { unfold reg2. rewrite !on_connection_registry, lookup_insert_eq.
    cbn [default]. rewrite lookup_insert_eq, Hnone. f_equal. set_solver. }
  assert ({[s1; s2]} ∖ {[first]} = ({[second]} : gset string)) as Hone
    by (unfold first, second; destruct swap; set_solver).
  assert (({[second]} : gset string) ∖ {[second]} = ∅) as Hboth by set_solver.
  assert (({[second]} : gset string) ≠ ∅) as Hsecond by set_solver.
  assert (run [Connect U s1; Connect U s2; Disconnect U first] reg
          = (<[U := {[second]}]> reg2,
             [emit_user_online U true; emit_user_online U true])) as Hrun1.
  { rewrite !run_cons. cbn [run step fst snd]. fold reg2.
    rewrite (on_disconnect_more U first reg2 {[s1; s2]}) by (by rewrite ?Hone).
    by rewrite Hone. }
  cbv zeta. rewrite Hrun1. cbn [fst snd].
  rewrite run_cons. cbn [run step fst snd].
  rewrite (on_disconnect_last U second _ {[second]})
    by (by rewrite ?lookup_insert_eq).
  cbn [fst snd]. repeat split.
  - apply isUserOnline_true. eexists. by rewrite lookup_insert_eq.
  - unfold count_online_broadcasts, is_online_broadcast. simpl.
    by rewrite !andb_false_r.
  - apply isUserOnline_false. left. apply lookup_delete_eq.
  - unfold count_online_broadcasts, is_online_broadcast. simpl.
    rewrite !andb_false_r, andb_true_r. by rewrite bool_decide_eq_true_2.
Qed.

(** The two-tab scenario on the empty registry. *)
Lemma two_connections_offline_once_witness :
  isUserOnline onlineUsers_init "u1" = false ∧ "tabA" ≠ "tabB"
  ∧ isUserOnline
      (fst (run [Connect "u1" "tabA"; Connect "u1" "tabB"; Disconnect "u1" "tabA"]
              onlineUsers_init)) "u1" = true.
Proof.
  assert (isUserOnline onlineUsers_init "u1" = false) as Hoff by reflexivity.
  assert ("tabA" ≠ "tabB") as Hne by discriminate.
  split; [exact Hoff|]. split; [exact Hne|].
  exact (proj1 (two_connections_offline_once "u1" "tabA" "tabB" false
                  onlineUsers_init Hoff Hne)).
Defined.

(** C5 (as amended): over any sequence of connections and disconnections
    from the empty registry, the offline broadcast of a user is emitted
    exactly once per online-to-offline edge of that user; the online
    broadcast is emitted once per connection of the user, hence at least
    once per offline-to-online edge; and every such broadcast is an
    [io.emit] to all connected sockets. *)
Theorem broadcasts_of_a_run (U : string) (evs : list SocketEvent) :
  count_online_broadcasts U false (snd (run evs onlineUsers_init))
  = count_edges U true evs onlineUsers_init
  ∧ count_online_broadcasts U true (snd (run evs onlineUsers_init))
    = count_connects U evs
  ∧ (count_edges U false evs onlineUsers_init
     ≤ count_online_broadcasts U true (snd (run evs onlineUsers_init)))%nat
  ∧ Forall (λ e, target e = ToAll) (snd (run evs onlineUsers_init)).
Proof.
  destruct (run_broadcasts U evs onlineUsers_init no_empty_entry_init)
    as (Hoff & Hon & Hedge & Hall).
  repeat split; try done. by rewrite Hon.
Qed.

(** C5 fails as stated: the second connection of a user who is already
    online emits one more online broadcast, so two are emitted for a
    single offline-to-online edge. *)
Lemma second_connection_broadcasts_again :
  let evs := [Connect "u1" "tabA"; Connect "u1" "tabB"] in
  isUserOnline (fst (run [Connect "u1" "tabA"] onlineUsers_init)) "u1" = true
  ∧ snd (step (Connect "u1" "tabB") (fst (run [Connect "u1" "tabA"] onlineUsers_init)))
    = [emit_user_online "u1" true]
  ∧ count_edges "u1" false evs onlineUsers_init = 1
  ∧ count_online_broadcasts "u1" true (snd (run evs onlineUsers_init)) = 2.
Proof. vm_compute. repeat split. Qed.
End PresenceFacts.

(** ** Task service *)

Module TaskFacts.
Import Tasks.

(** What [updateTask] does to a task that exists, when the proposed
    identities are cast. *)
Lemma updateTask_found (ObjectId : string → option string) (taskId : string)
    (updates : UpdateTaskData) (actorId : string) (now : Z)
    (tasks : list Task) (task : Task) (assignees' : option (list string))
    (parent' : option string) :
  findById taskId tasks = Some task →
  cast_assignees ObjectId updates = Some assignees' →
  cast_parentTask ObjectId updates = Some parent' →
  let task' :=
    apply_updateData updates assignees' parent'
      (updateTask_activities task updates actorId now) task in
  fst (updateTask ObjectId taskId updates actorId now tasks)
  = Js.Returns (Some task')
  ∧ findById taskId (snd (updateTask ObjectId taskId updates actorId now tasks))
    = Some task'.
Proof.
  intros Hfind Ha Hp task'. unfold updateTask. rewrite Hfind, Ha, Hp.
  cbn [fst snd].
  assert (String.eqb (_id task') taskId = true) as Hkeep.
  { apply find_some in Hfind as [_ Hid]. exact Hid. }
  destruct (MongoFacts.updateOne_find
              (λ t, String.eqb (_id t) taskId)
              (apply_updateData updates assignees' parent'
                 (updateTask_activities task updates actorId now))
              tasks task Hfind Hkeep) as [Hfound _].
  unfold findById at 1 2. by rewrite Hfound.
Qed.

(** A missing task: [null] is returned and nothing is written. *)
Lemma updateTask_not_found (ObjectId : string → option string)
    (taskId : string) (updates : UpdateTaskData) (actorId : string) (now : Z)
    (tasks : list Task) :
  findById taskId tasks = None →
  updateTask ObjectId taskId updates actorId now tasks
  = (Js.Returns None, tasks).
Proof. intros Hfind. unfold updateTask. by rewrite Hfind. Qed.

(** A proposed identity that is no [ObjectId]: the update of a stored
    task throws and nothing is written. *)
Lemma updateTask_throws (ObjectId : string → option string)
    (taskId : string) (updates : UpdateTaskData) (actorId : string) (now : Z)
    (tasks : list Task) (task : Task) :
  findById taskId tasks = Some task →
  cast_assignees ObjectId updates = None
  ∨ cast_parentTask ObjectId updates = None →
  updateTask ObjectId taskId updates actorId now tasks = (Js.Throws, tasks).
Proof.
  intros Hfind Hcast. unfold updateTask. rewrite Hfind.
  destruct Hcast as [-> | ->]; [done|].
  by destruct (cast_assignees ObjectId updates).
Qed.


(** The update path never writes [completedAt]. *)
Lemma updateTask_completedAt (ObjectId : string → option string)
    (taskId : string) (updates : UpdateTaskData)
    (actorId : string) (now : Z) (tasks : list Task) (task task' : Task) :
  findById taskId tasks = Some task →
  fst (updateTask ObjectId taskId updates actorId now tasks)
  = Js.Returns (Some task') →
  completedAt task' = completedAt task
  ∧ status task' = default (status task) (u_status updates).
Proof.
  intros Hfind Hres.
  destruct (cast_assignees ObjectId updates) as [assignees'|] eqn:Ha;
    [destruct (cast_parentTask ObjectId updates) as [parent'|] eqn:Hp|].
  - destruct (updateTask_found ObjectId taskId updates actorId now tasks task
                assignees' parent' Hfind Ha Hp) as [Hfst _].
    rewrite Hfst in Hres. injection Hres as <-. done.
  - rewrite (updateTask_throws ObjectId taskId updates actorId now tasks task)
      in Hres by auto. discriminate.
  - rewrite (updateTask_throws ObjectId taskId updates actorId now tasks task)
      in Hres by auto. discriminate.
Qed.


(** C1: the update paths break the invariant.  A [todo] task updated to
    [done], by [updateTask] or by [bulkUpdateStatus], ends with status
    [done] and no [completedAt]; a [done] task moved back to [todo] keeps
    its [completedAt]. *)
Theorem update_paths_skip_completedAt :
  let open_task :=
    mkTask Sample.t1 "Ship release" None todo medium [] Sample.u1
      None None None 0 [] [] None [] None 0 in
  let closed_task :=
    mkTask Sample.t2 "Write notes" None done medium [] Sample.u1
      None None None 0 [] [] None [] (Some 500%Z) 0 in
  completedAt_invariant open_task ∧ completedAt_invariant closed_task
  ∧ (∃ t, fst (updateTask Messages.hexObjectId Sample.t1
                 (status_only done) Sample.u1 1000 [open_task])
          = Js.Returns (Some t)
          ∧ snd (updateTask Messages.hexObjectId Sample.t1
                   (status_only done) Sample.u1 1000 [open_task]) = [t]
          ∧ status t = done ∧ completedAt t = None
          ∧ ¬ completedAt_invariant t)
  ∧ (∃ t, fst (updateTask Messages.hexObjectId Sample.t2
                 (status_only todo) Sample.u1 1000 [closed_task])
          = Js.Returns (Some t)
          ∧ snd (updateTask Messages.hexObjectId Sample.t2
                   (status_only todo) Sample.u1 1000 [closed_task]) = [t]
          ∧ status t = todo ∧ completedAt t = Some 500%Z
          ∧ ¬ completedAt_invariant t)
  ∧ (∃ t, bulkUpdateStatus Messages.hexObjectId [Sample.t1]
            done Sample.u1 1000 [open_task] = (Js.Returns 1, [t])
          ∧ status t = done ∧ completedAt t = None
          ∧ ¬ completedAt_invariant t).
Proof.
  unfold completedAt_invariant. cbv zeta. split; [|split; [|split; [|split]]].
  - simpl. split; [intros [? ?]|]; done.
  - simpl. split; eauto.
  - eexists. split; [vm_compute; reflexivity|].
    split; [vm_compute; reflexivity|]. simpl.
    repeat split; try done. intros [_ H]. by destruct (H eq_refl).
  - eexists. split; [vm_compute; reflexivity|].
    split; [vm_compute; reflexivity|]. simpl.
    repeat split; try done. intros [H _]. by specialize (H (ltac:(eauto))).
  - eexists. split; [vm_compute; reflexivity|]. simpl.
    repeat split; try done. intros [_ H]. by destruct (H eq_refl).
Qed.

(** C2: an update proposing only a new status appends exactly one
    activity; it is of type [status_changed] with metadata
    [{from: X, to: Y}], so no [updated] activity comes with it. *)
Theorem status_only_update (ObjectId : string → option string)
    (taskId actorId : string) (now : Z)
    (tasks : list Task) (task : Task) (Y : TaskStatus) :
  findById taskId tasks = Some task →
  Y ≠ status task →
  ∃ task' a,
    fst (updateTask ObjectId taskId (status_only Y) actorId now tasks)
    = Js.Returns (Some task')
    ∧ findById taskId
        (snd (updateTask ObjectId taskId (status_only Y) actorId now tasks))
      = Some task'
    ∧ activities task' = activities task ++ [a]
    ∧ act_type a = status_changed
    ∧ act_metadata a = Some (MStatus (status task) Y)
    ∧ act_actor a = actorId
    ∧ length (activities_of_type status_changed [a]) = 1
    ∧ activities_of_type updated [a] = [].
Proof.
  intros Hfind Hneq.
  destruct (updateTask_found ObjectId taskId (status_only Y) actorId now tasks
              task None None Hfind eq_refl eq_refl) as [Hfst Hsnd].
  eexists _, _. split; [exact Hfst|]. split; [exact Hsnd|].
  unfold updateTask_activities, status_activity, priority_activity,
    due_date_activity, assignee_activities. cbn [status_only u_status
    u_priority u_dueDate u_assignees].
  rewrite bool_decide_eq_true_2 by done.
  cbn. repeat split; reflexivity.
Qed.

(** A [todo] task moved to [done] by another user. *)
Lemma status_only_update_witness :
  let task :=
    mkTask "t1" "Ship release" None todo medium [] "u1" None None None 0 [] []
      None [] None 0 in
  findById "t1" [task] = Some task ∧ done ≠ status task
  ∧ ∃ task' a,
      fst (updateTask Messages.hexObjectId "t1" (status_only done) "u2" 1000
             [task]) = Js.Returns (Some task')
      ∧ activities task' = activities task ++ [a]
      ∧ act_metadata a = Some (MStatus todo done).
Proof.
  cbv zeta.
  assert (findById "t1"
            [mkTask "t1" "Ship release" None todo medium [] "u1" None None None
               0 [] [] None [] None 0]
          = Some (mkTask "t1" "Ship release" None todo medium [] "u1" None None
                    None 0 [] [] None [] None 0)) as Hfind by reflexivity.
  assert (done ≠ todo) as Hneq by discriminate.
  split; [exact Hfind|]. split; [exact Hneq|].
  destruct (status_only_update Messages.hexObjectId "t1" "u2" 1000 _ _ done
              Hfind Hneq)
    as (task' & a & H1 & _ & H3 & _ & H5 & _).
  exists task', a. auto.
Defined.

(** *** Assignee changes *)











End TaskFacts.

(** ** Message service *)

Module MessageFacts.
Import Messages.

(** The boolean filter on [readBy] agrees with [already_read]. *)
Lemma readBy_user_spec (userId : string) (m : Message) :
  readBy_user userId m = true ↔ already_read userId m.
Proof.
  unfold readBy_user, already_read. rewrite existsb_exists, List.Exists_exists.
  split; intros (r & Hin & Hr); exists r; (split; [done|]).
  - by apply String.eqb_eq.
  - by apply String.eqb_eq.
Qed.

(** C10: with neither a channel nor a counterpart, marking the
    conversation read adds a receipt of the user to every stored message
    that has none yet, whatever its channel, recipient, sender or
    soft-delete flag, and leaves the others as they are. *)
Theorem markConversationAsRead_everything (userId : string) (now : Z)
    (coll : list Message) :
  markConversationAsRead userId (mkConversationOptions None None) now coll
  = map (mark_read userId now) coll.
Proof.
  unfold markConversationAsRead, Mongo.updateMany. apply map_ext. intros m.
  unfold conversation_query, mark_read, push_readBy. cbn [opt_channel
    opt_recipientId Js.truthy]. rewrite !andb_true_r.
  destruct (decide (already_read userId m)) as [Hread|Hunread].
  - apply readBy_user_spec in Hread. by rewrite Hread.
  - destruct (readBy_user userId m) eqn:Hr; [|done].
    exfalso. by apply Hunread, readBy_user_spec.
Qed.

(** *** Soft-deleted messages *)

Lemma insert_by_createdAt_In (m x : Message) (l : list Message) :
  In x (insert_by_createdAt m l) → x = m ∨ In x l.
Proof.
  induction l as [|y l IH]; simpl; [naive_solver|].
  destruct (createdAt y <? createdAt m)%Z; simpl; naive_solver.
Qed.

Lemma sort_newest_first_In (x : Message) (l : list Message) :
  In x (sort_newest_first l) → In x l.
Proof.
  induction l as [|y l IH]; simpl; [done|].
  intros Hin. apply insert_by_createdAt_In in Hin. naive_solver.
Qed.

Lemma removelast_In {A : Type} (x : A) (l : list A) :
  In x (removelast l) → In x l.
Proof.
  induction l as [|y l IH]; simpl; [done|].
  destruct l as [|z l]; [done|]. simpl in *. naive_solver.
Qed.

Lemma firstn_In_inv {A : Type} (x : A) (n : nat) (l : list A) :
  In x (firstn n l) → In x l.
Proof.
  revert l. induction n as [|n IH]; intros [|y l]; simpl; try done.
  naive_solver.
Qed.

(** Every message returned by [getMessages] satisfies the query, which
    starts with the soft-delete test. *)
Lemma getMessages_In (filters : MessageFilters) (options : PaginationOptions)
    (coll : list Message) (m : Message) :
  In m (fst (getMessages filters options coll)) →
  In m coll ∧ getMessages_query filters (o_before options) m = true.
Proof.
  unfold getMessages. cbn [fst]. rewrite <- in_rev. intros Hin.
  apply filter_In, sort_newest_first_In,
    (firstn_In_inv _ (default 50 (o_limit options) + 1)).
  destruct (Nat.ltb _ _); [by apply removelast_In | done].
Qed.

Lemma flag_deleted_filter_blind (flags : string → bool) (m : Message) :
  _id (flag_deleted flags m) = _id m
  ∧ readBy (flag_deleted flags m) = readBy m
  ∧ reactions (flag_deleted flags m) = reactions m.
Proof. done. Qed.

(** C7 (as amended): a soft-deleted message is never returned by
    [getMessages]; marking messages or a conversation as read, adding a
    reaction and removing a reaction do not look at the flag: whatever
    flags the stored messages carry, these operations write the same
    receipts and reactions. *)
Theorem soft_deleted_messages (flags : string → bool) (coll : list Message) :
  (∀ filters options,
     Forall (λ m, isDeleted m = false) (fst (getMessages filters options coll)))
  ∧ (∀ ObjectId messageIds userId now,
       markAsRead ObjectId messageIds userId now (map (flag_deleted flags) coll)
       = (fst (markAsRead ObjectId messageIds userId now coll),
          map (flag_deleted flags)
            (snd (markAsRead ObjectId messageIds userId now coll))))
  ∧ (∀ userId options now,
       markConversationAsRead userId options now (map (flag_deleted flags) coll)
       = map (flag_deleted flags)
           (markConversationAsRead userId options now coll))
  ∧ (∀ messageId e userId,
       snd (addReaction messageId e userId (map (flag_deleted flags) coll))
       = map (flag_deleted flags) (snd (addReaction messageId e userId coll)))
  ∧ (∀ messageId e userId,
       snd (removeReaction messageId e userId (map (flag_deleted flags) coll))
       = map (flag_deleted flags) (snd (removeReaction messageId e userId coll))).
Proof.
  split; [|split; [|split; [|split]]].
  - intros filters options. apply List.Forall_forall. intros m Hin.
    apply getMessages_In in Hin as [_ Hq]. unfold getMessages_query in Hq.
    rewrite !andb_true_iff in Hq. destruct Hq as [[[[[Hdel _] _] _] _] _].
    by apply negb_true_iff.
  - intros ObjectId messageIds userId now. unfold markAsRead.
    destruct (mapM ObjectId messageIds) as [ids|]; cbn [fst snd]; [|done].
    f_equal. by apply MongoFacts.updateMany_map.
  - intros userId options now. unfold markConversationAsRead.
    by apply MongoFacts.updateMany_map.
  - intros messageId e userId. unfold addReaction.
    rewrite MongoFacts.updateOne_map by done.
    destruct (Mongo.updateOne _ (push_reaction_user e userId) coll)
      as [coll1 n]. cbn [fst snd].
    destruct (Nat.eqb n 0); cbn [snd]; [|done].
    rewrite MongoFacts.updateOne_map.
    + reflexivity.
    + intros d. reflexivity.
    + intros d. reflexivity.
  - intros messageId e userId. unfold removeReaction. cbn [snd].
    rewrite MongoFacts.updateOne_map by (intros d; reflexivity). cbn [fst].
    rewrite MongoFacts.updateOne_map by (intros d; reflexivity). reflexivity.
Qed.

(** C7 fails as stated: on a soft-deleted message, marking as read adds
    the receipt, adding a reaction adds the entry and removing a reaction
    removes it; none of the three is rejected. *)
Lemma soft_deleted_message_is_mutated :
  let id := Sample.m1 in
  let m :=
    mkMessage id "hello" Sample.u1 None (Some "general") None [] [] false None
      true (Some 900%Z) None [mkReaction "+1" [Sample.u3]] 800 in
  isDeleted m = true
  ∧ markAsRead hexObjectId [id] Sample.u2 1000 [m]
    = (Js.Returns tt, [with_readBy [mkReadReceipt Sample.u2 1000] m])
  ∧ snd (addReaction id "heart" Sample.u2 [m])
    = [with_reactions
         [mkReaction "+1" [Sample.u3]; mkReaction "heart" [Sample.u2]] m]
  ∧ snd (removeReaction id "+1" Sample.u3 [m]) = [with_reactions [] m].
Proof. vm_compute. repeat split. Qed.

(** *** Reactions *)

(** C6: adding a reaction does not reach the entry of the emoji when the
    user already reacted with another emoji on the same message.  Here
    ["u2"] has reacted with ["heart"]; adding ["+1"] for ["u2"] changes
    nothing, and ["u2"] is still not listed under ["+1"]. *)
Theorem addReaction_blocked_by_other_emoji :
  let m :=
    mkMessage "m1" "hello" "u1" None (Some "general") None [] [] false None
      false None None [mkReaction "+1" ["u3"]; mkReaction "heart" ["u2"]] 800 in
  isDeleted m = false
  ∧ reactions_emoji "+1" m = true
  ∧ has_reacted "+1" "u2" m = false
  ∧ addReaction "m1" "+1" "u2" [m] = (Some m, [m])
  ∧ (∀ m', fst (addReaction "m1" "+1" "u2" [m]) = Some m' →
           has_reacted "+1" "u2" m' = false).
Proof.
  cbv zeta. repeat split; try (vm_compute; reflexivity).
  intros m'. vm_compute. by intros [= <-].
Qed.

(** The three outcomes of [addReaction] on the targeted message, seen on a
    collection that holds just that message: a new entry when the emoji has
    none; the user appended to the entry when the user occurs in no entry
    of the message; and no change at all when the emoji has an entry and
    the user occurs in some entry, of this emoji or of another one. *)
Lemma addReaction_cases (m : Message) (e userId : string) :
  snd (addReaction (_id m) e userId [m])
  = [if reactions_emoji e m
     then if reactions_users userId m then m
          else push_reaction_user e userId m
     else push_reaction e userId m].
Proof.
  unfold addReaction. cbn [Mongo.updateOne]. rewrite String.eqb_refl.
  destruct (reactions_emoji e m) eqn:He; cbn [andb negb].
  - destruct (reactions_users userId m); cbn [negb Nat.eqb snd fst].
    + cbn [Mongo.updateOne]. by rewrite String.eqb_refl, He.
    + done.
  - cbn [Nat.eqb snd fst Mongo.updateOne]. by rewrite String.eqb_refl, He.
Qed.

Lemma update_first_reaction_has (e userId : string) (rs : list Reaction) :
  existsb (λ r, String.eqb (emoji r) e) rs = true →
  existsb (λ r, String.eqb (emoji r) e && Js.includes (users r) userId)
    (update_first_reaction e (λ r, mkReaction (emoji r) (users r ++ [userId])) rs)
  = true.
Proof.
  induction rs as [|r rs IH]; simpl; [done|].
  destruct (String.eqb (emoji r) e) eqn:Hr; simpl.
  - intros _. rewrite Hr. simpl. unfold Js.includes.
    rewrite existsb_app. simpl. by rewrite String.eqb_refl, orb_true_r.
  - intros Hrs. rewrite Hr. simpl. by apply IH.
Qed.

(** In the first two outcomes the user is listed under the emoji
    afterwards. *)
Lemma addReaction_adds (m : Message) (e userId : string) :
  has_reacted e userId (push_reaction e userId m) = true
  ∧ (reactions_emoji e m = true →
     has_reacted e userId (push_reaction_user e userId m) = true).
Proof.
  unfold has_reacted, push_reaction, push_reaction_user, reactions_emoji.
  cbn [reactions with_reactions]. split.
  - rewrite existsb_app. simpl. rewrite !String.eqb_refl. simpl.
    by rewrite orb_true_r.
  - apply update_first_reaction_has.
Qed.

(** *** Sending a message *)




End MessageFacts.

(** ** Unread counts *)

Module UnreadFacts.
Import Messages.

(** *** Sums over a breakdown object *)

Lemma sum_counts_insert_fresh (k : string) (v : Js.Value)
    (m : gmap string Js.Value) :
  m !! k = None → sum_counts (<[k := v]> m) = count_of_value v + sum_counts m.
Proof.
  intros Hk. unfold sum_counts.
  apply (map_fold_insert_L (λ _ v acc, count_of_value v + acc)); [|done].
  intros; lia.
Qed.

Lemma sum_counts_delete (k : string) (v : Js.Value) (m : gmap string Js.Value) :
  m !! k = Some v → sum_counts m = count_of_value v + sum_counts (delete k m).
Proof.
  intros Hk. unfold sum_counts.
  apply (map_fold_delete_L (λ _ v acc, count_of_value v + acc)); [|done].
  intros; lia.
Qed.

(** A key that no object inherits is written like a dictionary entry. *)
Lemma set_property_plain (obj : gmap string Js.Value) (k : string)
    (v : Js.Value) :
  k ≠ "__proto__" → Js.set_property obj k v = <[k := v]> obj.
Proof.
  intros Hk. unfold Js.set_property.
  by rewrite (proj2 (String.eqb_neq k "__proto__") Hk).
Qed.

Lemma Object_prototype_proto (k : string) :
  Js.Object_prototype k = None → k ≠ "__proto__".
Proof. intros Hk ->. discriminate. Qed.

(** Writing under a key leaves the other keys as they are. *)
Lemma set_property_other (obj : gmap string Js.Value) (k k' : string)
    (v : Js.Value) :
  k ≠ k' → Js.set_property obj k v !! k' = obj !! k'.
Proof.
  intros Hk. unfold Js.set_property.
  destruct (String.eqb k "__proto__"); [done|]. by apply lookup_insert_ne.
Qed.

(** [(obj[k] || 0) + c] under a key that is not inherited and holds a
    number, if anything. *)
Lemma or_zero_plus_number (obj : gmap string Js.Value) (k : string) (c : nat)
    (prev : option nat) :
  Js.Object_prototype k = None →
  obj !! k = Js.VNum <$> prev →
  Js.or_zero_plus obj k c = Js.VNum (default 0 prev + c).
Proof.
  intros Hk Hprev. unfold Js.or_zero_plus. rewrite Hprev, Hk.
  by destruct prev.
Qed.

Lemma all_numbers_lookup (obj : gmap string Js.Value) (k : string) :
  all_numbers obj → ∃ prev, obj !! k = Js.VNum <$> prev.
Proof.
  intros Hall. destruct (obj !! k) as [v|] eqn:Hv.
  - destruct (Hall k v Hv) as [n ->]. by exists (Some n).
  - by exists None.
Qed.

(** [obj[k] = (obj[k] || 0) + c] adds [c] to the sum and keeps the object
    a dictionary of numbers. *)
Lemma sum_counts_add (k : string) (c : nat) (m : gmap string Js.Value) :
  Js.Object_prototype k = None →
  all_numbers m →
  sum_counts (Js.set_property m k (Js.or_zero_plus m k c)) = sum_counts m + c
  ∧ all_numbers (Js.set_property m k (Js.or_zero_plus m k c)).
Proof.
  intros Hk Hall. destruct (all_numbers_lookup m k Hall) as [prev Hprev].
  rewrite (or_zero_plus_number m k c prev Hk Hprev).
  rewrite set_property_plain by by apply Object_prototype_proto.
  split.
  - destruct prev as [v|]; cbn [default fmap option_fmap option_map] in *.
    + rewrite <- insert_delete_eq.
      rewrite sum_counts_insert_fresh by apply lookup_delete_eq.
      rewrite (sum_counts_delete k _ m Hprev). simpl. unfold id. lia.
    + rewrite sum_counts_insert_fresh by done. simpl. lia.
  - apply map_Forall_insert_2; [by eexists|done].
Qed.

(** *** The grouping stage *)

Lemma group_add_sum (key : option string * string)
    (groups : list ((option string * string) * nat)) :
  list_sum (map snd (group_add key groups)) = S (list_sum (map snd groups)).
Proof.
  induction groups as [|[k n] groups IH]; simpl; [done|].
  case_bool_decide; simpl; [done|]. rewrite IH. lia.
Qed.

Lemma group_add_keys (key k' : option string * string)
    (groups : list ((option string * string) * nat)) :
  In k' (map fst (group_add key groups)) ↔ k' = key ∨ In k' (map fst groups).
Proof.
  induction groups as [|[k n] groups IH]; simpl; [naive_solver|].
  case_bool_decide; simpl; [naive_solver|]. rewrite IH. naive_solver.
Qed.

Lemma group_add_NoDup (key : option string * string)
    (groups : list ((option string * string) * nat)) :
  List.NoDup (map fst groups) → List.NoDup (map fst (group_add key groups)).
Proof.
  induction groups as [|[k n] groups IH]; simpl.
  - intros _. constructor; [by intros [] | constructor].
  - intros Hnd. apply List.NoDup_cons_iff in Hnd as [Hk Hnd].
    case_bool_decide as Heq; simpl.
    + by constructor.
    + constructor; [|by apply IH].
      rewrite group_add_keys. intros [->|Hin]; done.
Qed.

(** The items of the grouping: their counts add up to the number of
    documents, their keys are pairwise distinct, and each key is the
    channel and sender of some document. *)
Lemma group_by_channel_sender_spec (l : list Message) :
  list_sum (map snd (group_by_channel_sender l)) = length l
  ∧ List.NoDup (map fst (group_by_channel_sender l))
  ∧ ∀ k, In k (map fst (group_by_channel_sender l)) →
         ∃ m, In m l ∧ k = (channel m, sender m).
Proof.
  unfold group_by_channel_sender.
  assert (∀ groups,
            list_sum (map snd
              (fold_left (λ g m, group_add (channel m, sender m) g) l groups))
            = list_sum (map snd groups) + length l
            ∧ (List.NoDup (map fst groups) →
               List.NoDup (map fst
                 (fold_left (λ g m, group_add (channel m, sender m) g) l groups)))
            ∧ ∀ k, In k (map fst
                     (fold_left (λ g m, group_add (channel m, sender m) g) l groups)) →
                   In k (map fst groups)
                   ∨ ∃ m, In m l ∧ k = (channel m, sender m)) as Hgen.
  { induction l as [|m l IH]; intros groups; simpl.
    - split; [lia|]. split; [done|]. by left.
    - destruct (IH (group_add (channel m, sender m) groups)) as (IH1 & IH2 & IH3).
      rewrite IH1, group_add_sum. split; [lia|]. split.
      + intros Hnd. by apply IH2, group_add_NoDup.
      + intros k Hk. destruct (IH3 k Hk) as [Hin|(m' & Hm' & ->)].
        * apply group_add_keys in Hin as [->|Hin]; [right|by left].
          exists m. split; [by left | done].
        * right. exists m'. split; [by right | done]. }
  destruct (Hgen []) as (H1 & H2 & H3). split; [exact H1|].
  split; [apply H2; constructor|].
  intros k Hk. destruct (H3 k Hk) as [[]|Hm]. exact Hm.
Qed.

(** *** The accumulation loop *)

Lemma unread_loop_total (items : list ((option string * string) * nat))
    (acc : UnreadCount) :
  total (fold_left unread_item items acc)
  = total acc + list_sum (map snd items).
Proof.
  revert acc. induction items as [|[[ch from] n] items IH]; intros acc.
  - simpl. lia.
  - cbn [fold_left]. rewrite IH. unfold unread_item.
    destruct ch as [c|]; [destruct (Js.truthy (Some c))|]; simpl; lia.
Qed.

(** A truthy channel name. *)
Lemma plain_key_truthy (c from : string) :
  plain_key (Some c, from) → Js.truthy (Some c) = true.
Proof.
  intros [Hne _]. unfold Js.truthy. apply negb_true_iff, String.eqb_neq.
  simpl in Hne. congruence.
Qed.

(** The loop over items with plain keys keeps [byChannel] a dictionary of
    numbers. *)
Lemma unread_loop_numbers (items : list ((option string * string) * nat))
    (acc : UnreadCount) :
  (∀ k, In k (map fst items) → plain_key k) →
  all_numbers (byChannel acc) →
  all_numbers (byChannel (fold_left unread_item items acc)).
Proof.
  revert acc. induction items as [|[[ch from] n] items IH]; intros acc Hkeys Hall;
    [done|].
  cbn [fold_left]. apply IH; [intros k Hk; apply Hkeys; by right|].
  assert (plain_key (ch, from)) as Hkey by (apply Hkeys; by left).
  unfold unread_item. destruct ch as [c|]; [|done].
  rewrite (plain_key_truthy c from Hkey). cbn [byChannel].
  apply sum_counts_add; [|done]. by apply Hkey.
Qed.

(** The two breakdowns after the loop, over items with plain and pairwise
    distinct keys: together they hold the counts of all items. *)
Lemma unread_loop_breakdown (items : list ((option string * string) * nat))
    (acc : UnreadCount) :
  List.NoDup (map fst items) →
  (∀ k, In k (map fst items) → plain_key k) →
  (∀ from, In (None, from) (map fst items) → byConversation acc !! from = None) →
  all_numbers (byChannel acc) →
  sum_counts (byChannel (fold_left unread_item items acc))
  + sum_counts (byConversation (fold_left unread_item items acc))
  = sum_counts (byChannel acc) + sum_counts (byConversation acc)
    + list_sum (map snd items).
Proof.
  revert acc.
  induction items as [|[[ch from] n] items IH]; intros acc Hnd Hkeys Hfresh Hall.
  - simpl. lia.
  - cbn [fold_left map fst snd list_sum] in *.
    apply List.NoDup_cons_iff in Hnd as [Hhead Hnd].
    assert (plain_key (ch, from)) as Hkey by (apply Hkeys; by left).
    specialize (IH (unread_item acc (ch, from, n)) Hnd).
    rewrite IH.
    + unfold unread_item. destruct ch as [c|].
      * rewrite (plain_key_truthy c from Hkey).
        cbn [byChannel byConversation].
        destruct (sum_counts_add c n (byChannel acc)) as [-> _];
          [by apply Hkey|done|]. simpl. lia.
      * cbn [byChannel byConversation].
        rewrite set_property_plain by by apply Hkey.
        rewrite sum_counts_insert_fresh by (apply Hfresh; by left). simpl. lia.
    + intros k Hk. apply Hkeys. by right.
    + intros from' Hin.
      assert (byConversation acc !! from' = None) as Hacc
        by (apply Hfresh; by right).
      unfold unread_item. destruct ch as [c|].
      * by rewrite (plain_key_truthy c from Hkey).
      * cbn [byConversation]. rewrite set_property_other; [done|].
        intros <-. by apply Hhead.
    + apply (unread_loop_numbers [(ch, from, n)]); [|done].
      intros k [<-|[]]. exact Hkey.
Qed.

(** The [$match] stage selects the messages that count as unread. *)
Lemma unread_match_spec (userId : string) (m : Message) :
  unread_match userId m = true ↔ counts_as_unread userId m.
Proof.
  unfold unread_match, counts_as_unread.
  rewrite !andb_true_iff, !negb_true_iff, orb_true_iff, !bool_decide_eq_true.
  rewrite String.eqb_neq, <- MessageFacts.readBy_user_spec, not_true_iff_false.
  rewrite <- not_eq_None_Some. tauto.
Qed.

Lemma unread_match_length (userId : string) (coll : list Message) :
  length (List.filter (unread_match userId) coll)
  = length (filter (counts_as_unread userId) coll).
Proof.
  induction coll as [|m coll IH]; [done|].
  rewrite filter_cons. simpl.
  destruct (decide (counts_as_unread userId m)) as [Hyes|Hno].
  - apply unread_match_spec in Hyes. rewrite Hyes. simpl. by rewrite IH.
  - destruct (unread_match userId m) eqn:Hm; [|done].
    exfalso. by apply Hno, unread_match_spec.
Qed.

(** Counting with a boolean test or with the proposition it decides. *)
Lemma length_filter_decide {A : Type} (f : A → bool) (P : A → Prop)
    `{∀ x, Decision (P x)} (l : list A) :
  (∀ x, f x = true ↔ P x) →
  length (List.filter f l) = length (filter P l).
Proof.
  intros Hspec. induction l as [|x l IH]; [done|].
  rewrite filter_cons. simpl. destruct (decide (P x)) as [Hyes|Hno].
  - apply Hspec in Hyes. rewrite Hyes. simpl. by rewrite IH.
  - destruct (f x) eqn:Hx; [|done]. exfalso. by apply Hno, Hspec.
Qed.

Lemma filter_filter_andb {A : Type} (f g : A → bool) (l : list A) :
  List.filter g (List.filter f l) = List.filter (λ x, f x && g x) l.
Proof.
  induction l as [|x l IH]; simpl; [done|].
  destruct (f x); simpl; [destruct (g x)|]; by rewrite IH.
Qed.

Lemma group_add_selected (p : option string * string → bool)
    (key : option string * string)
    (groups : list ((option string * string) * nat)) :
  selected_sum p (group_add key groups)
  = selected_sum p groups + (if p key then 1 else 0).
Proof.
  unfold selected_sum. induction groups as [|[k n] groups IH]; simpl.
  - destruct (p key); simpl; lia.
  - case_bool_decide as Hk; simpl.
    + subst k. destruct (p key); simpl; lia.
    + destruct (p k); simpl; rewrite IH; lia.
Qed.

Lemma group_add_positive (key : option string * string)
    (groups : list ((option string * string) * nat)) :
  List.Forall (λ it, (1 ≤ snd it)%nat) groups →
  List.Forall (λ it, (1 ≤ snd it)%nat) (group_add key groups).
Proof.
  induction groups as [|[k n] groups IH]; simpl; intros Hall.
  - repeat constructor.
  - apply List.Forall_cons_iff in Hall as [Hn Hall].
    case_bool_decide; constructor; simpl in *; auto; lia.
Qed.

(** The groups selected by a key test hold as many documents as the test
    selects, and every group holds at least one. *)
Lemma group_by_selected (p : option string * string → bool) (l : list Message) :
  selected_sum p (group_by_channel_sender l)
  = length (List.filter (λ m, p (channel m, sender m)) l)
  ∧ List.Forall (λ it, (1 ≤ snd it)%nat) (group_by_channel_sender l).
Proof.
  unfold group_by_channel_sender.
  assert (∀ groups,
            selected_sum p
              (fold_left (λ g m, group_add (channel m, sender m) g) l groups)
            = selected_sum p groups
              + length (List.filter (λ m, p (channel m, sender m)) l)
            ∧ (List.Forall (λ it, (1 ≤ snd it)%nat) groups →
               List.Forall (λ it, (1 ≤ snd it)%nat)
                 (fold_left (λ g m, group_add (channel m, sender m) g) l groups)))
    as Hgen.
  { induction l as [|m l IH]; intros groups; simpl.
    - split; [lia | done].
    - destruct (IH (group_add (channel m, sender m) groups)) as [IH1 IH2].
      rewrite IH1, group_add_selected. split.
      + destruct (p (channel m, sender m)); simpl; lia.
      + intros Hall. by apply IH2, group_add_positive. }
  destruct (Hgen []) as [H1 H2]. split; [exact H1 | apply H2; constructor].
Qed.

Lemma selected_sum_positive (p : option string * string → bool)
    (items : list ((option string * string) * nat)) :
  List.Forall (λ it, (1 ≤ snd it)%nat) items →
  selected_sum p items = 0 ↔ List.filter (λ it, p (fst it)) items = [].
Proof.
  unfold selected_sum. induction items as [|[k n] items IH]; simpl; [done|].
  intros Hall. apply List.Forall_cons_iff in Hall as [Hn Hall]. simpl in Hn.
  destruct (p k); simpl; [|by apply IH].
  split; [lia | done].
Qed.

(** The channel entry after the loop over items with plain keys: the
    previous entry when no item is for the channel, else the previous
    count (or 0) plus the counts of the items of the channel. *)
Lemma unread_loop_byChannel (c : string)
    (items : list ((option string * string) * nat)) (acc : UnreadCount)
    (prev : option nat) :
  (∀ k, In k (map fst items) → plain_key k) →
  byChannel acc !! c = Js.VNum <$> prev →
  byChannel (fold_left unread_item items acc) !! c
  = match List.filter (λ it, bool_decide (fst (fst it) = Some c)) items with
    | [] => Js.VNum <$> prev
    | _ :: _ =>
        Some (Js.VNum
                (default 0 prev
                 + selected_sum (λ k, bool_decide (fst k = Some c)) items))
    end.
Proof.
  revert acc prev.
  induction items as [|[[ch from] n] items IH]; intros acc prev Hkeys Hprev;
    [done|].
  assert (plain_key (ch, from)) as Hkey by (apply Hkeys; by left).
  assert (∀ k, In k (map fst items) → plain_key k) as Hkeys'
    by (intros k Hk; apply Hkeys; by right).
  cbn [fold_left]. unfold selected_sum. cbn [List.filter fst snd].
  case_bool_decide as Hch.
  - subst ch. destruct Hkey as (_ & Hplain & _).
    specialize (Hplain c eq_refl).
    rewrite (IH (unread_item acc (Some c, from, n)) (Some (default 0 prev + n)))
      by (try done; unfold unread_item;
          rewrite (plain_key_truthy c from) by (by apply Hkeys; left);
          cbn [byChannel];
          rewrite (or_zero_plus_number _ c n prev Hplain Hprev);
          rewrite set_property_plain by (by apply Object_prototype_proto);
          by rewrite lookup_insert_eq).
    unfold selected_sum.
    cbn [default fmap option_fmap option_map map snd list_sum].
    destruct (List.filter _ items);
      apply (f_equal (λ x, Some (Js.VNum x))); simpl; unfold id; lia.
  - rewrite (IH (unread_item acc (ch, from, n)) prev); [done|done|].
    rewrite <- Hprev. unfold unread_item. destruct ch as [c'|]; [|done].
    destruct (Js.truthy (Some c')); [|done].
    cbn [byChannel]. apply set_property_other. congruence.
Qed.

Lemma filter_absent_key (key : option string * string)
    (items : list ((option string * string) * nat)) :
  ¬ In key (map fst items) →
  List.filter (λ it, bool_decide (fst it = key)) items = [].
Proof.
  induction items as [|[k n] items IH]; simpl; [done|].
  intros Hnot. case_bool_decide; [naive_solver|]. apply IH. naive_solver.
Qed.

(** The sender entry after the loop, when the keys are plain and pairwise
    distinct. *)
Lemma unread_loop_byConversation (from : string)
    (items : list ((option string * string) * nat)) (acc : UnreadCount) :
  List.NoDup (map fst items) →
  (∀ k, In k (map fst items) → plain_key k) →
  byConversation (fold_left unread_item items acc) !! from
  = match List.filter (λ it, bool_decide (fst it = (None, from))) items with
    | [] => byConversation acc !! from
    | _ :: _ =>
        Some (Js.VNum (selected_sum (λ k, bool_decide (k = (None, from))) items))
    end.
Proof.
  revert acc. induction items as [|[[ch s] n] items IH]; intros acc Hnd Hkeys;
    [done|].
  cbn [map fst] in Hnd, Hkeys. apply List.NoDup_cons_iff in Hnd as [Hhead Hnd].
  assert (plain_key (ch, s)) as Hkey by (apply Hkeys; by left).
  cbn [fold_left]. rewrite IH by (auto; intros k Hk; apply Hkeys; by right).
  unfold selected_sum. cbn [List.filter fst snd].
  case_bool_decide as Heq.
  - injection Heq as -> ->. rewrite (filter_absent_key _ _ Hhead).
    unfold unread_item. cbn [byConversation map snd list_sum].
    rewrite set_property_plain by by apply Hkey.
    rewrite lookup_insert_eq.
    apply (f_equal (λ x, Some (Js.VNum x))). simpl. lia.
  - assert (byConversation (unread_item acc (ch, s, n)) !! from
            = byConversation acc !! from) as ->; [|done].
    unfold unread_item. destruct ch as [c|].
    + by rewrite (plain_key_truthy c s Hkey).
    + cbn [byConversation]. apply set_property_other. congruence.
Qed.

Lemma filter_absent_all {A : Type} (f : A → bool) (l : list A) :
  (∀ x, In x l → f x = false) → List.filter f l = [].
Proof.
  induction l as [|x l IH]; simpl; [done|].
  intros Hall. rewrite (Hall x) by (by left). apply IH. naive_solver.
Qed.

Lemma count_entry_selected (p : option string * string → bool)
    (items : list ((option string * string) * nat)) :
  List.Forall (λ it, (1 ≤ snd it)%nat) items →
  match List.filter (λ it, p (fst it)) items with
  | [] => None
  | _ :: _ => Some (Js.VNum (selected_sum p items))
  end = count_entry (selected_sum p items).
Proof.
  intros Hall. pose proof (selected_sum_positive p items Hall) as Hzero.
  destruct (List.filter (λ it, p (fst it)) items) eqn:Hsel.
  - by rewrite (proj2 Hzero eq_refl).
  - destruct (selected_sum p items); [|done].
    by specialize (proj1 Hzero eq_refl).
Qed.

(** The breakdown of [getUnreadCount], entry by entry. *)
Lemma getUnreadCount_entries (userId : string) (coll : list Message) :
  (∀ m, In m coll → plain_key (channel m, sender m)) →
  (∀ c, byChannel (getUnreadCount userId coll) !! c
        = count_entry (length (filter (unread_in_channel userId c) coll)))
  ∧ (∀ from, byConversation (getUnreadCount userId coll) !! from
             = count_entry
                 (length (filter (unread_direct_from userId from) coll))).
Proof.
  intros Hplain. unfold getUnreadCount.
  set (matched := List.filter (unread_match userId) coll).
  destruct (group_by_channel_sender_spec matched) as (_ & Hnd & Hkeys).
  assert (∀ k, In k (map fst (group_by_channel_sender matched)) → plain_key k)
    as Hplain'.
  { intros k Hk. destruct (Hkeys k Hk) as (m & Hm & ->).
    apply Hplain. by apply filter_In in Hm as [Hm _]. }
  split.
  - intros c.
    set (p := λ k : option string * string, bool_decide (fst k = Some c)).
    destruct (group_by_selected p matched) as [Hsum Hpos].
    assert (selected_sum p (group_by_channel_sender matched)
            = length (filter (unread_in_channel userId c) coll)) as Hclass.
    { rewrite Hsum. unfold matched. rewrite filter_filter_andb.
      apply length_filter_decide. intros m. unfold p, unread_in_channel.
      cbn [fst]. by rewrite andb_true_iff, bool_decide_eq_true, unread_match_spec. }
    rewrite (unread_loop_byChannel c _ _ None) by done.
    cbn [default fmap option_fmap option_map]. rewrite <- Hclass.
    pose proof (count_entry_selected p _ Hpos) as Hentry.
    destruct (List.filter _ _); by rewrite <- Hentry.
  - intros from.
    set (p := λ k : option string * string, bool_decide (k = (None, from))).
    destruct (group_by_selected p matched) as [Hsum Hpos].
    rewrite unread_loop_byConversation by done. cbn [byConversation].
    rewrite lookup_empty.
    assert (selected_sum p (group_by_channel_sender matched)
            = length (filter (unread_direct_from userId from) coll)) as <-.
    { rewrite Hsum. unfold matched. rewrite filter_filter_andb.
      apply length_filter_decide. intros m. unfold p, unread_direct_from.
      rewrite andb_true_iff, bool_decide_eq_true, unread_match_spec.
      split; [intros [? [= -> ->]] | intros (? & -> & ->)]; done. }
    by rewrite <- (count_entry_selected p _ Hpos).
Qed.

(** C8 (as amended): the total is the number of messages that are not
    soft-deleted, were sent by someone else, are addressed to the user
    directly or posted in any channel (joined by the user or not), and
    carry no read receipt of the user.  When no stored message has an
    empty channel name or a channel named like a property that every
    object inherits ([constructor], [toString], [__proto__] and the
    like), and no message without a channel has the sender [__proto__],
    the per-channel and per-sender entries are numbers that add up to the
    total, each channel entry counting the unread messages of its channel
    and each sender entry the unread messages without a channel from that
    sender. *)
Theorem getUnreadCount_total (userId : string) (coll : list Message) :
  total (getUnreadCount userId coll)
  = length (filter (counts_as_unread userId) coll)
  ∧ ((∀ m, In m coll → plain_key (channel m, sender m)) →
     sum_counts (byChannel (getUnreadCount userId coll))
     + sum_counts (byConversation (getUnreadCount userId coll))
     = total (getUnreadCount userId coll)
     ∧ (∀ c, byChannel (getUnreadCount userId coll) !! c
             = count_entry
                 (length (filter (unread_in_channel userId c) coll)))
     ∧ (∀ from, byConversation (getUnreadCount userId coll) !! from
                = count_entry
                    (length (filter (unread_direct_from userId from) coll)))).
Proof.
  split.
  - unfold getUnreadCount.
    destruct (group_by_channel_sender_spec
                (List.filter (unread_match userId) coll)) as (Hsum & _ & _).
    rewrite unread_loop_total, Hsum. simpl. apply unread_match_length.
  - intros Hplain.
    destruct (getUnreadCount_entries userId coll Hplain) as [Hchan Hconv].
    split; [|split; [exact Hchan | exact Hconv]].
    unfold getUnreadCount.
    destruct (group_by_channel_sender_spec
                (List.filter (unread_match userId) coll)) as (Hsum & Hnd & Hkeys).
    rewrite unread_loop_total, unread_loop_breakdown.
    + done.
    + exact Hnd.
    + intros k Hk. destruct (Hkeys k Hk) as (m & Hm & ->).
      apply Hplain. by apply filter_In in Hm as [Hm _].
    + intros from _. apply lookup_empty.
    + apply map_Forall_empty.
Qed.

(** One channel message and one direct message, both unread. *)
Lemma getUnreadCount_total_witness :
  let coll :=
    [mkMessage Sample.m1 "hello" Sample.u1 None (Some "general") None [] []
       false None false None None [] 800;
     mkMessage Sample.m2 "ping" Sample.u1 (Some Sample.u2) None None [] []
       false None false None None [] 810] in
  (∀ m, In m coll → plain_key (channel m, sender m))
  ∧ sum_counts (byChannel (getUnreadCount Sample.u2 coll))
    + sum_counts (byConversation (getUnreadCount Sample.u2 coll))
    = total (getUnreadCount Sample.u2 coll)
  ∧ byChannel (getUnreadCount Sample.u2 coll) !! "general" = Some (Js.VNum 1)
  ∧ byConversation (getUnreadCount Sample.u2 coll) !! Sample.u1
    = Some (Js.VNum 1).
Proof.
  intros coll.
  assert (∀ m, In m coll → plain_key (channel m, sender m)) as Hplain.
  { intros m [<-|[<-|[]]]; repeat split; try discriminate.
    by intros c [= <-]. }
  split; [exact Hplain|].
  destruct (proj2 (getUnreadCount_total Sample.u2 coll) Hplain)
    as (Hsum & Hchan & Hconv).
  split; [exact Hsum|]. split; [apply Hchan | apply Hconv].
Defined.

(** C8 fails as stated: a message in a channel the user has not joined is
    counted.  Here the user participates in ["general"] only and the
    message is in ["ops"]. *)
Lemma unjoined_channel_counted :
  let participates := λ (_ c : string), String.eqb c "general" in
  let coll :=
    [mkMessage Sample.m1 "deploy at noon" Sample.u1 None (Some "ops") None []
       [] false None false None None [] 800] in
  total (getUnreadCount Sample.u2 coll) = 1
  ∧ length (filter (unread_in_joined_channels participates Sample.u2) coll) = 0.
Proof. vm_compute. split; reflexivity. Qed.

(** The [byConversation] entry is assigned, not added to: a direct message
    stored with an empty channel name and one stored without a channel,
    both from the same sender, fall in two groups that write the same
    entry, and the breakdown then misses one of them. *)
Lemma byConversation_overwritten :
  let coll :=
    [mkMessage Sample.m1 "ping" Sample.u1 (Some Sample.u2) None None [] []
       false None false None None [] 800;
     mkMessage Sample.m2 "pong" Sample.u1 (Some Sample.u2) (Some "") None []
       [] false None false None None [] 810] in
  total (getUnreadCount Sample.u2 coll) = 2
  ∧ sum_counts (byChannel (getUnreadCount Sample.u2 coll))
    + sum_counts (byConversation (getUnreadCount Sample.u2 coll)) = 1.
Proof. vm_compute. split; reflexivity. Qed.

(** The breakdowns are plain objects: under a channel named like an
    inherited property the loop finds a function where it expects a
    count and stores a string, and under [__proto__] it stores nothing.
    In both cases the breakdown misses the messages of the channel. *)
Lemma inherited_channel_name :
  let named := λ c,
    [mkMessage Sample.m1 "hello" Sample.u1 None (Some c) None [] [] false None
       false None None [] 800] in
  total (getUnreadCount Sample.u2 (named "constructor")) = 1
  ∧ byChannel (getUnreadCount Sample.u2 (named "constructor")) !! "constructor"
    = Some (Js.VStr "function Object() { [native code] }1")
  ∧ total (getUnreadCount Sample.u2 (named "__proto__")) = 1
  ∧ byChannel (getUnreadCount Sample.u2 (named "__proto__")) = ∅.
Proof. vm_compute. repeat split. Qed.

End UnreadFacts.

(** ** Collections, continued *)

Module CollectionFacts.
Import Mongo.

(** On a collection with unique keys, [updateOne] with a filter that pins
    the key is a [map]: at most one document can match. *)
Lemma updateOne_unique {A : Type} (key : A → string) (id : string)
    (p : A → bool) (update : A → A) (coll : list A) :
  List.NoDup (map key coll) →
  updateOne (λ d, String.eqb (key d) id && p d) update coll
  = (map (λ d, if String.eqb (key d) id && p d then update d else d) coll,
     if existsb (λ d, String.eqb (key d) id && p d) coll then 1 else 0).
Proof.
  induction coll as [|d coll IH]; intros Hnd; [done|].
  cbn [map] in Hnd. apply List.NoDup_cons_iff in Hnd as [Hd Hnd].
  cbn [updateOne map existsb].
  destruct (String.eqb (key d) id && p d) eqn:Hmatch; cbn [orb].
  - f_equal. f_equal. symmetry. erewrite map_ext_in; [apply map_id|].
    intros d' Hd'. cbn beta.
    destruct (String.eqb (key d') id) eqn:Hid; [|done].
    exfalso. apply Hd. apply andb_true_iff in Hmatch as [Hk _].
    apply String.eqb_eq in Hk, Hid. rewrite Hk, <- Hid. by apply in_map.
  - rewrite (IH Hnd). done.
Qed.

Lemma updateOne_ext {A : Type} (f g : A → bool) (update : A → A)
    (coll : list A) :
  (∀ d, f d = g d) → updateOne f update coll = updateOne g update coll.
Proof.
  intros Hfg. induction coll as [|d coll IH]; [done|].
  cbn [updateOne]. by rewrite Hfg, IH.
Qed.

Lemma map_key_preserved {A : Type} (key : A → string) (f : A → A)
    (coll : list A) :
  (∀ d, key (f d) = key d) → map key (map f coll) = map key coll.
Proof. intros Hf. rewrite map_map. apply map_ext. intros d. apply Hf. Qed.

End CollectionFacts.

Module KeyFacts.
Import Mongo.

Lemma find_updateOne {A : Type} (key : A → string) (id id' : string)
    (update : A → A) (coll : list A) :
  (∀ d, key (update d) = key d) →
  List.find (λ d, String.eqb (key d) id)
    (fst (updateOne (λ d, String.eqb (key d) id') update coll))
  = if decide (id = id')
    then update <$> List.find (λ d, String.eqb (key d) id) coll
    else List.find (λ d, String.eqb (key d) id) coll.
Proof.
  intros Hid.
  induction coll as [|x coll IH]; simpl.
  - by destruct (decide _).
  - destruct (String.eqb (key x) id') eqn:Hx; simpl.
    + apply String.eqb_eq in Hx. rewrite Hid.
      destruct (decide (id = id')) as [->|Hne].
      * rewrite Hx, String.eqb_refl. done.
      * rewrite Hx. by destruct (String.eqb id' id) eqn:E;
          [apply String.eqb_eq in E; congruence|].
    + destruct (updateOne _ update coll) as [rest n] eqn:Hu.
      simpl in *. destruct (String.eqb (key x) id) eqn:Hxi.
      * apply String.eqb_eq in Hxi. apply String.eqb_neq in Hx.
        destruct (decide (id = id')); [congruence|done].
      * exact IH.
Qed.

Lemma updateOne_changes {A : Type} (f : A → bool) (update : A → A)
    (coll : list A) :
  List.Forall2 (λ d d', d' = d ∨ (f d = true ∧ d' = update d))
    coll (fst (updateOne f update coll)).
Proof.
  induction coll as [|d coll IH]; simpl; [constructor|].
  destruct (f d) eqn:Hd; simpl.
  - constructor; [by right|]. clear. induction coll; constructor; auto.
  - destruct (updateOne f update coll). constructor; auto.
Qed.

End KeyFacts.

Module GroupFacts.
Import Mongo.

Section Group.
Context {K : Type} `{EqDecision K}.

Lemma count_of_group_inc (key key' : K) (groups : list (K * nat)) :
  count_of key (group_inc key' groups)
  = if decide (key' = key) then Some (S (default 0 (count_of key groups)))
    else count_of key groups.
Proof.
  induction groups as [|[k n] groups IH]; simpl.
  - by destruct (decide (key' = key)).
  - destruct (decide (k = key')) as [->|Hk]; simpl.
    + by destruct (decide (key' = key)).
    + destruct (decide (k = key)) as [->|Hk'].
      * by rewrite decide_False by done.
      * exact IH.
Qed.

Lemma count_of_fold (key : K) (keys : list K) :
  ∀ groups : list (K * nat),
  count_of key (fold_left (λ g k, group_inc k g) keys groups)
  = match occurrences key keys with
    | 0 => count_of key groups
    | S n => Some (default 0 (count_of key groups) + S n)
    end.
Proof.
  unfold occurrences.
  induction keys as [|k keys IH]; intros groups; simpl; [done|].
  rewrite IH, count_of_group_inc.
  case_bool_decide as Hk; simpl.
  - rewrite decide_True by done.
    destruct (length (List.filter _ keys)); simpl; f_equal; lia.
  - by rewrite decide_False by done.
Qed.

Lemma count_of_group_counts (key : K) (keys : list K) :
  count_of key (group_counts keys)
  = match occurrences key keys with 0 => None | S n => Some (S n) end.
Proof.
  unfold group_counts. rewrite count_of_fold. simpl.
  by destruct (occurrences key keys).
Qed.

Lemma fold_sum_acc (groups : list (K * nat)) :
  ∀ a, fold_left (λ sum (stat : K * nat), sum + snd stat) groups a
       = a + sum_of groups.
Proof.
  unfold sum_of.
  induction groups as [|g groups IH]; intros a; simpl; [lia|].
  rewrite IH, (IH (snd g)). lia.
Qed.

Lemma sum_of_cons (g : K * nat) (groups : list (K * nat)) :
  sum_of (g :: groups) = snd g + sum_of groups.
Proof. unfold sum_of at 1. simpl. by rewrite fold_sum_acc. Qed.

Lemma sum_of_group_inc (key : K) (groups : list (K * nat)) :
  sum_of (group_inc key groups) = S (sum_of groups).
Proof.
  induction groups as [|[k n] groups IH]; [done|]. simpl.
  destruct (decide (k = key)).
  - rewrite !sum_of_cons. simpl. lia.
  - rewrite !sum_of_cons, IH. simpl. lia.
Qed.

Lemma sum_of_fold (keys : list K) :
  ∀ groups,
  sum_of (fold_left (λ g k, group_inc k g) keys groups)
  = sum_of groups + length keys.
Proof.
  induction keys as [|k keys IH]; intros groups; simpl; [lia|].
  rewrite IH, sum_of_group_inc. lia.
Qed.

Lemma sum_of_group_counts (keys : list K) :
  sum_of (group_counts keys) = length keys.
Proof. unfold group_counts. by rewrite sum_of_fold. Qed.

Lemma group_inc_keys (key : K) (groups : list (K * nat)) :
  map fst (group_inc key groups)
  = if bool_decide (key ∈ map fst groups) then map fst groups
    else map fst groups ++ [key].
Proof.
  induction groups as [|[k n] groups IH]; simpl; [done|].
  destruct (decide (k = key)) as [->|Hk]; simpl.
  - rewrite bool_decide_eq_true_2; [done|left].
  - rewrite IH. case_bool_decide as Hin.
    + rewrite bool_decide_eq_true_2; [done|by right].
    + rewrite bool_decide_eq_false_2; [done|].
      intros [?|?]%elem_of_cons; congruence.
Qed.

Lemma group_inc_NoDup (key : K) (groups : list (K * nat)) :
  NoDup (map fst groups) → NoDup (map fst (group_inc key groups)).
Proof.
  intros Hnd. rewrite group_inc_keys. case_bool_decide as Hin; [done|].
  apply NoDup_app. repeat split; [done| |apply NoDup_singleton].
  intros x Hx ->%list_elem_of_singleton. done.
Qed.

Lemma group_counts_NoDup (keys : list K) :
  NoDup (map fst (group_counts keys)).
Proof.
  unfold group_counts.
  assert (∀ groups, NoDup (map fst groups) →
    NoDup (map fst (fold_left (λ g k, group_inc k g) keys groups))) as Hgen.
  { induction keys as [|k keys IH]; intros groups Hnd; simpl; [done|].
    by apply IH, group_inc_NoDup. }
  apply Hgen. constructor.
Qed.

Lemma occurrences_map {A : Type} (f : A → K) (key : K) (p : A → bool)
    (l : list A) :
  occurrences key (map f (List.filter p l))
  = countDocuments (λ x, p x && bool_decide (f x = key)) l.
Proof.
  unfold occurrences, countDocuments.
  induction l as [|x l IH]; simpl; [done|].
  destruct (p x); simpl; [|exact IH].
  case_bool_decide; simpl; by rewrite IH.
Qed.

End Group.

Lemma countDocuments_le {A : Type} (p q : A → bool) (l : list A) :
  (∀ x, p x = true → q x = true) →
  (countDocuments p l ≤ countDocuments q l)%nat.
Proof.
  intros Himp. unfold countDocuments.
  induction l as [|x l IH]; simpl; [lia|].
  destruct (p x) eqn:Hp.
  - rewrite (Himp x Hp). simpl. lia.
  - destruct (q x); simpl; lia.
Qed.

Lemma countDocuments_disjoint {A : Type} (p q r : A → bool) (l : list A) :
  (∀ x, p x = true → r x = true) →
  (∀ x, q x = true → r x = true) →
  (∀ x, p x = true → q x = false) →
  (countDocuments p l + countDocuments q l ≤ countDocuments r l)%nat.
Proof.
  intros Hp Hq Hpq. unfold countDocuments.
  induction l as [|x l IH]; simpl; [lia|].
  destruct (p x) eqn:Ep.
  - rewrite (Hp x Ep), (Hpq x Ep). simpl. lia.
  - destruct (q x) eqn:Eq.
    + rewrite (Hq x Eq). simpl. lia.
    + destruct (r x); simpl; lia.
Qed.

Lemma countDocuments_none {A : Type} (p : A → bool) (l : list A) :
  (∀ x, p x = false) → countDocuments p l = 0%nat.
Proof.
  intros Hp. unfold countDocuments.
  induction l as [|x l IH]; simpl; [done|]. by rewrite Hp.
Qed.


End GroupFacts.

(** ** Reactions *)

Module ReactionFacts.
Import Messages.

Lemma unique_ids_same (coll : list Message) (a b : Message) :
  unique_ids coll → In a coll → In b coll → _id a = _id b → a = b.
Proof.
  unfold unique_ids. induction coll as [|d coll IH]; [done|].
  cbn [map]. intros Hnd Ha Hb Hid. apply List.NoDup_cons_iff in Hnd as [Hd Hnd].
  destruct Ha as [->|Ha], Hb as [->|Hb]; auto.
  - exfalso. apply Hd. rewrite Hid. by apply in_map.
  - exfalso. apply Hd. rewrite <- Hid. by apply in_map.
Qed.

Lemma on_id_ids (messageId : string) (f : Message → Message)
    (coll : list Message) :
  (∀ m, _id (f m) = _id m) → map _id (on_id messageId f coll) = map _id coll.
Proof.
  intros Hf. unfold on_id. rewrite map_map. apply map_ext. intros m.
  destruct (String.eqb (_id m) messageId); [apply Hf | done].
Qed.

Lemma findById_In (messageId : string) (coll : list Message) (m : Message) :
  findById messageId coll = Some m → In m coll ∧ _id m = messageId.
Proof.
  unfold findById. intros Hfind. apply find_some in Hfind as [Hin Hid].
  split; [done | by apply String.eqb_eq].
Qed.

(** [addReaction] on a collection with unique identities: the targeted
    message goes through [add_reaction_doc], every other message is left
    as it is. *)
Lemma addReaction_on_target (messageId e userId : string) (coll : list Message) :
  unique_ids coll →
  snd (addReaction messageId e userId coll)
  = on_id messageId (add_reaction_doc e userId) coll.
Proof.
  intros Huniq. unfold addReaction.
  rewrite (CollectionFacts.updateOne_ext _
             (λ m, String.eqb (_id m) messageId
                   && (reactions_emoji e m && negb (reactions_users userId m))))
    by (intros m; by rewrite andb_assoc).
  rewrite (CollectionFacts.updateOne_unique _id) by exact Huniq.
  destruct (existsb _ coll) eqn:Hex; cbn [Nat.eqb snd fst].
  - apply existsb_exists in Hex as (m0 & Hm0 & Hmatch).
    apply andb_true_iff in Hmatch as [Hid0 Hp0]. apply String.eqb_eq in Hid0.
    unfold on_id. apply map_ext_in. intros m Hm.
    destruct (String.eqb (_id m) messageId) eqn:Hid; [|done].
    apply String.eqb_eq in Hid.
    assert (m = m0) as -> by (apply (unique_ids_same coll); congruence).
    rewrite Hp0. cbn [andb]. apply andb_true_iff in Hp0 as [He Hu].
    apply negb_true_iff in Hu. unfold add_reaction_doc. by rewrite He, Hu.
  - assert (map (λ d, if String.eqb (_id d) messageId
                          && (reactions_emoji e d
                              && negb (reactions_users userId d))
                      then push_reaction_user e userId d else d) coll = coll)
      as ->.
    { erewrite map_ext_in; [apply map_id|]. intros m Hm. cbn beta.
      destruct (_ && _) eqn:Hmatch; [|done].
      assert (existsb
                (λ d, String.eqb (_id d) messageId
                      && (reactions_emoji e d && negb (reactions_users userId d)))
                coll = true) by (apply existsb_exists; eauto).
      congruence. }
    rewrite (CollectionFacts.updateOne_unique _id) by exact Huniq.
    cbn [fst]. unfold on_id. apply map_ext_in. intros m Hm.
    destruct (String.eqb (_id m) messageId) eqn:Hid; [|done]. cbn [andb].
    unfold add_reaction_doc.
    destruct (reactions_emoji e m) eqn:He; cbn [negb]; [|done].
    destruct (reactions_users userId m) eqn:Hu; [done|].
    exfalso. rewrite <- not_true_iff_false in Hex. apply Hex.
    apply existsb_exists. exists m. by rewrite Hid, He, Hu.
Qed.

(** [removeReaction] on a collection with unique identities. *)
Lemma removeReaction_on_target (messageId e userId : string)
    (coll : list Message) :
  unique_ids coll →
  snd (removeReaction messageId e userId coll)
  = on_id messageId (remove_reaction_doc e userId) coll.
Proof.
  intros Huniq. unfold removeReaction. cbn [snd].
  rewrite (CollectionFacts.updateOne_unique _id) by exact Huniq. cbn [fst].
  rewrite (CollectionFacts.updateOne_ext _
             (λ m, String.eqb (_id m) messageId && true))
    by (intros m; by rewrite andb_true_r).
  rewrite (CollectionFacts.updateOne_unique _id).
  - cbn [fst]. rewrite map_map. unfold on_id. apply map_ext. intros m.
    unfold remove_reaction_doc.
    destruct (String.eqb (_id m) messageId) eqn:Hid; cbn [andb].
    + destruct (reactions_emoji e m); cbn; by rewrite Hid.
    + by rewrite Hid.
  - unfold unique_ids in Huniq. rewrite map_map.
    erewrite map_ext; [exact Huniq|]. intros m. cbn beta.
    by destruct (_ && _).
Qed.

(** *** What the two operations do to one message *)

Lemma update_first_reaction_emojis (e : string) (f : Reaction → Reaction)
    (rs : list Reaction) :
  (∀ r, emoji (f r) = emoji r) →
  map emoji (update_first_reaction e f rs) = map emoji rs.
Proof.
  intros Hf. induction rs as [|r rs IH]; simpl; [done|].
  destruct (String.eqb (emoji r) e); simpl; by rewrite ?Hf, ?IH.
Qed.

Lemma reactions_emoji_In (e : string) (m : Message) :
  reactions_emoji e m = true ↔ In e (map emoji (reactions m)).
Proof.
  unfold reactions_emoji. rewrite existsb_exists, in_map_iff. split.
  - intros (r & Hr & Heq). apply String.eqb_eq in Heq. eauto.
  - intros (r & Heq & Hr). exists r. split; [done | by apply String.eqb_eq].
Qed.

Lemma add_reaction_doc_id (e userId : string) (m : Message) :
  _id (add_reaction_doc e userId m) = _id m.
Proof.
  unfold add_reaction_doc. destruct (reactions_emoji e m); [|done].
  by destruct (reactions_users userId m).
Qed.

Lemma remove_reaction_doc_id (e userId : string) (m : Message) :
  _id (remove_reaction_doc e userId m) = _id m.
Proof. unfold remove_reaction_doc. by destruct (reactions_emoji e m). Qed.

Lemma add_reaction_doc_invariants (e userId : string) (m : Message) :
  (one_entry_per_emoji m → one_entry_per_emoji (add_reaction_doc e userId m))
  ∧ (no_empty_reaction m → no_empty_reaction (add_reaction_doc e userId m)).
Proof.
  unfold one_entry_per_emoji, no_empty_reaction, add_reaction_doc.
  destruct (reactions_emoji e m) eqn:He.
  - destruct (reactions_users userId m); [done|].
    unfold push_reaction_user. cbn [reactions with_reactions]. split.
    + by rewrite update_first_reaction_emojis.
    + generalize (reactions m). induction l as [|r rs IH]; simpl; [done|].
      intros Hall. apply List.Forall_cons_iff in Hall as [Hr Hall].
      destruct (String.eqb (emoji r) e); constructor; auto.
      simpl. by destruct (users r).
  - unfold push_reaction. cbn [reactions with_reactions]. split.
    + intros Hnd. rewrite map_app. cbn [map emoji].
      apply NoDup_ListNoDup, NoDup_app. repeat split.
      * by apply NoDup_ListNoDup.
      * intros x Hx Hx'. apply list_elem_of_In in Hx.
        apply list_elem_of_singleton in Hx'. subst x.
        apply reactions_emoji_In in Hx. congruence.
      * apply NoDup_singleton.
    + intros Hall. apply List.Forall_app. split; [done|].
      by repeat constructor.
Qed.

Lemma reactions_users_has_reacted (e userId : string) (m : Message) :
  has_reacted e userId m = true → reactions_users userId m = true.
Proof.
  unfold has_reacted, reactions_users. rewrite !existsb_exists.
  intros (r & Hr & Hboth). apply andb_true_iff in Hboth as [_ Hu]. eauto.
Qed.

Lemma reactions_emoji_has_reacted (e userId : string) (m : Message) :
  has_reacted e userId m = true → reactions_emoji e m = true.
Proof.
  unfold has_reacted, reactions_emoji. rewrite !existsb_exists.
  intros (r & Hr & Hboth). apply andb_true_iff in Hboth as [He _]. eauto.
Qed.

(** Adding the same reaction a second time changes nothing. *)
Lemma add_reaction_doc_twice (e userId : string) (m : Message) :
  add_reaction_doc e userId (add_reaction_doc e userId m)
  = add_reaction_doc e userId m.
Proof.
  destruct (MessageFacts.addReaction_adds m e userId) as [Hnew Hold].
  destruct (reactions_emoji e m) eqn:He.
  - destruct (reactions_users userId m) eqn:Hu.
    + assert (add_reaction_doc e userId m = m) as Hsame
        by (unfold add_reaction_doc; by rewrite He, Hu).
      by rewrite !Hsame.
    + assert (add_reaction_doc e userId m = push_reaction_user e userId m)
        as -> by (unfold add_reaction_doc; by rewrite He, Hu).
      specialize (Hold eq_refl). unfold add_reaction_doc.
      rewrite (reactions_users_has_reacted e userId _ Hold).
      by rewrite (reactions_emoji_has_reacted e userId _ Hold).
  - assert (add_reaction_doc e userId m = push_reaction e userId m)
      as -> by (unfold add_reaction_doc; by rewrite He).
    unfold add_reaction_doc.
    rewrite (reactions_users_has_reacted e userId _ Hnew).
    assert (reactions_emoji e (push_reaction e userId m) = true) as ->; [|done].
    unfold reactions_emoji, push_reaction. cbn [reactions with_reactions].
    rewrite existsb_app. simpl. by rewrite String.eqb_refl, orb_true_r.
Qed.

Lemma with_reactions_same (m : Message) : with_reactions (reactions m) m = m.
Proof. by destruct m. Qed.

Lemma filter_users_absent (userId : string) (us : list string) :
  Js.includes us userId = false →
  List.filter (λ u, negb (String.eqb u userId)) us = us.
Proof.
  unfold Js.includes. induction us as [|u us IH]; simpl; [done|].
  intros Hno. apply orb_false_iff in Hno as [Hu Hno].
  rewrite String.eqb_sym, Hu. simpl. by rewrite IH.
Qed.

Lemma filter_nonempty_all (rs : list Reaction) :
  List.Forall (λ r, users r ≠ []) rs →
  List.filter (λ r, negb (Nat.eqb (length (users r)) 0)) rs = rs.
Proof.
  induction rs as [|r rs IH]; simpl; [done|].
  intros Hall. apply List.Forall_cons_iff in Hall as [Hr Hall].
  destruct (users r); [done|]. simpl. by rewrite IH.
Qed.

(** Removing a reaction the user does not have, from a message without
    empty entries, changes nothing. *)
Lemma remove_reaction_doc_absent (e userId : string) (m : Message) :
  has_reacted e userId m = false → no_empty_reaction m →
  remove_reaction_doc e userId m = m.
Proof.
  unfold has_reacted, no_empty_reaction, remove_reaction_doc. intros Habs Hne.
  assert (update_first_reaction e
            (λ r, mkReaction (emoji r)
                    (List.filter (λ u, negb (String.eqb u userId)) (users r)))
            (reactions m) = reactions m) as Hsame.
  { revert Habs. generalize (reactions m).
    induction l as [|r rs IH]; simpl; [done|].
    intros Habs. apply orb_false_iff in Habs as [Hr Habs].
    destruct (String.eqb (emoji r) e); simpl in *.
    - rewrite filter_users_absent by done. by destruct r.
    - by rewrite IH. }
  assert (pull_empty_reactions m = m) as Hprune.
  { unfold pull_empty_reactions. rewrite filter_nonempty_all by done.
    apply with_reactions_same. }
  destruct (reactions_emoji e m); [|done].
  unfold pull_reaction_user. by rewrite Hsame, with_reactions_same.
Qed.

(** After a removal no entry is empty, entries stay one per emoji, and the
    user is no longer listed under the emoji. *)
Lemma remove_reaction_doc_result (e userId : string) (m : Message) :
  no_empty_reaction (remove_reaction_doc e userId m)
  ∧ (one_entry_per_emoji m →
     one_entry_per_emoji (remove_reaction_doc e userId m)
     ∧ has_reacted e userId (remove_reaction_doc e userId m) = false).
Proof.
  unfold no_empty_reaction, one_entry_per_emoji, remove_reaction_doc,
    has_reacted.
  set (pulled := update_first_reaction e
                   (λ r, mkReaction (emoji r)
                           (List.filter (λ u, negb (String.eqb u userId))
                              (users r))) (reactions m)).
  assert (reactions (pull_empty_reactions
            (if reactions_emoji e m then pull_reaction_user e userId m else m))
          = List.filter (λ r, negb (Nat.eqb (length (users r)) 0))
              (if reactions_emoji e m then pulled else reactions m)) as ->
    by (by destruct (reactions_emoji e m)).
  split.
  - apply List.Forall_forall. intros r Hr. apply filter_In in Hr as [_ Hr].
    by destruct (users r).
  - intros Hnd.
    assert (∀ rs, List.NoDup (map emoji rs) →
              List.NoDup (map emoji
                (List.filter (λ r, negb (Nat.eqb (length (users r)) 0)) rs)))
      as Hfilter.
    { induction rs as [|r rs IH]; simpl; [done|]. intros Hr.
      apply List.NoDup_cons_iff in Hr as [Hhead Hr].
      destruct (negb _); simpl; [|by apply IH].
      constructor; [|by apply IH]. intros Hin. apply Hhead.
      apply in_map_iff in Hin as (r' & Heq & Hr').
      apply filter_In in Hr' as [Hr' _]. apply in_map_iff. eauto. }
    assert (List.NoDup (map emoji pulled)) as Hpulled
      by (unfold pulled; by rewrite update_first_reaction_emojis).
    split; [destruct (reactions_emoji e m); by apply Hfilter|].
    apply not_true_iff_false. intros Hhas.
    apply existsb_exists in Hhas as (r & Hr & Hboth).
    apply andb_true_iff in Hboth as [He Hu]. apply String.eqb_eq in He.
    apply filter_In in Hr as [Hr _].
    assert (reactions_emoji e m = true) as Hem.
    { apply reactions_emoji_In. destruct (reactions_emoji e m) eqn:Hex.
      - by apply reactions_emoji_In.
      - rewrite <- He. by apply in_map. }
    rewrite Hem in Hr. clear Hpulled Hfilter. unfold pulled in Hr.
    revert Hnd Hr. generalize (reactions m).
    induction l as [|r0 rs IH]; simpl; [done|]. intros Hnd Hr.
    apply List.NoDup_cons_iff in Hnd as [Hhead Hnd].
    destruct (String.eqb (emoji r0) e) eqn:Hr0.
    + destruct Hr as [<-|Hr].
      * simpl in Hu. unfold Js.includes in Hu.
        apply existsb_exists in Hu as (u & Hin & Heq).
        apply filter_In in Hin as [_ Hne]. apply String.eqb_eq in Heq.
        subst u. by rewrite String.eqb_refl in Hne.
      * apply Hhead. apply String.eqb_eq in Hr0. rewrite Hr0, <- He.
        by apply in_map.
    + apply String.eqb_neq in Hr0.
      destruct Hr as [<-|Hr]; [congruence | by apply IH].
Qed.

(** Adding a reaction for a user who has none on the message, then
    removing it, gives the message back. *)
Lemma add_then_remove_doc (e userId : string) (m : Message) :
  reactions_users userId m = false → no_empty_reaction m →
  remove_reaction_doc e userId (add_reaction_doc e userId m) = m.
Proof.
  intros Hu Hne. unfold add_reaction_doc. rewrite Hu.
  assert (∀ us, Js.includes us userId = false →
            List.filter (λ u, negb (String.eqb u userId)) (us ++ [userId]) = us)
    as Hpull.
  { intros us Hus. rewrite List.filter_app, filter_users_absent by done.
    simpl. by rewrite String.eqb_refl, app_nil_r. }
  unfold remove_reaction_doc, no_empty_reaction, reactions_users in *.
  destruct (reactions_emoji e m) eqn:He.
  - assert (reactions_emoji e (push_reaction_user e userId m) = true) as ->.
    { apply reactions_emoji_In. unfold push_reaction_user.
      cbn [reactions with_reactions].
      rewrite update_first_reaction_emojis by done.
      by apply reactions_emoji_In. }
    unfold pull_empty_reactions, pull_reaction_user, push_reaction_user.
    cbn [reactions with_reactions].
    assert (update_first_reaction e
              (λ r, mkReaction (emoji r)
                      (List.filter (λ u, negb (String.eqb u userId)) (users r)))
              (update_first_reaction e
                 (λ r, mkReaction (emoji r) (users r ++ [userId]))
                 (reactions m)) = reactions m) as ->.
    { revert Hu. generalize (reactions m).
      induction l as [|r rs IH]; simpl; [done|]. intros Hu.
      apply orb_false_iff in Hu as [Hr Hu].
      destruct (String.eqb (emoji r) e) eqn:Hre; simpl; rewrite Hre.
      - simpl. rewrite Hpull by done. by destruct r.
      - by rewrite IH. }
    rewrite filter_nonempty_all by done. by destruct m.
  - assert (reactions_emoji e (push_reaction e userId m) = true) as ->.
    { unfold reactions_emoji, push_reaction. cbn [reactions with_reactions].
      rewrite existsb_app. simpl. by rewrite String.eqb_refl, orb_true_r. }
    unfold pull_empty_reactions, pull_reaction_user, push_reaction.
    cbn [reactions with_reactions].
    assert (update_first_reaction e
              (λ r, mkReaction (emoji r)
                      (List.filter (λ u, negb (String.eqb u userId)) (users r)))
              (reactions m ++ [mkReaction e [userId]])
            = reactions m ++ [mkReaction e []]) as ->.
    { unfold reactions_emoji in He. revert He. generalize (reactions m).
      induction l as [|r rs IH]; simpl.
      - intros _. by rewrite !String.eqb_refl.
      - intros He. apply orb_false_iff in He as [Hr He]. rewrite Hr.
        by rewrite IH. }
    rewrite List.filter_app, filter_nonempty_all by done. simpl.
    rewrite app_nil_r. by destruct m.
Qed.

End ReactionFacts.

Module ReactionRules.
Import Messages.
Import ReactionFacts.

Lemma findById_on_id (messageId : string) (f : Message → Message)
    (coll : list Message) (m : Message) :
  (∀ x, _id (f x) = _id x) →
  findById messageId coll = Some m →
  findById messageId (on_id messageId f coll) = Some (f m).
Proof.
  intros Hf. unfold findById, on_id.
  induction coll as [|d coll IH]; simpl; [done|].
  destruct (String.eqb (_id d) messageId) eqn:Hd.
  - intros [= ->]. by rewrite Hf, Hd.
  - rewrite Hd. apply IH.
Qed.

Lemma findById_on_id_none (messageId : string) (f : Message → Message)
    (coll : list Message) :
  findById messageId coll = None → on_id messageId f coll = coll.
Proof.
  unfold findById, on_id. induction coll as [|d coll IH]; simpl; [done|].
  destruct (String.eqb (_id d) messageId); [done|].
  intros Hnone. by rewrite IH.
Qed.

Lemma on_id_same (messageId : string) (f : Message → Message)
    (coll : list Message) (m : Message) :
  unique_ids coll → findById messageId coll = Some m → f m = m →
  on_id messageId f coll = coll.
Proof.
  intros Huniq Hfind Hsame. apply findById_In in Hfind as [Hin Hid].
  unfold on_id. erewrite map_ext_in; [apply map_id|]. intros x Hx. cbn beta.
  destruct (String.eqb (_id x) messageId) eqn:Hx'; [|done].
  apply String.eqb_eq in Hx'.
  by rewrite (unique_ids_same coll x m Huniq Hx Hin) by congruence.
Qed.

Lemma on_id_Forall (P : Message → Prop) (messageId : string)
    (f : Message → Message) (coll : list Message) :
  (∀ m, P m → P (f m)) → List.Forall P coll →
  List.Forall P (on_id messageId f coll).
Proof.
  intros Hf Hall. unfold on_id. apply List.Forall_map.
  eapply List.Forall_impl; [|exact Hall]. intros m Hm. cbn beta.
  destruct (String.eqb (_id m) messageId); auto.
Qed.

(** X1: The identities, the one-entry-per-emoji rule and the absence of empty
    entries are kept by [addReaction] on every stored message. *)
Theorem addReaction_keeps_invariants (messageId e userId : string)
    (coll : list Message) :
  unique_ids coll →
  List.Forall one_entry_per_emoji coll →
  List.Forall no_empty_reaction coll →
  unique_ids (snd (addReaction messageId e userId coll))
  ∧ List.Forall one_entry_per_emoji (snd (addReaction messageId e userId coll))
  ∧ List.Forall no_empty_reaction (snd (addReaction messageId e userId coll)).
Proof.
  intros Huniq Hone Hne. rewrite addReaction_on_target by done.
  split; [|split].
  - unfold unique_ids. by rewrite on_id_ids by apply add_reaction_doc_id.
  - apply on_id_Forall; [|done]. intros m. apply add_reaction_doc_invariants.
  - apply on_id_Forall; [|done]. intros m. apply add_reaction_doc_invariants.
Qed.

(** A thumbs-up by [u2]; [u3] adds a heart. *)
Lemma addReaction_keeps_invariants_witness :
  let coll :=
    [mkMessage "m1" "hello" "u1" None (Some "general") None [] [] false None
       false None None [mkReaction "+1" ["u2"]] 800] in
  unique_ids coll
  ∧ List.Forall one_entry_per_emoji coll
  ∧ List.Forall no_empty_reaction coll
  ∧ unique_ids (snd (addReaction "m1" "heart" "u3" coll))
  ∧ List.Forall one_entry_per_emoji (snd (addReaction "m1" "heart" "u3" coll))
  ∧ List.Forall no_empty_reaction (snd (addReaction "m1" "heart" "u3" coll)).
Proof.
  intros coll.
  assert (unique_ids coll) as H1 by (unfold unique_ids; sample).
  assert (List.Forall one_entry_per_emoji coll) as H2
    by (unfold one_entry_per_emoji; sample).
  assert (List.Forall no_empty_reaction coll) as H3
    by (unfold no_empty_reaction; sample).
  split; [exact H1|]. split; [exact H2|]. split; [exact H3|].
  exact (addReaction_keeps_invariants "m1" "heart" "u3" coll H1 H2 H3).
Defined.

(** X2: [removeReaction] keeps the same invariants and, whatever the message
    held before, leaves no empty entry on the targeted message. *)
Theorem removeReaction_keeps_invariants (messageId e userId : string)
    (coll : list Message) :
  unique_ids coll →
  List.Forall one_entry_per_emoji coll →
  unique_ids (snd (removeReaction messageId e userId coll))
  ∧ List.Forall one_entry_per_emoji
      (snd (removeReaction messageId e userId coll))
  ∧ (∀ m', fst (removeReaction messageId e userId coll) = Some m' →
           no_empty_reaction m' ∧ has_reacted e userId m' = false).
Proof.
  intros Huniq Hone.
  assert (fst (removeReaction messageId e userId coll)
          = findById messageId (snd (removeReaction messageId e userId coll)))
    as Hfst by done.
  rewrite Hfst, removeReaction_on_target by done. split; [|split].
  - unfold unique_ids. by rewrite on_id_ids by apply remove_reaction_doc_id.
  - apply on_id_Forall; [|done]. intros m Hm.
    by apply remove_reaction_doc_result.
  - intros m' Hm'. destruct (findById messageId coll) as [m|] eqn:Hfind.
    + rewrite (findById_on_id _ _ _ m) in Hm'
        by (done || apply remove_reaction_doc_id).
      injection Hm' as <-.
      destruct (remove_reaction_doc_result e userId m) as [Hne Hrest].
      split; [done|]. apply Hrest.
      apply findById_In in Hfind as [Hin _].
      by apply (proj1 (List.Forall_forall _ _) Hone).
    + rewrite findById_on_id_none in Hm' by done. congruence.
Qed.

(** The only user of the thumbs-up takes it back. *)
Lemma removeReaction_keeps_invariants_witness :
  let coll :=
    [mkMessage "m1" "hello" "u1" None (Some "general") None [] [] false None
       false None None [mkReaction "+1" ["u2"]] 800] in
  unique_ids coll
  ∧ List.Forall one_entry_per_emoji coll
  ∧ ∀ m', fst (removeReaction "m1" "+1" "u2" coll) = Some m' →
          no_empty_reaction m' ∧ has_reacted "+1" "u2" m' = false.
Proof.
  intros coll.
  assert (unique_ids coll) as H1 by (unfold unique_ids; sample).
  assert (List.Forall one_entry_per_emoji coll) as H2
    by (unfold one_entry_per_emoji; sample).
  split; [exact H1|]. split; [exact H2|].
  exact (proj2 (proj2 (removeReaction_keeps_invariants "m1" "+1" "u2" coll
                         H1 H2))).
Defined.

(** X3: Repeating an [addReaction] call changes nothing more. *)
Theorem addReaction_idempotent (messageId e userId : string)
    (coll : list Message) :
  unique_ids coll →
  snd (addReaction messageId e userId
         (snd (addReaction messageId e userId coll)))
  = snd (addReaction messageId e userId coll).
Proof.
  intros Huniq. rewrite (addReaction_on_target _ _ _ coll) by done.
  rewrite addReaction_on_target
    by (unfold unique_ids; by rewrite on_id_ids by apply add_reaction_doc_id).
  unfold on_id. rewrite map_map. apply map_ext. intros m.
  destruct (String.eqb (_id m) messageId) eqn:Hid; [|by rewrite Hid].
  by rewrite add_reaction_doc_id, Hid, add_reaction_doc_twice.
Qed.

(** [u3] sends the same heart twice. *)
Lemma addReaction_idempotent_witness :
  let coll :=
    [mkMessage "m1" "hello" "u1" None (Some "general") None [] [] false None
       false None None [mkReaction "+1" ["u2"]] 800] in
  unique_ids coll
  ∧ snd (addReaction "m1" "heart" "u3"
           (snd (addReaction "m1" "heart" "u3" coll)))
    = snd (addReaction "m1" "heart" "u3" coll).
Proof.
  intros coll.
  assert (unique_ids coll) as H1 by (unfold unique_ids; sample).
  split; [exact H1|].
  exact (addReaction_idempotent "m1" "heart" "u3" coll H1).
Defined.

(** X4: A user with no reaction at all on a message gets listed under the
    emoji by [addReaction]. *)
Theorem addReaction_first_reaction (messageId e userId : string)
    (coll : list Message) (m : Message) :
  unique_ids coll →
  findById messageId coll = Some m →
  reactions_users userId m = false →
  ∃ m', fst (addReaction messageId e userId coll) = Some m'
        ∧ has_reacted e userId m' = true
        ∧ _id m' = messageId.
Proof.
  intros Huniq Hfind Hu.
  assert (fst (addReaction messageId e userId coll)
          = findById messageId (snd (addReaction messageId e userId coll)))
    as ->.
  { unfold addReaction. by destruct (Mongo.updateOne _ _ coll). }
  rewrite addReaction_on_target by done.
  rewrite (findById_on_id _ _ _ m) by (done || apply add_reaction_doc_id).
  eexists. split; [done|]. split.
  - destruct (MessageFacts.addReaction_adds m e userId) as [Hnew Hold].
    unfold add_reaction_doc. rewrite Hu.
    destruct (reactions_emoji e m); auto.
  - rewrite add_reaction_doc_id. by apply findById_In in Hfind as [_ ?].
Qed.

(** [u3], who has not reacted yet, adds a heart. *)
Lemma addReaction_first_reaction_witness :
  let m :=
    mkMessage "m1" "hello" "u1" None (Some "general") None [] [] false None
      false None None [mkReaction "+1" ["u2"]] 800 in
  unique_ids [m]
  ∧ findById "m1" [m] = Some m
  ∧ reactions_users "u3" m = false
  ∧ ∃ m', fst (addReaction "m1" "heart" "u3" [m]) = Some m'
          ∧ has_reacted "heart" "u3" m' = true
          ∧ _id m' = "m1".
Proof.
  intros m.
  assert (unique_ids [m]) as H1 by (unfold unique_ids; sample).
  assert (findById "m1" [m] = Some m) as H2 by reflexivity.
  assert (reactions_users "u3" m = false) as H3 by reflexivity.
  split; [exact H1|]. split; [exact H2|]. split; [exact H3|].
  exact (addReaction_first_reaction "m1" "heart" "u3" [m] m H1 H2 H3).
Defined.

(** Removing a reaction that the user does not have, or on a message that
    does not exist, leaves the collection as it is. *)
Lemma removeReaction_absent (messageId e userId : string)
    (coll : list Message) :
  unique_ids coll →
  (∀ m, findById messageId coll = Some m →
        has_reacted e userId m = false ∧ no_empty_reaction m) →
  removeReaction messageId e userId coll = (findById messageId coll, coll).
Proof.
  intros Huniq Habs.
  assert (snd (removeReaction messageId e userId coll) = coll) as Hsnd.
  { rewrite removeReaction_on_target by done.
    destruct (findById messageId coll) as [m|] eqn:Hfind.
    - destruct (Habs m eq_refl) as [Hno Hne].
      apply (on_id_same _ _ _ m); try done.
      by apply remove_reaction_doc_absent.
    - by apply findById_on_id_none. }
  assert (fst (removeReaction messageId e userId coll)
          = findById messageId (snd (removeReaction messageId e userId coll)))
    as Hfst by done.
  rewrite Hsnd in Hfst. destruct (removeReaction messageId e userId coll).
  simpl in *. by subst.
Qed.

(** X5: Adding a reaction for a user who has none on the message and then
    removing it restores the collection. *)
Theorem addReaction_then_removeReaction (messageId e userId : string)
    (coll : list Message) :
  unique_ids coll →
  (∀ m, findById messageId coll = Some m →
        reactions_users userId m = false ∧ no_empty_reaction m) →
  snd (removeReaction messageId e userId
         (snd (addReaction messageId e userId coll))) = coll.
Proof.
  intros Huniq Hfresh. rewrite addReaction_on_target by done.
  rewrite removeReaction_on_target
    by (unfold unique_ids; by rewrite on_id_ids by apply add_reaction_doc_id).
  unfold on_id. rewrite map_map.
  erewrite map_ext_in; [apply map_id|]. intros m Hm. cbn beta.
  destruct (String.eqb (_id m) messageId) eqn:Hid; [|by rewrite Hid].
  rewrite add_reaction_doc_id, Hid.
  assert (findById messageId coll = Some m) as Hfind.
  { destruct (findById messageId coll) as [m0|] eqn:Hfind.
    - apply findById_In in Hfind as [Hin0 Hid0]. apply String.eqb_eq in Hid.
      f_equal. apply (unique_ids_same coll); congruence.
    - unfold findById in Hfind. eapply find_none in Hfind; [|exact Hm].
      simpl in Hfind. congruence. }
  destruct (Hfresh m Hfind). by apply add_then_remove_doc.
Qed.

(** [u3] adds a heart and takes it back. *)
Lemma addReaction_then_removeReaction_witness :
  let coll :=
    [mkMessage "m1" "hello" "u1" None (Some "general") None [] [] false None
       false None None [mkReaction "+1" ["u2"]] 800] in
  unique_ids coll
  ∧ (∀ m, findById "m1" coll = Some m →
          reactions_users "u3" m = false ∧ no_empty_reaction m)
  ∧ snd (removeReaction "m1" "heart" "u3"
           (snd (addReaction "m1" "heart" "u3" coll))) = coll.
Proof.
  intros coll.
  assert (unique_ids coll) as H1 by (unfold unique_ids; sample).
  assert (∀ m, findById "m1" coll = Some m →
               reactions_users "u3" m = false ∧ no_empty_reaction m) as H2.
  { intros m [= <-]. split; [reflexivity|]. unfold no_empty_reaction. sample. }
  split; [exact H1|]. split; [exact H2|].
  exact (addReaction_then_removeReaction "m1" "heart" "u3" coll H1 H2).
Defined.

End ReactionRules.

(** ** Read receipts, deletion and edition *)

Module ReadFacts.
Import Messages.
Import ReactionFacts.
Import ReactionRules.

Lemma readBy_user_push (userId : string) (now : Z) (m : Message) :
  readBy_user userId (push_readBy userId now m) = true.
Proof.
  unfold readBy_user, push_readBy. cbn [readBy with_readBy].
  rewrite existsb_app. simpl. by rewrite String.eqb_refl, orb_true_r.
Qed.

(** X6: After [markAsRead] every listed message carries a receipt of the user,
    and a second call, at any later time, changes nothing; when a listed
    string is no identity the call throws and writes nothing. *)
Theorem markAsRead_idempotent (ObjectId : string → option string)
    (messageIds : list string) (userId : string)
    (now later : Z) (coll : list Message) :
  (∀ ids, mapM ObjectId messageIds = Some ids →
     fst (markAsRead ObjectId messageIds userId now coll) = Js.Returns tt
     ∧ List.Forall (λ m, In (_id m) ids → already_read userId m)
         (snd (markAsRead ObjectId messageIds userId now coll)))
  ∧ markAsRead ObjectId messageIds userId later
      (snd (markAsRead ObjectId messageIds userId now coll))
    = markAsRead ObjectId messageIds userId now coll
  ∧ (mapM ObjectId messageIds = None →
     markAsRead ObjectId messageIds userId now coll = (Js.Throws, coll)).
Proof.
  unfold markAsRead, Mongo.updateMany.
  destruct (mapM ObjectId messageIds) as [ids|]; cbn [fst snd];
    [|by repeat split].
  split; [|split; [|done]].
  - intros ? [= <-]. split; [done|].
    apply List.Forall_map, List.Forall_forall. intros m _ Hin.
    apply MessageFacts.readBy_user_spec.
    destruct (Js.includes ids (_id m) && negb (readBy_user userId m))
      eqn:Hf.
    + apply readBy_user_push.
    + apply JsFacts.includes_In in Hin. rewrite Hin in Hf. simpl in Hf.
      by apply negb_false_iff in Hf.
  - f_equal. rewrite map_map. apply map_ext. intros m.
    destruct (Js.includes ids (_id m) && negb (readBy_user userId m))
      eqn:Hf.
    + by rewrite readBy_user_push, andb_false_r.
    + by rewrite Hf.
Qed.

(** The total of [getUnreadCount] is the number of documents selected by
    its [$match] stage. *)
Lemma getUnreadCount_counts (userId : string) (coll : list Message) :
  total (getUnreadCount userId coll)
  = length (List.filter (unread_match userId) coll).
Proof.
  unfold getUnreadCount.
  destruct (UnreadFacts.group_by_channel_sender_spec
              (List.filter (unread_match userId) coll)) as (Hsum & _ & _).
  rewrite UnreadFacts.unread_loop_total, Hsum. done.
Qed.

(** Pushing a receipt on the documents selected by any filter removes
    exactly those from the unread messages of the user. *)
Lemma unread_after_receipts (f : Message → bool) (userId : string) (now : Z)
    (coll : list Message) :
  List.filter (unread_match userId)
    (Mongo.updateMany f (push_readBy userId now) coll)
  = List.filter (λ m, unread_match userId m && negb (f m)) coll.
Proof.
  unfold Mongo.updateMany. induction coll as [|m coll IH]; [done|].
  cbn [map List.filter]. rewrite IH. destruct (f m) eqn:Hf.
  - assert (unread_match userId (push_readBy userId now m) = false) as ->.
    { unfold unread_match. by rewrite readBy_user_push, andb_false_r. }
    by rewrite andb_false_r.
  - by rewrite andb_true_r.
Qed.

(** X7: Marking messages as read lowers the unread total by the listed
    messages that were unread: afterwards the total counts the unread
    messages whose identity is not among the cast of the listed ones.
    When the call throws the total is as before. *)
Theorem unread_total_after_markAsRead (ObjectId : string → option string)
    (messageIds : list string) (userId : string) (now : Z)
    (coll : list Message) :
  total (getUnreadCount userId
           (snd (markAsRead ObjectId messageIds userId now coll)))
  = match mapM ObjectId messageIds with
    | Some ids =>
        length (filter (λ m, counts_as_unread userId m ∧ _id m ∉ ids) coll)
    | None => length (filter (counts_as_unread userId) coll)
    end.
Proof.
  rewrite getUnreadCount_counts. unfold markAsRead.
  destruct (mapM ObjectId messageIds) as [ids|]; cbn [snd].
  - rewrite unread_after_receipts.
    apply UnreadFacts.length_filter_decide. intros m.
    rewrite andb_true_iff, negb_true_iff, UnreadFacts.unread_match_spec.
    rewrite <- not_true_iff_false, andb_true_iff, JsFacts.includes_In.
    rewrite negb_true_iff, <- not_true_iff_false, MessageFacts.readBy_user_spec.
    rewrite <- list_elem_of_In. unfold counts_as_unread. tauto.
  - apply UnreadFacts.unread_match_length.
Qed.

(** A listed identity written in upper case. *)
Lemma unread_total_after_markAsRead_witness :
  let m :=
    mkMessage "65f0c0ffee65f0c0ffee00a1" "hello" Sample.u1 None (Some "general")
      None [] [] false None false None None [] 800 in
  total (getUnreadCount Sample.u2 [m]) = 1
  ∧ total (getUnreadCount Sample.u2
             (snd (markAsRead hexObjectId ["65F0C0FFEE65F0C0FFEE00A1"] Sample.u2
                     900 [m]))) = 0.
Proof.
  intros m. split; [reflexivity|].
  exact (unread_total_after_markAsRead hexObjectId
           ["65F0C0FFEE65F0C0FFEE00A1"] Sample.u2 900 [m]).
Defined.

(** X8: After marking a conversation as read, every stored message of the
    selected channel and counterpart (every message at all when neither is
    given) carries a receipt of the user; with neither, the unread total
    of the user drops to zero. *)
Theorem markConversationAsRead_clears (userId : string)
    (options : ConversationOptions) (now : Z) (coll : list Message) :
  List.Forall
    (λ m, (Js.truthy (opt_channel options) = true →
           channel m = opt_channel options) →
          (Js.truthy (opt_recipientId options) = true →
           Some (sender m) = opt_recipientId options
           ∧ recipient m = Some userId) →
          already_read userId m)
    (markConversationAsRead userId options now coll)
  ∧ total (getUnreadCount userId
             (markConversationAsRead userId (mkConversationOptions None None)
                now coll)) = 0.
Proof.
  split.
  - unfold markConversationAsRead, Mongo.updateMany.
    apply List.Forall_map, List.Forall_forall. intros m _.
    destruct (conversation_query userId options m) eqn:Hq.
    + intros _ _. apply MessageFacts.readBy_user_spec, readBy_user_push.
    + intros Hch Hrec. apply MessageFacts.readBy_user_spec.
      destruct (readBy_user userId m) eqn:Hread; [done|]. exfalso.
      unfold conversation_query in Hq. rewrite Hread in Hq. cbn [negb andb] in Hq.
      destruct (Js.truthy (opt_channel options)).
      * rewrite bool_decide_eq_true_2 in Hq by auto. cbn [andb] in Hq.
        destruct (Js.truthy (opt_recipientId options)); [|done].
        destruct Hrec as [Hs Hr]; [done|].
        by rewrite !bool_decide_eq_true_2 in Hq.
      * cbn [andb] in Hq.
        destruct (Js.truthy (opt_recipientId options)); [|done].
        destruct Hrec as [Hs Hr]; [done|].
        by rewrite !bool_decide_eq_true_2 in Hq.
  - rewrite getUnreadCount_counts. unfold markConversationAsRead.
    rewrite unread_after_receipts.
    rewrite (UnreadFacts.filter_absent_all _ coll); [done|].
    intros m _. unfold unread_match, conversation_query. simpl.
    rewrite !andb_true_r. destruct (readBy_user userId m); simpl;
      by rewrite ?andb_false_r.
Qed.

(** *** Deleting and editing *)

Lemma mark_deleted_id (now : Z) (m : Message) : _id (mark_deleted now m) = _id m.
Proof. done. Qed.

(** The soft-delete update leaves a message as it is exactly when the
    message already carries the flag and the same date. *)
Lemma mark_deleted_same (now : Z) (m : Message) :
  mark_deleted now m = m ↔ isDeleted m = true ∧ deletedAt m = Some now.
Proof.
  destruct m. unfold mark_deleted. cbn.
  split; [intros [= <- <-] | intros [-> ->]]; done.
Qed.

(** On a collection with unique identities, a conditional update of the
    document with a given identity either rewrites that document or
    nothing. *)
Lemma target_update (messageId : string) (p : Message → bool)
    (update : Message → Message) (coll : list Message) (m : Message) :
  unique_ids coll → findById messageId coll = Some m →
  Mongo.updateOne (λ d, String.eqb (_id d) messageId && p d) update coll
  = if p m then (on_id messageId update coll, 1) else (coll, 0).
Proof.
  intros Huniq Hfind. pose proof (findById_In _ _ _ Hfind) as [Hin Hid].
  rewrite (CollectionFacts.updateOne_unique _id) by exact Huniq.
  assert (∀ x, In x coll → String.eqb (_id x) messageId = true → x = m)
    as Hsame.
  { intros x Hx Hx'. apply String.eqb_eq in Hx'.
    apply (unique_ids_same coll); congruence. }
  destruct (p m) eqn:Hp.
  - assert (existsb (λ d, String.eqb (_id d) messageId && p d) coll = true)
      as ->.
    { apply existsb_exists. exists m.
      by rewrite Hp, (proj2 (String.eqb_eq _ _) Hid). }
    f_equal. unfold on_id. apply map_ext_in. intros x Hx.
    destruct (String.eqb (_id x) messageId) eqn:Hx'; [|done].
    by rewrite (Hsame x Hx Hx'), Hp.
  - assert (∀ x, In x coll → String.eqb (_id x) messageId && p x = false)
      as Hnone.
    { intros x Hx. destruct (String.eqb (_id x) messageId) eqn:Hx'; [|done].
      by rewrite (Hsame x Hx Hx'), Hp. }
    assert (existsb (λ d, String.eqb (_id d) messageId && p d) coll = false)
      as ->.
    { apply not_true_iff_false. intros Hex.
      apply existsb_exists in Hex as (x & Hx & Hmatch).
      by rewrite Hnone in Hmatch. }
    f_equal. erewrite map_ext_in; [apply map_id|].
    intros x Hx. cbn beta. by rewrite Hnone.
Qed.

Lemma target_find (messageId : string) (p : Message → bool)
    (coll : list Message) (m : Message) :
  unique_ids coll → findById messageId coll = Some m →
  List.find (λ d, String.eqb (_id d) messageId && p d) coll
  = if p m then Some m else None.
Proof.
  intros Huniq Hfind. pose proof (findById_In _ _ _ Hfind) as [Hin Hid].
  destruct (List.find _ coll) as [x|] eqn:Hx.
  - apply find_some in Hx as [Hx Hmatch].
    apply andb_true_iff in Hmatch as [Hx' Hp]. apply String.eqb_eq in Hx'.
    assert (x = m) as -> by (apply (unique_ids_same coll); congruence).
    by rewrite Hp.
  - destruct (p m) eqn:Hp; [|done].
    eapply find_none in Hx; [|exact Hin]. cbn beta in Hx.
    by rewrite Hp, (proj2 (String.eqb_eq _ _) Hid) in Hx.
Qed.

Lemma find_missing (messageId : string) (p : Message → bool)
    (coll : list Message) :
  findById messageId coll = None →
  List.find (λ d, String.eqb (_id d) messageId && p d) coll = None.
Proof.
  unfold findById. induction coll as [|d coll IH]; simpl; [done|].
  destruct (String.eqb (_id d) messageId); [done|]. apply IH.
Qed.

Lemma find_ext {A : Type} (f g : A → bool) (l : list A) :
  (∀ x, f x = g x) → List.find f l = List.find g l.
Proof.
  intros Hfg. induction l as [|x l IH]; simpl; [done|]. by rewrite Hfg, IH.
Qed.

Lemma deleteMessage_on_target (messageId userId : string) (now : Z)
    (coll : list Message) :
  unique_ids coll →
  match findById messageId coll with
  | Some m =>
      deleteMessage messageId userId now coll
      = if String.eqb (sender m) userId
        then (negb (isDeleted m && bool_decide (deletedAt m = Some now)),
              on_id messageId (mark_deleted now) coll)
        else (false, coll)
  | None => deleteMessage messageId userId now coll = (false, coll)
  end.
Proof.
  intros Huniq. unfold deleteMessage, Mongo.modifiedCount. cbv zeta.
  set (p := λ m : Message, String.eqb (sender m) userId).
  change (λ m, String.eqb (_id m) messageId && String.eqb (sender m) userId)
    with (λ d, String.eqb (_id d) messageId && p d).
  destruct (findById messageId coll) as [m|] eqn:Hfind.
  - rewrite (target_find messageId p coll m Huniq Hfind).
    rewrite (target_update messageId p (mark_deleted now) coll m Huniq Hfind).
    unfold p. destruct (String.eqb (sender m) userId); [|done].
    cbn [fst]. f_equal.
    destruct (decide (mark_deleted now m = m)) as [Hsame|Hdiff].
    + apply mark_deleted_same in Hsame as [-> ->].
      by rewrite bool_decide_eq_true_2.
    + destruct (isDeleted m) eqn:Hdel; [|done].
      case_bool_decide as Hat; [|done].
      exfalso. apply Hdiff. by apply mark_deleted_same.
  - rewrite (find_missing messageId p coll Hfind).
    assert (Mongo.updateOne
              (λ d, String.eqb (_id d) messageId && p d) (mark_deleted now) coll
            = (coll, 0)) as ->; [|done].
    rewrite (CollectionFacts.updateOne_unique _id) by exact Huniq.
    assert (∀ x, In x coll → String.eqb (_id x) messageId = false) as Hnone.
    { intros x Hx. unfold findById in Hfind.
      by apply (find_none _ _ Hfind). }
    assert (existsb (λ d, String.eqb (_id d) messageId && p d) coll = false)
      as ->.
    { apply not_true_iff_false. intros Hex.
      apply existsb_exists in Hex as (x & Hx & Hmatch).
      by rewrite Hnone in Hmatch. }
    f_equal. erewrite map_ext_in; [apply map_id|].
    intros x Hx. cbn beta. by rewrite Hnone.
Qed.

(** X9: [deleteMessage] on a stored message: when the caller is the sender
    it sets the soft-delete flag and date of that message only, and it
    returns true unless the message already carried this flag and this
    very date (the update then modifies nothing); when the caller is not
    the sender, or the message is missing, it returns false and writes
    nothing. *)
Theorem deleteMessage_by_sender_only (messageId userId : string) (now : Z)
    (coll : list Message) :
  unique_ids coll →
  match findById messageId coll with
  | Some m =>
      deleteMessage messageId userId now coll
      = if String.eqb (sender m) userId
        then (negb (isDeleted m && bool_decide (deletedAt m = Some now)),
              on_id messageId (mark_deleted now) coll)
        else (false, coll)
  | None => deleteMessage messageId userId now coll = (false, coll)
  end.
Proof. apply deleteMessage_on_target. Qed.

(** The sender deletes a message, then once more at the same instant; and
    someone else tries. *)
Lemma deleteMessage_by_sender_only_witness :
  let m :=
    mkMessage Sample.m1 "hello" Sample.u1 None (Some "general") None [] []
      false None false None None [] 800 in
  unique_ids [m]
  ∧ deleteMessage Sample.m1 Sample.u1 900 [m] = (true, [mark_deleted 900 m])
  ∧ unique_ids [mark_deleted 900 m]
  ∧ deleteMessage Sample.m1 Sample.u1 900 [mark_deleted 900 m]
    = (false, [mark_deleted 900 m])
  ∧ deleteMessage Sample.m1 Sample.u2 900 [m] = (false, [m]).
Proof.
  intros m.
  assert (unique_ids [m]) as H1 by (unfold unique_ids; sample).
  assert (unique_ids [mark_deleted 900 m]) as H2 by (unfold unique_ids; sample).
  split; [exact H1|].
  split; [exact (deleteMessage_by_sender_only Sample.m1 Sample.u1 900 [m] H1)|].
  split; [exact H2|].
  split;
    [exact (deleteMessage_by_sender_only Sample.m1 Sample.u1 900
              [mark_deleted 900 m] H2)|].
  exact (deleteMessage_by_sender_only Sample.m1 Sample.u2 900 [m] H1).
Defined.

End ReadFacts.

Module EditFacts.
Import Messages.
Import ReactionFacts.
Import ReactionRules.
Import ReadFacts.

Lemma editMessage_on_target (messageId newContent userId : string)
    (now : Z) (coll : list Message) :
  unique_ids coll →
  editMessage messageId newContent userId now coll
  = match findById messageId coll with
    | Some m =>
        if String.eqb (sender m) userId && negb (isDeleted m)
           && content_valid newContent
        then (Some (mark_edited newContent now m),
              on_id messageId (mark_edited newContent now) coll)
        else (None, coll)
    | None => (None, coll)
    end.
Proof.
  intros Huniq. unfold editMessage.
  set (own := λ m, String.eqb (_id m) messageId && String.eqb (sender m) userId
                   && negb (isDeleted m)).
  set (p := λ m, String.eqb (sender m) userId && negb (isDeleted m)).
  assert (∀ d, own d = String.eqb (_id d) messageId && p d) as Hown
    by (intros d; unfold own, p; by rewrite andb_assoc).
  rewrite (find_ext own (λ d, String.eqb (_id d) messageId && p d)) by done.
  destruct (findById messageId coll) as [m|] eqn:Hfind.
  - rewrite (target_find _ p _ m) by done. fold (p m).
    destruct (p m) eqn:Hp; [|done]. cbn [andb].
    destruct (content_valid newContent); [|done].
    rewrite (CollectionFacts.updateOne_ext own
               (λ d, String.eqb (_id d) messageId && p d)) by done.
    change (λ m0, mkMessage (_id m0) newContent (sender m0) (recipient m0)
                    (channel m0) (taskRef m0) (mentions m0) (readBy m0) true
                    (Some now) (isDeleted m0) (deletedAt m0) (replyTo m0)
                    (reactions m0) (createdAt m0))
      with (mark_edited newContent now).
    rewrite (target_update _ p _ _ m) by done. rewrite Hp. cbn [fst].
    f_equal. by apply (findById_on_id _ _ _ m).
  - by rewrite find_missing.
Qed.

(** X10: [editMessage] on a collection with unique identities: the edit goes
    through exactly when the message exists, was sent by the caller, is
    not soft-deleted and the new content is valid; it then rewrites the
    content and the edit marks of that message only.  In every other case
    the call fails and writes nothing. *)
Theorem editMessage_by_sender_only (messageId newContent userId : string)
    (now : Z) (coll : list Message) :
  unique_ids coll →
  editMessage messageId newContent userId now coll
  = match findById messageId coll with
    | Some m =>
        if String.eqb (sender m) userId && negb (isDeleted m)
           && content_valid newContent
        then (Some (mark_edited newContent now m),
              on_id messageId (mark_edited newContent now) coll)
        else (None, coll)
    | None => (None, coll)
    end.
Proof. apply editMessage_on_target. Qed.

(** [u2] tries to edit a message of [u1]. *)
Lemma editMessage_by_sender_only_witness :
  let coll :=
    [mkMessage "m1" "hello" "u1" None (Some "general") None [] [] false None
       false None None [] 800] in
  unique_ids coll ∧ editMessage "m1" "bye" "u2" 900 coll = (None, coll).
Proof.
  intros coll.
  assert (unique_ids coll) as H1 by (unfold unique_ids; sample).
  split; [exact H1|].
  exact (editMessage_by_sender_only "m1" "bye" "u2" 900 coll H1).
Defined.

(** X11: After a successful [deleteMessage] the message is gone from every
    [getMessages] page, is not counted as unread for anyone, and can no
    longer be edited, even by its sender. *)
Theorem deleted_message_is_hidden (messageId userId : string) (now : Z)
    (coll : list Message) :
  unique_ids coll →
  fst (deleteMessage messageId userId now coll) = true →
  (∀ filters options,
     List.Forall (λ m, _id m ≠ messageId)
       (fst (getMessages filters options
               (snd (deleteMessage messageId userId now coll)))))
  ∧ (∀ reader,
       List.Forall (λ m, _id m ≠ messageId)
         (List.filter (unread_match reader)
            (snd (deleteMessage messageId userId now coll))))
  ∧ (∀ newContent editor later,
       editMessage messageId newContent editor later
         (snd (deleteMessage messageId userId now coll))
       = (None, snd (deleteMessage messageId userId now coll))).
Proof.
  intros Huniq Hok.
  pose proof (deleteMessage_on_target messageId userId now coll Huniq)
    as Hdel.
  destruct (findById messageId coll) as [m|] eqn:Hfind;
    [|by rewrite Hdel in Hok].
  destruct (String.eqb (sender m) userId); [|by rewrite Hdel in Hok].
  rewrite Hdel. cbn [snd].
  assert (∀ x, In x (on_id messageId (mark_deleted now) coll) →
               _id x = messageId → isDeleted x = true) as Hflag.
  { intros x Hx Hid. unfold on_id in Hx. apply in_map_iff in Hx as (y & <- & _).
    destruct (String.eqb (_id y) messageId) eqn:Hy; [done|].
    apply String.eqb_neq in Hy. done. }
  assert (unique_ids (on_id messageId (mark_deleted now) coll)) as Huniq'
    by (unfold unique_ids; by rewrite on_id_ids).
  split; [|split].
  - intros filters options. apply List.Forall_forall. intros x Hx Hid.
    apply MessageFacts.getMessages_In in Hx as [Hx Hq].
    unfold getMessages_query in Hq. rewrite !andb_true_iff in Hq.
    destruct Hq as [[[[[Hq _] _] _] _] _].
    by rewrite (Hflag x Hx Hid) in Hq.
  - intros reader. apply List.Forall_forall. intros x Hx Hid.
    apply filter_In in Hx as [Hx Hq]. unfold unread_match in Hq.
    rewrite !andb_true_iff in Hq. destruct Hq as [[[Hq _] _] _].
    by rewrite (Hflag x Hx Hid) in Hq.
  - intros newContent editor later.
    rewrite editMessage_on_target by done.
    rewrite (findById_on_id _ _ _ m) by done. cbn [isDeleted mark_deleted negb].
    by rewrite andb_false_r.
Qed.

(** [u1] deletes their message and then tries to edit it. *)
Lemma deleted_message_is_hidden_witness :
  let coll :=
    [mkMessage "m1" "hello" "u1" None (Some "general") None [] [] false None
       false None None [] 800] in
  unique_ids coll
  ∧ fst (deleteMessage "m1" "u1" 900 coll) = true
  ∧ editMessage "m1" "bye" "u1" 950 (snd (deleteMessage "m1" "u1" 900 coll))
    = (None, snd (deleteMessage "m1" "u1" 900 coll)).
Proof.
  intros coll.
  assert (unique_ids coll) as H1 by (unfold unique_ids; sample).
  assert (fst (deleteMessage "m1" "u1" 900 coll) = true) as H2 by reflexivity.
  split; [exact H1|]. split; [exact H2|].
  exact (proj2 (proj2 (deleted_message_is_hidden "m1" "u1" 900 coll H1 H2))
           "bye" "u1" 950%Z).
Defined.

End EditFacts.

(** ** Pages and the send route *)

Module PageFacts.
Import Messages.

Lemma insert_by_createdAt_length (m : Message) (l : list Message) :
  length (insert_by_createdAt m l) = S (length l).
Proof.
  induction l as [|x l IH]; simpl; [done|].
  destruct (createdAt x <? createdAt m)%Z; simpl; by rewrite ?IH.
Qed.

Lemma sort_newest_first_length (l : list Message) :
  length (sort_newest_first l) = length l.
Proof.
  induction l as [|x l IH]; simpl; [done|].
  by rewrite insert_by_createdAt_length, IH.
Qed.

Lemma insert_by_createdAt_sorted (m : Message) (l : list Message) :
  newest_first l → newest_first (insert_by_createdAt m l).
Proof.
  induction l as [|x l IH]; simpl; [done|]. intros [Hx Hl].
  destruct (createdAt x <? createdAt m)%Z eqn:Hlt; simpl.
  - apply Z.ltb_lt in Hlt. split; [|done].
    intros m' [<-|Hm']; [lia|]. specialize (Hx m' Hm'). lia.
  - apply Z.ltb_ge in Hlt. split; [|by apply IH].
    intros m' Hm'. apply MessageFacts.insert_by_createdAt_In in Hm'.
    destruct Hm' as [->|Hm']; [done | by apply Hx].
Qed.

Lemma sort_newest_first_sorted (l : list Message) :
  newest_first (sort_newest_first l).
Proof.
  induction l as [|x l IH]; simpl; [done|].
  by apply insert_by_createdAt_sorted.
Qed.

Lemma newest_first_firstn (n : nat) (l : list Message) :
  newest_first l → newest_first (firstn n l).
Proof.
  revert l. induction n as [|n IH]; intros [|x l]; simpl; try done.
  intros [Hx Hl]. split; [|by apply IH].
  intros m' Hm'. apply Hx. by apply (MessageFacts.firstn_In_inv _ n).
Qed.

Lemma newest_first_removelast (l : list Message) :
  newest_first l → newest_first (removelast l).
Proof.
  induction l as [|x l IH]; [done|]. intros [Hx Hl].
  destruct l as [|y l]; [done|].
  change (removelast (x :: y :: l)) with (x :: removelast (y :: l)).
  split; [|by apply IH].
  intros m' Hm'. apply Hx. by apply MessageFacts.removelast_In.
Qed.

Lemma newest_first_app (l : list Message) (x : Message) :
  chronological l → (∀ m, In m l → (createdAt m ≤ createdAt x)%Z) →
  chronological (l ++ [x]).
Proof.
  induction l as [|y l IH]; simpl; [done|]. intros [Hy Hl] Hall.
  split; [|apply IH; auto].
  intros m' Hm'. apply in_app_iff in Hm' as [Hm'|[<-|[]]]; auto.
Qed.

Lemma newest_first_rev (l : list Message) :
  newest_first l → chronological (rev l).
Proof.
  induction l as [|x l IH]; simpl; [done|]. intros [Hx Hl].
  apply newest_first_app; [by apply IH|].
  intros m Hm. apply Hx. by apply in_rev.
Qed.

Lemma removelast_length {A : Type} (l : list A) :
  length (removelast l) = length l - 1.
Proof.
  induction l as [|x l IH]; [done|].
  destruct l as [|y l]; [done|].
  change (removelast (x :: y :: l)) with (x :: removelast (y :: l)).
  simpl length in *. rewrite IH. lia.
Qed.

(** X12: A page of [getMessages]: at most [limit] messages, oldest first;
    [hasMore] tells exactly whether more than [limit] stored messages
    match the query, and without it the page holds all of them. *)
Theorem getMessages_page (filters : MessageFilters)
    (options : PaginationOptions) (coll : list Message) :
  let limit := default 50 (o_limit options) in
  let matching :=
    Mongo.countDocuments (getMessages_query filters (o_before options)) coll in
  let page := fst (getMessages filters options coll) in
  let hasMore := snd (getMessages filters options coll) in
  length page = Nat.min limit matching
  ∧ (hasMore = true ↔ limit < matching)
  ∧ chronological page.
Proof.
  cbv zeta. unfold getMessages, Mongo.countDocuments. cbn [fst snd].
  set (limit := default 50 (o_limit options)).
  set (found := List.filter (getMessages_query filters (o_before options)) coll).
  assert (length (firstn (limit + 1) (sort_newest_first found))
          = Nat.min (limit + 1) (length found)) as Hlen
    by (by rewrite length_firstn, sort_newest_first_length).
  rewrite length_rev. split; [|split].
  - destruct (Nat.ltb _ _) eqn:Hmore.
    + apply Nat.ltb_lt in Hmore. rewrite removelast_length. lia.
    + apply Nat.ltb_ge in Hmore. lia.
  - rewrite Nat.ltb_lt. lia.
  - apply newest_first_rev.
    pose proof (newest_first_firstn (limit + 1) _
                  (sort_newest_first_sorted found)) as Hsorted.
    destruct (Nat.ltb _ _); [by apply newest_first_removelast | done].
Qed.

(** X13: The send route either stores exactly one new message, sent by the
    caller, unread, without reactions and not deleted, and answers 201; or
    it answers 400, writes nothing and emits nothing. *)
Theorem post_message_all_or_nothing (trim : string → string)
    (isMongoId : string → bool) (body : SendMessageData)
    (userId newId : string) (now : Z) (coll : list Message) :
  let result := post_message trim isMongoId body userId newId now coll in
  (status_code (fst (fst result)) = 201
   ∧ ∃ m, snd (fst result) = coll ++ [m]
          ∧ _id m = newId ∧ sender m = userId ∧ createdAt m = now
          ∧ readBy m = [] ∧ reactions m = [] ∧ isDeleted m = false)
  ∨ (status_code (fst (fst result)) = 400
     ∧ snd (fst result) = coll ∧ snd result = []).
Proof.
  cbv zeta. unfold post_message.
  destruct (validate_send trim isMongoId body) as [body'|]; [|by right].
  destruct (negb (Js.truthy (d_recipient body'))
            && negb (Js.truthy (d_channel body'))) eqn:Hshape; [by right|].
  unfold sendMessage.
  destruct (message_valid (new_Message trim body' userId newId now));
    [|by right].
  left. split; [done|]. eexists. split; [done|]. cbn.
  repeat split.
Qed.

End PageFacts.

(** ** The audit trail of tasks *)

Module TrailFacts.
Import Tasks.







(** *** The general [updated] record and the empty proposal *)

Lemma apply_no_updates (t : Task) :
  apply_updateData no_updates None None [] t = t.
Proof. destruct t. unfold apply_updateData. simpl. by rewrite app_nil_r. Qed.

Lemma updateOne_identity {A : Type} (f : A → bool) (update : A → A)
    (coll : list A) :
  (∀ d, update d = d) → fst (Mongo.updateOne f update coll) = coll.
Proof.
  intros Hid. induction coll as [|d coll IH]; simpl; [done|].
  destruct (f d); simpl; [by rewrite Hid|].
  destruct (Mongo.updateOne f update coll). simpl in *. by rewrite IH.
Qed.

(** The proposals with no key or a single key list the keys of their
    present values. *)
Lemma named_proposals_keys (s : TaskStatus) (ids : list string)
    (d : option Z) :
  Object_keys no_updates = present_keys no_updates
  ∧ Object_keys (status_only s) = present_keys (status_only s)
  ∧ Object_keys (assignees_only ids) = present_keys (assignees_only ids)
  ∧ Object_keys (dueDate_only d) = present_keys (dueDate_only d).
Proof. done. Qed.

(** X15: The empty proposal changes nothing: no activity, no field, and the
    task is returned as stored. *)
Theorem empty_update_changes_nothing (ObjectId : string → option string)
    (taskId actorId : string) (now : Z) (tasks : list Task) :
  updateTask ObjectId taskId no_updates actorId now tasks
  = (Js.Returns (findById taskId tasks), tasks).
Proof.
  unfold updateTask. destruct (findById taskId tasks) as [task|] eqn:Hfind;
    [|done].
  assert (updateTask_activities task no_updates actorId now = []) as -> by done.
  cbn [cast_assignees cast_parentTask no_updates u_assignees u_parentTask].
  rewrite updateOne_identity by apply apply_no_updates. by rewrite Hfind.
Qed.



(** *** The due date rule *)

(** X17: The due date rule compares calendar days in UTC: moving the due date
    within the same day is recorded as a plain [updated] activity, not as
    a change of due date, while an explicit [null] is recorded as a
    removal even when the task had no due date. *)
Theorem due_date_rule_by_day (task : Task) (actorId : string) (now : Z) :
  (∀ old new,
     dueDate task = Some old → (old / 86400000 = new / 86400000)%Z →
     updateTask_activities task (dueDate_only (Some new)) actorId now
     = [mkActivity updated actorId "Task updated" (Some (MFields ["dueDate"]))
          now])
  ∧ (dueDate task = None →
     updateTask_activities task (dueDate_only None) actorId now
     = [mkActivity due_date_changed actorId "Due date removed"
          (Some (MDueDate None None)) now]).
Proof.
  split.
  - intros old new Hold Hday.
    unfold updateTask_activities, due_date_activity, status_activity,
      priority_activity, assignee_activities. cbn [dueDate_only u_status
      u_priority u_dueDate u_assignees]. rewrite Hold. cbn [fmap option_fmap
      option_map day_differs].
    assert (Js.toISODay old = Js.toISODay new) as ->
      by (unfold Js.toISODay; by rewrite Hday).
    by rewrite String.eqb_refl.
  - intros Hnone.
    unfold updateTask_activities, due_date_activity, status_activity,
      priority_activity, assignee_activities. cbn [dueDate_only u_status
      u_priority u_dueDate u_assignees]. by rewrite Hnone.
Qed.

(** From 08:00 to 20:00 on the first day of the epoch. *)
Lemma due_date_rule_by_day_witness :
  let task :=
    mkTask "t1" "Ship release" None todo medium [] "u1" (Some 28800000%Z) None
      None 0 [] [] None [] None 0 in
  dueDate task = Some 28800000%Z
  ∧ (28800000 / 86400000 = 72000000 / 86400000)%Z
  ∧ updateTask_activities task (dueDate_only (Some 72000000%Z)) "u2" 1000
    = [mkActivity updated "u2" "Task updated" (Some (MFields ["dueDate"]))
         1000].
Proof.
  intros task.
  assert (dueDate task = Some 28800000%Z) as H1 by reflexivity.
  assert (28800000 / 86400000 = 72000000 / 86400000)%Z as H2 by reflexivity.
  split; [exact H1|]. split; [exact H2|].
  exact (proj1 (due_date_rule_by_day task "u2" 1000) 28800000%Z 72000000%Z
           H1 H2).
Defined.

End TrailFacts.

Module BulkFacts.
Import Tasks.

(** X18: [bulkUpdateStatus] casts the listed identities and returns the
    number of stored tasks whose identity is among them; each of these
    takes the new status and gets one more [status_changed] activity
    without metadata, also when it already had that status; its
    [completedAt] and every other task stay as they were.  When a listed
    string is no identity the call throws and writes nothing. *)
Theorem bulkUpdateStatus_effect (ObjectId : string → option string)
    (taskIds : list string) (newStatus : TaskStatus)
    (actorId : string) (now : Z) (tasks : list Task) :
  match mapM ObjectId taskIds with
  | Some ids =>
      fst (bulkUpdateStatus ObjectId taskIds newStatus actorId now tasks)
      = Js.Returns (length (filter (λ t, _id t ∈ ids) tasks))
      ∧ List.Forall2
          (λ t t',
             if decide (_id t ∈ ids)
             then status t' = newStatus
                  ∧ completedAt t' = completedAt t
                  ∧ ∃ a, activities t' = activities t ++ [a]
                         ∧ act_type a = status_changed ∧ act_metadata a = None
                         ∧ act_actor a = actorId
             else t' = t)
          tasks
          (snd (bulkUpdateStatus ObjectId taskIds newStatus actorId now tasks))
  | None =>
      bulkUpdateStatus ObjectId taskIds newStatus actorId now tasks
      = (Js.Throws, tasks)
  end.
Proof.
  unfold bulkUpdateStatus, Mongo.countDocuments, Mongo.updateMany.
  destruct (mapM ObjectId taskIds) as [ids|]; [|done].
  cbn [fst snd]. split.
  - f_equal. apply UnreadFacts.length_filter_decide. intros t.
    by rewrite JsFacts.includes_In, list_elem_of_In.
  - induction tasks as [|t tasks IH]; simpl; constructor; [|done].
    destruct (decide (_id t ∈ ids)) as [Hin|Hout].
    + apply list_elem_of_In, JsFacts.includes_In in Hin. rewrite Hin.
      repeat split. eexists. by repeat split.
    + destruct (Js.includes ids (_id t)) eqn:Hinc; [|done].
      exfalso. by apply Hout, list_elem_of_In, JsFacts.includes_In.
Qed.

(** A stored task listed in upper case is updated and counted. *)
Lemma bulkUpdateStatus_effect_witness :
  let t :=
    mkTask "65f0c0ffee65f0c0ffee00a1" "Ship release" None todo medium []
      Sample.u1 None None None 0 [] [] None [] None 0 in
  fst (bulkUpdateStatus Messages.hexObjectId ["65F0C0FFEE65F0C0FFEE00A1"]
         done Sample.u2 1000 [t]) = Js.Returns 1.
Proof.
  intros t.
  exact (proj1 (bulkUpdateStatus_effect Messages.hexObjectId
                  ["65F0C0FFEE65F0C0FFEE00A1"] done Sample.u2 1000 [t])).
Defined.






(** *** Stored assignees *)








End BulkFacts.

(** ** Board order, statistics and calendar *)

Module BoardFacts.
Import Tasks.

Lemma findById_updateOne (id id' : string) (update : Task → Task)
    (tasks : list Task) :
  (∀ t, _id (update t) = _id t) →
  findById id (fst (Mongo.updateOne (λ t, String.eqb (_id t) id') update tasks))
  = if decide (id = id') then update <$> findById id tasks
    else findById id tasks.
Proof. intros Hid. by apply (KeyFacts.find_updateOne _id). Qed.

Lemma reorder_from_findById (ids : list string) :
  ∀ (k : nat) (tasks : list Task),
  (∀ i id, ids !! i = Some id →
     (∀ j, (i < j)%nat → ids !! j ≠ Some id) →
     findById id (reorder_from k ids tasks)
     = set_order (Z.of_nat (k + i)) <$> findById id tasks)
  ∧ (∀ id, id ∉ ids →
     findById id (reorder_from k ids tasks) = findById id tasks).
Proof.
  induction ids as [|id0 ids IH]; intros k tasks.
  - split; [intros i id; by rewrite lookup_nil | done].
  - destruct (IH (S k)
      (fst (Mongo.updateOne (λ t, String.eqb (_id t) id0)
              (set_order (Z.of_nat k)) tasks))) as [IH1 IH2].
    split.
    + intros [|i] id Hi Hlast; simpl in Hi.
      * injection Hi as ->. cbn [reorder_from].
        rewrite IH2.
        -- rewrite findById_updateOne by done.
           rewrite decide_True by done. by rewrite Nat.add_0_r.
        -- intros Hin. apply list_elem_of_lookup_1 in Hin as [j Hj].
           by apply (Hlast (S j)); [lia|].
      * cbn [reorder_from]. rewrite (IH1 i id Hi).
        -- rewrite findById_updateOne by done.
           replace (S k + i)%nat with (k + S i)%nat by lia.
           destruct (decide (id = id0)); [|done].
           by destruct (findById id tasks).
        -- intros j Hj. apply (Hlast (S j)). lia.
    + intros id Hid. apply not_elem_of_cons in Hid as [Hne Hid].
      cbn [reorder_from]. rewrite IH2 by done.
      rewrite findById_updateOne by done. by rewrite decide_False.
Qed.

Lemma set_order_twice (i j : Z) (t : Task) :
  set_order j (set_order i t) = set_order j t.
Proof. done. Qed.

Lemma reorder_from_Forall2 (ids : list string) :
  ∀ (k : nat) (tasks : list Task),
  List.Forall2
    (λ t t', t' = t
             ∨ ∃ i, ids !! i = Some (_id t)
                    ∧ t' = set_order (Z.of_nat (k + i)) t)
    tasks (reorder_from k ids tasks).
Proof.
  induction ids as [|id0 ids IH]; intros k tasks; cbn [reorder_from].
  - induction tasks; constructor; auto.
  - specialize (IH (S k)
      (fst (Mongo.updateOne (λ t, String.eqb (_id t) id0)
              (set_order (Z.of_nat k)) tasks))).
    revert IH.
    generalize (reorder_from (S k) ids
      (fst (Mongo.updateOne (λ t, String.eqb (_id t) id0)
              (set_order (Z.of_nat k)) tasks))).
    induction tasks as [|x tasks IHt]; intros l; simpl.
    + intros H. inversion H. constructor.
    + destruct (String.eqb (_id x) id0) eqn:Hx; simpl.
      * apply String.eqb_eq in Hx. intros H. inversion H as [|a b la lb Hab Hrest]; subst.
        constructor.
        -- destruct Hab as [->|(i & Hi & ->)].
           ++ right. exists 0%nat. split; [done|]. f_equal; lia.
           ++ right. exists (S i). split; [done|].
              rewrite set_order_twice.
              f_equal; lia.
        -- clear -Hrest. revert lb Hrest.
           induction tasks as [|y tasks IHy]; intros lb Hrest;
             inversion Hrest; subst; constructor.
           ++ destruct H1 as [->|(i & Hi & ->)]; [by left|].
              right. exists (S i). split; [done|].
              f_equal; lia.
           ++ by apply IHy.
      * destruct (Mongo.updateOne _ _ tasks) as [rest n] eqn:Hu.
        simpl in *. intros H. inversion H as [|a b la lb Hab Hrest]; subst.
        constructor.
        -- destruct Hab as [->|(i & Hi & ->)]; [by left|].
           right. exists (S i). split; [done|].
           f_equal; lia.
        -- by apply IHt.
Qed.

(** X22: [reorderTasks], given at least one identity, casts the listed
    identities; the first stored task
    of each of them gets as [order] the last position at which the
    identity is listed, so its position when no identity is listed twice.
    Every stored task is left as it was or differs only in its [order],
    which is then a position at which its identity is listed.  When a
    listed string is no identity the call throws and writes nothing. *)
Theorem reorderTasks_positions (ObjectId : string → option string)
    (orderedTaskIds : list string) (tasks : list Task) :
  orderedTaskIds ≠ [] →
  match mapM ObjectId orderedTaskIds with
  | Some ids =>
      fst (reorderTasks ObjectId orderedTaskIds tasks) = Js.Returns tt
      ∧ (∀ i id, ids !! i = Some id →
           (∀ j, (i < j)%nat → ids !! j ≠ Some id) →
           findById id (snd (reorderTasks ObjectId orderedTaskIds tasks))
           = set_order (Z.of_nat i) <$> findById id tasks)
      ∧ List.Forall2
          (λ t t', t' = t
                   ∨ ∃ i, ids !! i = Some (_id t)
                          ∧ t' = set_order (Z.of_nat i) t)
          tasks (snd (reorderTasks ObjectId orderedTaskIds tasks))
  | None => reorderTasks ObjectId orderedTaskIds tasks = (Js.Throws, tasks)
  end.
Proof.
  intros _. unfold reorderTasks.
  destruct (mapM ObjectId orderedTaskIds) as [ids|]; [|done].
  cbn [fst snd]. split; [done|]. split.
  - intros i id Hi Hlast.
    destruct (reorder_from_findById ids 0 tasks) as [H _].
    by rewrite (H i id Hi Hlast).
  - apply (reorder_from_Forall2 ids 0 tasks).
Qed.

(** Two stored tasks listed in the opposite order, the second of them a
    second time in upper case. *)
Lemma reorderTasks_positions_witness :
  let t1 :=
    mkTask "65f0c0ffee65f0c0ffee00a1" "Ship release" None todo medium []
      Sample.u1 None None None 0 [] [] None [] None 0 in
  let t2 :=
    mkTask "65f0c0ffee65f0c0ffee00b2" "Write notes" None todo medium []
      Sample.u1 None None None 0 [] [] None [] None 0 in
  let listed :=
    ["65f0c0ffee65f0c0ffee00b2"; "65f0c0ffee65f0c0ffee00a1";
     "65F0C0FFEE65F0C0FFEE00B2"] in
  listed ≠ []
  ∧ findById "65f0c0ffee65f0c0ffee00a1"
      (snd (reorderTasks Messages.hexObjectId listed [t1; t2]))
    = Some (set_order 1 t1)
  ∧ findById "65f0c0ffee65f0c0ffee00b2"
      (snd (reorderTasks Messages.hexObjectId listed [t1; t2]))
    = Some (set_order 2 t2).
Proof.
  intros t1 t2 listed.
  assert (listed ≠ []) as Hlisted by discriminate.
  split; [exact Hlisted|].
  pose proof (reorderTasks_positions Messages.hexObjectId listed [t1; t2]
                Hlisted) as H.
  change (mapM Messages.hexObjectId listed)
    with (Some ["65f0c0ffee65f0c0ffee00b2"; "65f0c0ffee65f0c0ffee00a1";
                "65f0c0ffee65f0c0ffee00b2"]) in H.
  destruct H as (_ & Hpos & _). split.
  - apply (Hpos 1%nat "65f0c0ffee65f0c0ffee00a1" eq_refl).
    intros [|[|[|j]]] Hj; (lia || discriminate).
  - apply (Hpos 2%nat "65f0c0ffee65f0c0ffee00b2" eq_refl).
    intros [|[|[|j]]] Hj; (lia || discriminate).
Defined.

End BoardFacts.

Module StatsFacts.
Import Tasks GroupFacts.

(** X23: The statistics of [getTaskStats] are consistent with one another:
    [total] is the number of tasks of the match stage, [byStatus] and
    [byPriority] have one entry per value that occurs among them, with
    its number of tasks, and none for a value that does not occur (so none
    for [archived]); the tasks completed this week are among those
    completed this month, and these and the overdue ones are different
    tasks of the match stage. *)
Theorem getTaskStats_consistent (userId : option string) (isManager : bool)
    (now : Z) (tasks : list Task) :
  let stats := getTaskStats userId isManager now tasks in
  stats_total stats = Mongo.countDocuments (matchStage userId isManager) tasks
  ∧ (∀ s, Mongo.count_of s (byStatus stats)
          = match Mongo.countDocuments
                    (λ t, matchStage userId isManager t
                          && bool_decide (status t = s)) tasks with
            | 0 => None
            | S n => Some (S n)
            end)
  ∧ (∀ p, Mongo.count_of p (byPriority stats)
          = match Mongo.countDocuments
                    (λ t, matchStage userId isManager t
                          && bool_decide (priority t = p)) tasks with
            | 0 => None
            | S n => Some (S n)
            end)
  ∧ Mongo.count_of archived (byStatus stats) = None
  ∧ NoDup (map fst (byStatus stats))
  ∧ NoDup (map fst (byPriority stats))
  ∧ (completedThisWeek stats ≤ completedThisMonth stats)%nat
  ∧ (overdue stats + completedThisMonth stats ≤ stats_total stats)%nat.
Proof.
  assert (stats_total (getTaskStats userId isManager now tasks)
          = Mongo.countDocuments (matchStage userId isManager) tasks) as Htotal.
  { unfold getTaskStats. cbn [stats_total].
    rewrite sum_of_group_counts, length_map. done. }
  assert (∀ s, Mongo.count_of s (byStatus (getTaskStats userId isManager now tasks))
          = match Mongo.countDocuments
                    (λ t, matchStage userId isManager t
                          && bool_decide (status t = s)) tasks with
            | 0 => None
            | S n => Some (S n)
            end) as Hstatus.
  { intros s. unfold getTaskStats. cbn [byStatus].
    by rewrite count_of_group_counts, occurrences_map. }
  cbv zeta. split; [exact Htotal|]. split; [exact Hstatus|].
  split.
  { intros p. unfold getTaskStats. cbn [byPriority].
    by rewrite count_of_group_counts, occurrences_map. }
  split.
  { rewrite Hstatus.
    replace (Mongo.countDocuments _ tasks) with 0%nat; [done|].
    symmetry. apply countDocuments_none. intros t. unfold matchStage.
    destruct (decide (status t = archived)) as [E|E].
    - by rewrite (bool_decide_eq_true_2 _ E).
    - by rewrite (bool_decide_eq_false_2 _ E), andb_false_r. }
  split; [apply group_counts_NoDup|].
  split; [apply group_counts_NoDup|].
  split.
  - unfold getTaskStats. cbn [completedThisWeek completedThisMonth].
    apply countDocuments_le. intros t. unfold completed_since_query.
    destruct (visible_to userId isManager t); [|done].
    destruct (bool_decide (status t = done)); [|done].
    destruct (completedAt t) as [c|]; [|done]. simpl.
    intros Hc%Z.leb_le. apply Z.leb_le. lia.
  - rewrite Htotal. unfold getTaskStats.
    cbn [overdue completedThisMonth].
    apply countDocuments_disjoint.
    + intros t. unfold overdue_query, matchStage.
      destruct (visible_to userId isManager t); [|done].
      destruct (bool_decide (status t = archived));
        rewrite ?andb_false_r, ?andb_true_r; done.
    + intros t. unfold completed_since_query, matchStage.
      destruct (visible_to userId isManager t); [|done].
      case_bool_decide as Hd; [|done]. rewrite Hd. done.
    + intros t. unfold overdue_query, completed_since_query.
      destruct (visible_to userId isManager t); [|done].
      destruct (bool_decide (status t = done)); [|done].
      destruct (dueDate t) as [d|]; [destruct (d <? now)%Z|]; done.
Qed.



End StatsFacts.

Module CalendarFacts.
Import Tasks.

Lemma dueDate_before_total (a b : option Z) :
  dueDate_before a b = false → dueDate_before b a = true.
Proof.
  destruct a as [x|], b as [y|]; simpl; try done.
  intros H%Z.leb_gt. apply Z.leb_le. lia.
Qed.

Lemma dueDate_before_trans (a b c : option Z) :
  dueDate_before a b = true → dueDate_before b c = true →
  dueDate_before a c = true.
Proof.
  destruct a as [x|], b as [y|], c as [z|]; simpl; try done.
  intros H1%Z.leb_le H2%Z.leb_le. apply Z.leb_le. lia.
Qed.

Lemma insert_by_dueDate_Permutation (t : Task) (l : list Task) :
  Permutation (insert_by_dueDate t l) (t :: l).
Proof.
  induction l as [|x l IH]; simpl; [done|].
  destruct (dueDate_before (dueDate t) (dueDate x)); [done|].
  rewrite IH. apply Permutation_swap.
Qed.

Lemma sort_by_dueDate_Permutation (l : list Task) :
  Permutation (sort_by_dueDate l) l.
Proof.
  induction l as [|x l IH]; simpl; [done|].
  by rewrite insert_by_dueDate_Permutation, IH.
Qed.

Lemma insert_by_dueDate_sorted (t : Task) (l : list Task) :
  by_dueDate l → by_dueDate (insert_by_dueDate t l).
Proof.
  induction l as [|x l IH]; simpl.
  - intros _. split; [constructor|done].
  - intros [Hx Hl].
    destruct (dueDate_before (dueDate t) (dueDate x)) eqn:Htx.
    + simpl. split; [|done]. constructor; [done|].
      eapply List.Forall_impl; [|exact Hx].
      intros y Hy. simpl in Hy. by eapply dueDate_before_trans.
    + simpl. split; [|by apply IH].
      apply dueDate_before_total in Htx.
      apply List.Forall_forall. intros y Hy.
      apply list_elem_of_In in Hy.
      rewrite insert_by_dueDate_Permutation in Hy.
      apply elem_of_cons in Hy as [->|Hy]; [done|].
      apply list_elem_of_In in Hy.
      by apply (proj1 (List.Forall_forall _ _) Hx).
Qed.

Lemma sort_by_dueDate_sorted (l : list Task) : by_dueDate (sort_by_dueDate l).
Proof.
  induction l as [|x l IH]; simpl; [done|].
  by apply insert_by_dueDate_sorted.
Qed.

Lemma getCalendarTasks_In (rangeStart rangeEnd : Z) (userId : option string)
    (isManager : bool) (tasks : list Task) (t : Task) :
  In t (getCalendarTasks rangeStart rangeEnd userId isManager tasks)
  ↔ In t tasks ∧ calendar_query rangeStart rangeEnd userId isManager t = true.
Proof.
  unfold getCalendarTasks. rewrite <- List.filter_In.
  rewrite <- !list_elem_of_In. by rewrite sort_by_dueDate_Permutation.
Qed.

(** X25: [getCalendarTasks] returns the stored tasks selected by its query,
    each as often as it is stored, in the order of their due dates with
    the undated ones first; none of them is archived, none is without
    both dates, and for a non-manager with an identity each of them is
    assigned to that user. *)
Theorem getCalendarTasks_result (rangeStart rangeEnd : Z)
    (userId : option string) (isManager : bool) (tasks : list Task) :
  let result := getCalendarTasks rangeStart rangeEnd userId isManager tasks in
  Permutation result
    (List.filter (calendar_query rangeStart rangeEnd userId isManager) tasks)
  ∧ by_dueDate result
  ∧ List.Forall
      (λ t, status t ≠ archived
            ∧ (is_Some (dueDate t) ∨ is_Some (startDate t))
            ∧ (isManager = false → Js.truthy userId = true →
               Js.includes (assignees t) (default "" userId) = true))
      result.
Proof.
  cbv zeta. split; [apply sort_by_dueDate_Permutation|].
  split; [apply sort_by_dueDate_sorted|].
  apply List.Forall_forall. intros t [_ Hq]%getCalendarTasks_In.
  unfold calendar_query in Hq.
  apply andb_true_iff in Hq as [Hq Hvis].
  apply andb_true_iff in Hq as [Harch Hdates].
  split; [|split].
  - by apply negb_true_iff, bool_decide_eq_false in Harch.
  - unfold in_range in Hdates.
    destruct (dueDate t), (startDate t); simpl in Hdates; eauto; done.
  - intros -> Htr. unfold visible_to in Hvis. by rewrite Htr in Hvis.
Qed.

(** X26: For a task with a start date not after its due date, and a range that
    is not empty, the date conditions of [getCalendarTasks] say that the
    span of the task and the range have an instant in common: such a task is
    returned exactly when it is stored, not archived, visible to the
    caller, starts no later than the end of the range and is due no
    earlier than its start. *)
Theorem getCalendarTasks_overlap (rangeStart rangeEnd : Z)
    (userId : option string) (isManager : bool) (tasks : list Task)
    (t : Task) (s d : Z) :
  (rangeStart ≤ rangeEnd)%Z →
  startDate t = Some s →
  dueDate t = Some d →
  (s ≤ d)%Z →
  In t (getCalendarTasks rangeStart rangeEnd userId isManager tasks)
  ↔ In t tasks
    ∧ status t ≠ archived
    ∧ visible_to userId isManager t = true
    ∧ (s ≤ rangeEnd)%Z ∧ (rangeStart ≤ d)%Z.
Proof.
  intros Hrange Hs Hd Hsd. rewrite getCalendarTasks_In.
  unfold calendar_query, in_range. rewrite Hs, Hd.
  destruct (visible_to userId isManager t);
    [|rewrite andb_false_r; naive_solver].
  rewrite andb_true_r.
  destruct (decide (status t = archived)) as [E|E].
  - rewrite (bool_decide_eq_true_2 _ E). simpl. naive_solver.
  - rewrite (bool_decide_eq_false_2 _ E). simpl.
    rewrite !orb_true_iff, !andb_true_iff, !Z.leb_le.
    split.
    + intros [Hin Hc]. repeat split; try done; lia.
    + intros (Hin & _ & _ & H1 & H2). split; [done|]. lia.
Qed.

(** A task that starts before the range and is due after it. *)
Lemma getCalendarTasks_overlap_witness :
  let t :=
    mkTask "t1" "Ship release" None todo medium [] "u1" (Some 900%Z) (Some 100%Z)
      None 0 [] [] None [] None 0 in
  (200 ≤ 300)%Z ∧ startDate t = Some 100%Z ∧ dueDate t = Some 900%Z
  ∧ (100 ≤ 900)%Z
  ∧ In t (getCalendarTasks 200 300 None true [t]).
Proof.
  intros t.
  assert (200 ≤ 300)%Z as H1 by lia.
  assert (startDate t = Some 100%Z) as H2 by reflexivity.
  assert (dueDate t = Some 900%Z) as H3 by reflexivity.
  assert (100 ≤ 900)%Z as H4 by lia.
  split; [exact H1|]. split; [exact H2|]. split; [exact H3|].
  split; [exact H4|].
  apply (proj2 (getCalendarTasks_overlap 200 300 None true [t] t 100 900
                  H1 H2 H3 H4)).
  split; [by left|]. split; [discriminate|]. split; [reflexivity|]. lia.
Defined.

End CalendarFacts.

(** ** Users *)

Module UserFacts.
Import Users KeyFacts.

Lemma updateUser_inr (ObjectId : string → string) (userId : string)
    (updates : UserUpdates) (actorId : string) (users : list User)
    (res : option User) (users' : list User) :
  updateUser ObjectId userId updates actorId users = inr (res, users') →
  (∃ actor, findById ObjectId actorId users = Some actor
            ∧ role actor = manager)
  ∧ (userId = actorId → default manager (u_role updates) = manager)
  ∧ users' = fst (Mongo.updateOne
                    (λ u, String.eqb (_id u) (ObjectId userId))
                    (apply_updateData updates) users)
  ∧ res = findById ObjectId userId users'.
Proof.
  unfold updateUser.
  destruct (findById ObjectId actorId users) as [actor|] eqn:Hactor; [|done].
  case_bool_decide as Hrole; simpl; [|done].
  destruct (String.eqb userId actorId) eqn:Hself; simpl.
  - destruct (u_role updates) as [r|] eqn:Hr; simpl.
    + case_bool_decide as Hm; simpl; [|done].
      intros [= <- <-]. eauto 10.
    + intros [= <- <-]. eauto 10.
  - apply String.eqb_neq in Hself. intros [= <- <-].
    split; [eauto|]. split; [done|]. done.
Qed.

(** X27: When [updateUser] does not throw, the actor is a manager before the
    call and still one after it, provided the target is written as the
    actor's identity is whenever it is the actor; and every stored user
    keeps its identity and email, and every user other than the target is
    unchanged. *)
Theorem updateUser_keeps_actor_manager (ObjectId : string → string)
    (userId : string) (updates : UserUpdates) (actorId : string)
    (users : list User) (res : option User) (users' : list User) :
  (ObjectId userId = ObjectId actorId → userId = actorId) →
  updateUser ObjectId userId updates actorId users = inr (res, users') →
  (∃ actor, findById ObjectId actorId users = Some actor
            ∧ role actor = manager)
  ∧ (∃ actor', findById ObjectId actorId users' = Some actor'
               ∧ role actor' = manager)
  ∧ List.Forall2
      (λ u u', _id u' = _id u ∧ email u' = email u
               ∧ (_id u ≠ ObjectId userId → u' = u))
      users users'.
Proof.
  intros Hcanon (Hactor & Hself & -> & _)%updateUser_inr.
  split; [exact Hactor|]. destruct Hactor as (actor & Hfind & Hrole).
  split.
  - unfold findById in *.
    rewrite (find_updateOne _id) by done.
    destruct (decide (ObjectId actorId = ObjectId userId)) as [E|E].
    + rewrite Hfind. simpl. eexists. split; [done|]. simpl.
      symmetry in E. specialize (Hself (Hcanon E)).
      destruct (u_role updates); simpl in *; congruence.
    + eauto.
  - eapply List.Forall2_impl; [|apply updateOne_changes].
    intros u u' [->|[Hu ->]]; [done|]. simpl.
    split; [done|]. split; [done|].
    intros Hne. by apply String.eqb_eq in Hu.
Qed.

(** A manager deactivates another account. *)
Lemma updateUser_keeps_actor_manager_witness :
  let users :=
    [mkUser "aa01" "ann@example.org" manager None None true;
     mkUser "bb02" "bob@example.org" user None None true] in
  let updates := mkUserUpdates None None None (Some false) in
  (Js.toLowerCase "bb02" = Js.toLowerCase "aa01" → "bb02" = "aa01")
  ∧ updateUser Js.toLowerCase "bb02" updates "aa01" users
    = inr (Some (mkUser "bb02" "bob@example.org" user None None false),
           [mkUser "aa01" "ann@example.org" manager None None true;
            mkUser "bb02" "bob@example.org" user None None false])
  ∧ ∃ actor',
      findById Js.toLowerCase "aa01"
        [mkUser "aa01" "ann@example.org" manager None None true;
         mkUser "bb02" "bob@example.org" user None None false]
      = Some actor'
      ∧ role actor' = manager.
Proof.
  intros users updates.
  assert (Js.toLowerCase "bb02" = Js.toLowerCase "aa01" → "bb02" = "aa01")
    as H1 by discriminate.
  assert (updateUser Js.toLowerCase "bb02" updates "aa01" users
          = inr (Some (mkUser "bb02" "bob@example.org" user None None false),
                 [mkUser "aa01" "ann@example.org" manager None None true;
                  mkUser "bb02" "bob@example.org" user None None false]))
    as H2 by reflexivity.
  split; [exact H1|]. split; [exact H2|].
  exact (proj1 (proj2 (updateUser_keeps_actor_manager Js.toLowerCase "bb02"
                         updates "aa01" users _ _ H1 H2))).
Defined.



End UserFacts.

(** ** The socket registry *)

Module RegistryFacts.
Import Presence.
Import PresenceFacts.

Lemma entry_of_default (open : gset string) :
  default ∅ (entry_of open) = open.
Proof. unfold entry_of. by case_decide. Qed.

(** One handler keeps the registry entry of a user in step with the set of
    that user's open sockets. *)
Lemma step_tracks (userId : string) (ev : SocketEvent)
    (reg : gmap string (gset string)) (open : gset string) :
  reg !! userId = entry_of open →
  fst (step ev reg) !! userId = entry_of (track_socket userId open ev).
Proof.
  intros Hreg. destruct ev as [u s|u s]; cbn [step track_socket].
  - rewrite on_connection_registry. case_decide as Hu.
    + subst u. rewrite lookup_insert_eq, Hreg, entry_of_default.
      unfold entry_of. case_decide as He; [exfalso; set_solver | done].
    + by rewrite lookup_insert_ne.
  - case_decide as Hu; [|by rewrite on_disconnect_other].
    subst u. unfold on_disconnect. rewrite Hreg. unfold entry_of at 1.
    case_decide as Hopen.
    + subst open. cbn [fst]. rewrite Hreg. unfold entry_of.
      rewrite decide_True by done. by rewrite decide_True by set_solver.
    + case_bool_decide as Hsz; cbn [fst].
      * rewrite lookup_delete_eq. unfold entry_of.
        rewrite decide_True; [done|]. by apply leibniz_equiv, size_empty_iff.
      * rewrite lookup_insert_eq. unfold entry_of.
        rewrite decide_False; [done|]. intros Hempty. apply Hsz.
        rewrite Hempty. apply size_empty.
Qed.

Lemma run_tracks (userId : string) (evs : list SocketEvent)
    (reg : gmap string (gset string)) (open : gset string) :
  reg !! userId = entry_of open →
  fst (run evs reg) !! userId
  = entry_of (fold_left (track_socket userId) evs open).
Proof.
  revert reg open. induction evs as [|ev evs IH]; intros reg open Hreg; [done|].
  rewrite run_cons. cbn [fst fold_left]. apply IH. by apply step_tracks.
Qed.

(** X29: Reference counting over any event sequence from the empty registry:
    the entry of a user is the set of the user's sockets that were
    connected and not disconnected since; the user is online, and listed
    by [getOnlineUsers], exactly when that set is not empty. *)
Theorem registry_tracks_open_sockets (userId : string)
    (evs : list SocketEvent) :
  let registry := fst (run evs onlineUsers_init) in
  registry !! userId = entry_of (open_sockets userId evs)
  ∧ (isUserOnline registry userId = true ↔ open_sockets userId evs ≠ ∅)
  ∧ (userId ∈ getOnlineUsers registry ↔ open_sockets userId evs ≠ ∅).
Proof.
  cbv zeta.
  assert (fst (run evs onlineUsers_init) !! userId
          = entry_of (open_sockets userId evs)) as Hentry.
  { apply run_tracks. unfold onlineUsers_init, entry_of.
    by rewrite lookup_empty, decide_True. }
  split; [exact Hentry|]. split.
  - rewrite isUserOnline_true, Hentry. unfold entry_of. case_decide as He.
    + split; [intros (S & ? & _); congruence | done].
    + split; [done | eauto].
  - unfold getOnlineUsers. rewrite elem_of_dom, Hentry. unfold entry_of.
    case_decide as He.
    + split; [intros [? ?]; congruence | done].
    + split; [done | eauto].
Qed.

End RegistryFacts.

(** ** Sanitization *)

Module SanitizeFacts.
Import Sanitize.

Lemma has_char_append (c : ascii) (s1 s2 : string) :
  has_char c (s1 +:+ s2) = has_char c s1 || has_char c s2.
Proof.
  induction s1 as [|x s1 IH]; simpl; [done|]. by rewrite IH, orb_assoc.
Qed.

(** The characters of a string after one replacement. *)
Lemma has_char_replace (d c : ascii) (by_ s : string) :
  has_char d (replace_char c by_ s)
  = (negb (Ascii.eqb d c) && has_char d s)
    || (has_char c s && has_char d by_).
Proof.
  induction s as [|x s IH]; simpl; [by rewrite andb_false_r|].
  destruct (Ascii.eqb x c) eqn:Hxc.
  - apply Ascii.eqb_eq in Hxc. subst x.
    rewrite has_char_append, IH. rewrite (Ascii.eqb_sym c d).
    destruct (Ascii.eqb d c), (has_char d s), (has_char c s),
      (has_char d by_); done.
  - simpl. rewrite IH.
    destruct (Ascii.eqb x d) eqn:Hxd.
    + apply Ascii.eqb_eq in Hxd. subst x. rewrite Hxc. simpl.
      by destruct (has_char c s), (has_char d by_).
    + simpl. done.
Qed.

Lemma replace_char_absent (c : ascii) (by_ s : string) :
  has_char c s = false → replace_char c by_ s = s.
Proof.
  induction s as [|x s IH]; simpl; [done|]. intros Hno.
  apply orb_false_iff in Hno as [Hx Hs]. by rewrite Hx, IH.
Qed.

(** X30: The output of [sanitizeInput] holds none of the five escaped
    characters; an input that holds none of them is returned as it is; and
    sanitizing twice is sanitizing once (the ampersand is not escaped). *)
Theorem sanitizeInput_escapes (input : string) :
  List.Forall (λ c, has_char c (sanitizeInput input) = false) escaped_chars
  ∧ (List.Forall (λ c, has_char c input = false) escaped_chars →
     sanitizeInput input = input)
  ∧ sanitizeInput (sanitizeInput input) = sanitizeInput input.
Proof.
  assert (List.Forall (λ c, has_char c (sanitizeInput input) = false)
            escaped_chars) as Hclean.
  { unfold escaped_chars, sanitizeInput.
    repeat constructor; rewrite !has_char_replace; cbn;
      rewrite ?andb_false_r, ?orb_false_r; done. }
  assert (∀ s, List.Forall (λ c, has_char c s = false) escaped_chars →
               sanitizeInput s = s) as Hfix.
  { intros s Hs. unfold escaped_chars in Hs.
    apply List.Forall_cons_iff in Hs as [H1 Hs].
    apply List.Forall_cons_iff in Hs as [H2 Hs].
    apply List.Forall_cons_iff in Hs as [H3 Hs].
    apply List.Forall_cons_iff in Hs as [H4 Hs].
    apply List.Forall_cons_iff in Hs as [H5 _].
    unfold sanitizeInput.
    by rewrite (replace_char_absent "<"), (replace_char_absent ">"),
      (replace_char_absent "034"), (replace_char_absent "'"),
      (replace_char_absent "/"). }
  split; [exact Hclean|]. split; [apply Hfix | by apply Hfix].
Qed.

(** A text without markup characters. *)
Lemma sanitizeInput_escapes_witness :
  List.Forall (λ c, has_char c "fish & chips" = false) escaped_chars
  ∧ sanitizeInput "fish & chips" = "fish & chips".
Proof.
  assert (List.Forall (λ c, has_char c "fish & chips" = false) escaped_chars)
    as H1 by (unfold escaped_chars; sample).
  split; [exact H1|].
  exact (proj1 (proj2 (sanitizeInput_escapes "fish & chips")) H1).
Defined.

End SanitizeFacts.
